(** * AI Chat Portal: the conversation lifecycle engine of [server.py]

    A shallow embedding of [src/app/backend/server.py].  The two MongoDB
    collections are lists of documents in insertion (natural) order; every
    request handler is a computation in a small state-and-exception monad
    over the store, the log of LLM gateway calls and a counter that drives
    the external sources of identifiers and time.

    A Python [str] is a [string] holding its UTF-8 bytes. *)

From Stdlib Require Import List String Ascii Arith PeanoNat NArith Bool Lia.
From Stdlib Require Import Sorted Permutation DecimalString.
Import ListNotations.
Open Scope string_scope.
Open Scope nat_scope.

(** ** Text helpers *)

Definition chr (n : nat) : ascii := ascii_of_nat n.

(** ["\n"] *)
Definition nl : string := String (chr 10) EmptyString.

(** [sep.join(parts)] *)
Definition join (sep : string) (parts : list string) : string :=
  String.concat sep parts.

(** [s.split(sep)] for a one-character separator. *)
Fixpoint split (sep : ascii) (s : string) : list string :=
  match s with
  | EmptyString => [EmptyString]
  | String c t =>
      if Ascii.eqb c sep then EmptyString :: split sep t
      else match split sep t with
           | [] => [String c EmptyString]
           | h :: r => String c h :: r
           end
  end.

(** The one-byte characters for which [str.isspace] holds:
    TAB, LF, VT, FF, CR, FS, GS, RS, US and SPACE. *)
Definition is_ascii_space (c : ascii) : bool :=
  let n := nat_of_ascii c in
  ((9 <=? n) && (n <=? 13)) || ((28 <=? n) && (n <=? 32)).

(** [s.lstrip()]: besides the one-byte characters it drops the UTF-8
    encodings of U+0085, U+00A0, U+1680, U+2000..U+200A, U+2028, U+2029,
    U+202F, U+205F and U+3000, the other characters Python counts as
    whitespace. *)
Fixpoint lstrip (s : string) : string :=
  match s with
  | EmptyString => EmptyString
  | String c t =>
      if is_ascii_space c then lstrip t
      else
        match nat_of_ascii c, t with
        | 194, String d t1 =>
            let n := nat_of_ascii d in
            if (n =? 133) || (n =? 160) then lstrip t1 else s
        | 225, String d (String e t2) =>
            if (nat_of_ascii d =? 154) && (nat_of_ascii e =? 128)
            then lstrip t2 else s
        | 226, String d (String e t2) =>
            let n := nat_of_ascii d in
            let m := nat_of_ascii e in
            if ((n =? 128) &&
                (((128 <=? m) && (m <=? 138)) || (m =? 168) || (m =? 169)
                 || (m =? 175)))
               || ((n =? 129) && (m =? 159))
            then lstrip t2 else s
        | 227, String d (String e t2) =>
            if (nat_of_ascii d =? 128) && (nat_of_ascii e =? 128)
            then lstrip t2 else s
        | _, _ => s
        end
  end.

(** [s.rstrip()]: a character is kept unless everything from it to the end
    of the string is whitespace. *)
Fixpoint rstrip (s : string) : string :=
  match s with
  | EmptyString => EmptyString
  | String c t =>
      match lstrip s with
      | EmptyString => EmptyString
      | _ => String c (rstrip t)
      end
  end.

(** [s.strip()] *)
Definition strip (s : string) : string := rstrip (lstrip s).

(** [s.startswith(p)] *)
Definition startswith (s p : string) : bool := String.prefix p s.

Definition upper_ascii (c : ascii) : ascii :=
  let n := nat_of_ascii c in
  if (97 <=? n) && (n <=? 122) then chr (n - 32) else c.

Definition lower_ascii (c : ascii) : ascii :=
  let n := nat_of_ascii c in
  if (65 <=? n) && (n <=? 90) then chr (n + 32) else c.

Fixpoint map_string (f : ascii -> ascii) (s : string) : string :=
  match s with
  | EmptyString => EmptyString
  | String c t => String (f c) (map_string f t)
  end.

(** [s.capitalize()] on the ASCII letters; the only strings capitalised are
    message roles. *)
Definition capitalize (s : string) : string :=
  match s with
  | EmptyString => EmptyString
  | String c t => String (upper_ascii c) (map_string lower_ascii t)
  end.

(** [str(n)] for a non-negative integer. *)
Definition str_of_nat (n : nat) : string :=
  NilZero.string_of_uint (Nat.to_uint n).

(** [l[-n:]] *)
Definition last_n {A : Type} (n : nat) (l : list A) : list A :=
  skipn (List.length l - n) l.

(** [l.remove(x)] when [x in l]: drops the first occurrence. *)
Fixpoint remove_first (x : string) (l : list string) : list string :=
  match l with
  | [] => []
  | y :: t => if String.eqb x y then t else y :: remove_first x t
  end.

(** [x in l] *)
Definition mem (x : string) (l : list string) : bool :=
  existsb (String.eqb x) l.

(** The toggle of [react_to_message]:
    [if reaction in reactions: reactions.remove(reaction)
     else: reactions.append(reaction)]. *)
Definition toggle_reaction (reaction : string) (reactions : list string)
  : list string :=
  if mem reaction reactions
  then remove_first reaction reactions
  else (reactions ++ [reaction])%list.

(** ** Sorting

    [list.sort] and [sorted] are stable; a stable sort of a list under a
    total preorder has one result, computed here by insertion.  [le x y]
    decides that [x] may stay in front of [y]. *)

Section Sort.
Context {A : Type} (le : A -> A -> bool).

Fixpoint insert_sorted (x : A) (l : list A) : list A :=
  match l with
  | [] => [x]
  | y :: t => if le x y then x :: l else y :: insert_sorted x t
  end.

Fixpoint stable_sort (l : list A) : list A :=
  match l with
  | [] => []
  | x :: t => insert_sorted x (stable_sort t)
  end.
End Sort.

(** ** Timestamps

    Every timestamp of the program is [datetime.now(timezone.utc)]: an aware
    value in UTC, kept here by its calendar fields. *)

Record datetime : Type := mk_datetime {
  year : N; month : N; day : N;
  hour : N; minute : N; second : N; microsecond : N
}.

(** The field ranges of a Python [datetime]. *)
Definition valid_datetime (d : datetime) : Prop :=
  (1 <= year d <= 9999 /\ 1 <= month d <= 12 /\ 1 <= day d <= 31 /\
   hour d < 24 /\ minute d < 60 /\ second d < 60 /\
   microsecond d < 1000000)%N.

Definition valid_datetimeb (d : datetime) : bool :=
  ((1 <=? year d) && (year d <=? 9999) && (1 <=? month d) && (month d <=? 12)
   && (1 <=? day d) && (day d <=? 31) && (hour d <? 24) && (minute d <? 60)
   && (second d <? 60) && (microsecond d <? 1000000))%N.

Definition lex (c1 c2 : comparison) : comparison :=
  match c1 with Eq => c2 | _ => c1 end.

Definition fields (d : datetime) : list N :=
  [year d; month d; day d; hour d; minute d; second d; microsecond d].

Fixpoint list_compare (a b : list N) : comparison :=
  match a, b with
  | [], [] => Eq
  | [], _ :: _ => Lt
  | _ :: _, [] => Gt
  | x :: a', y :: b' => lex (x ?= y)%N (list_compare a' b')
  end.

(** Order of two aware UTC values: the order of their instants, which is
    the order of their fields read from the year down. *)
Definition dt_compare (a b : datetime) : comparison :=
  list_compare (fields a) (fields b).

Definition dt_leb (a b : datetime) : bool :=
  match dt_compare a b with Gt => false | _ => true end.

(** [w] decimal digits of [n], zero-padded ([%0wd] for [n < 10^w]). *)
Fixpoint pad (w : nat) (n : N) : string :=
  match w with
  | 0 => EmptyString
  | S w' =>
      let p := (10 ^ N.of_nat w')%N in
      String (ascii_of_N (48 + (n / p) mod 10)) (pad w' (n mod p)%N)
  end.

(** The fraction and the offset that end the text: the fraction is left
    out when the microsecond is zero. *)
Definition iso_tail (us : N) : string :=
  (if (us =? 0)%N then EmptyString else "." ++ pad 6 us) ++ "+00:00".

(** [d.isoformat()] of an aware UTC value. *)
Definition isoformat (d : datetime) : string :=
  pad 4 (year d) ++ "-" ++ pad 2 (month d) ++ "-" ++ pad 2 (day d) ++ "T" ++
  pad 2 (hour d) ++ ":" ++ pad 2 (minute d) ++ ":" ++ pad 2 (second d) ++
  iso_tail (microsecond d).

Definition digit_val (c : ascii) : option N :=
  let n := N_of_ascii c in
  if ((48 <=? n) && (n <=? 57))%N then Some (n - 48)%N else None.

Fixpoint parse_digits (w : nat) (acc : N) (s : string)
  : option (N * string) :=
  match w with
  | 0 => Some (acc, s)
  | S w' =>
      match s with
      | EmptyString => None
      | String c t =>
          match digit_val c with
          | Some d => parse_digits w' (10 * acc + d)%N t
          | None => None
          end
      end
  end.

(** Reads the character [c] off the front of [s]. *)
Definition expect (c : ascii) (s : string) : option string :=
  match s with
  | String c' t => if Ascii.eqb c' c then Some t else None
  | EmptyString => None
  end.

Definition obind {A B : Type} (o : option A) (k : A -> option B) : option B :=
  match o with Some a => k a | None => None end.

(** The layout [isoformat] writes for an aware UTC value, read back. *)
Definition parse_iso (s : string) : option datetime :=
  obind (parse_digits 4 0 s) (fun '(y, s) =>
  obind (expect "-" s) (fun s =>
  obind (parse_digits 2 0 s) (fun '(mo, s) =>
  obind (expect "-" s) (fun s =>
  obind (parse_digits 2 0 s) (fun '(d, s) =>
  obind (expect "T" s) (fun s =>
  obind (parse_digits 2 0 s) (fun '(h, s) =>
  obind (expect ":" s) (fun s =>
  obind (parse_digits 2 0 s) (fun '(mi, s) =>
  obind (expect ":" s) (fun s =>
  obind (parse_digits 2 0 s) (fun '(se, s) =>
  match expect "." s with
  | Some s =>
      obind (parse_digits 6 0 s) (fun '(us, s) =>
      if String.eqb s "+00:00"
      then Some (mk_datetime y mo d h mi se us) else None)
  | None =>
      if String.eqb s "+00:00"
      then Some (mk_datetime y mo d h mi se 0) else None
  end))))))))))).

(** Exceptions that leave a request handler: the [HTTPException]s the
    handlers raise, the [ValueError] of [fromisoformat], and whatever the
    document builder of the PDF export raises. *)
Inductive Exn : Type :=
| HTTPException (status_code : nat) (detail : string)
| ValueError (message : string)
| BuildError (message : string).

(** [datetime.fromisoformat(s)], on the strings this program stores: the
    [isoformat()] of aware UTC values.  Anything else is a [ValueError]. *)
Definition fromisoformat (s : string) : Exn + datetime :=
  match parse_iso s with
  | Some d =>
      if valid_datetimeb d then inr d
      else inl (ValueError ("Invalid isoformat string: '" ++ s ++ "'"))
  | None => inl (ValueError ("Invalid isoformat string: '" ++ s ++ "'"))
  end.

(** ** Data model

    [Message] and [Conversation] are the pydantic models; [T] is the type of
    their timestamps: [datetime] in a model object, [string] in the stored
    document, where [isoformat()] has been applied before the insert. *)

Module Message.
Record t (T : Type) : Type := mk {
  id : string;
  conversation_id : string;
  role : string;
  content : string;
  timestamp : T;
  reactions : list string;
  bookmarked : bool
}.
Arguments mk {T}.
Arguments id {T}.
Arguments conversation_id {T}.
Arguments role {T}.
Arguments content {T}.
Arguments timestamp {T}.
Arguments reactions {T}.
Arguments bookmarked {T}.

Definition with_timestamp {T U : Type} (ts : U) (m : t T) : t U :=
  mk (id m) (conversation_id m) (role m) (content m) ts (reactions m)
     (bookmarked m).

(** [{"$set": {"reactions": r}}] *)
Definition set_reactions {T : Type} (r : list string) (m : t T) : t T :=
  mk (id m) (conversation_id m) (role m) (content m) (timestamp m) r
     (bookmarked m).

(** [{"$set": {"bookmarked": b}}] *)
Definition set_bookmarked {T : Type} (b : bool) (m : t T) : t T :=
  mk (id m) (conversation_id m) (role m) (content m) (timestamp m)
     (reactions m) b.
End Message.

Module Conversation.
Record t (T : Type) : Type := mk {
  id : string;
  title : string;
  status : string;
  summary : option string;
  start_time : T;
  end_time : option T;
  share_token : option string
}.
Arguments mk {T}.
Arguments id {T}.
Arguments title {T}.
Arguments status {T}.
Arguments summary {T}.
Arguments start_time {T}.
Arguments end_time {T}.
Arguments share_token {T}.

Definition with_times {T U : Type} (st : U) (et : option U) (c : t T)
  : t U :=
  mk (id c) (title c) (status c) (summary c) st et (share_token c).

(** [{"$set": {"status": "ended", "summary": s, "end_time": e}}] *)
Definition set_ended {T : Type} (s : string) (e : T) (c : t T) : t T :=
  mk (id c) (title c) "ended" (Some s) (start_time c) (Some e)
     (share_token c).

(** [{"$set": {"share_token": tok}}] *)
Definition set_share_token {T : Type} (tok : string) (c : t T) : t T :=
  mk (id c) (title c) (status c) (summary c) (start_time c) (end_time c)
     (Some tok).
End Conversation.

Definition MessageDoc : Type := Message.t string.
Definition ConversationDoc : Type := Conversation.t string.

(** One request to the LLM gateway: the chat's system message and session
    id, and the text sent. *)
Record LlmCall : Type := mk_call {
  system_message : string;
  session_id : string;
  prompt : string
}.

(** The state a handler runs in: the two collections of [db], the gateway
    calls made so far, and the number of identifiers and clock readings
    drawn so far. *)
Record World : Type := mk_world {
  conversations : list ConversationDoc;
  messages : list MessageDoc;
  llm_calls : list LlmCall;
  ticks : nat
}.

Definition empty_world : World := mk_world [] [] [] 0.

(** A flowable of the PDF story; a spacer has its width in points and its
    height in tenths of an inch. *)
Inductive Flowable : Type :=
| Paragraph (text style : string)
| Spacer (width height : nat).

(** The external collaborators.  [uuid4_at n] and [now_at n] are the values
    [uuid.uuid4()] and [datetime.now(timezone.utc)] give at the [n]-th draw;
    [gateway log call] is the outcome of [chat.send_message] after the calls
    in [log]: [inr] the response text, [inl] the text of the exception raised;
    [pdf_build path story] is [Some] the exception text when building the
    document fails. *)
Class Env : Type := {
  uuid4_at : nat -> string;
  now_at : nat -> datetime;
  gateway : list LlmCall -> LlmCall -> string + string;
  pdf_build : string -> list Flowable -> option string
}.

(** ** The handler monad

    A handler either returns or raises; the world it leaves behind holds
    every write made before the exception. *)

Definition M (A : Type) : Type := World -> (Exn + A) * World.

Definition ret {A : Type} (a : A) : M A := fun w => (inr a, w).

Definition raise {A : Type} (e : Exn) : M A := fun w => (inl e, w).

Definition bind {A B : Type} (m : M A) (k : A -> M B) : M B :=
  fun w =>
    match m w with
    | (inl e, w') => (inl e, w')
    | (inr a, w') => k a w'
    end.

Declare Scope handler_scope.
Delimit Scope handler_scope with handler.
Notation "x <- m ;; k" := (bind m (fun x => k))
  (at level 61, m at next level, right associativity) : handler_scope.
Notation "' p <- m ;; k" := (bind m (fun p => k))
  (at level 61, p pattern, m at next level, right associativity)
  : handler_scope.
Notation "m ;; k" := (bind m (fun _ => k))
  (at level 61, right associativity) : handler_scope.
Open Scope handler_scope.

(** A pure step that may raise. *)
Definition lift {A : Type} (r : Exn + A) : M A := fun w => (r, w).

(** The result and the final world of a run. *)
Definition result {A : Type} (m : M A) (w : World) : Exn + A := fst (m w).
Definition final {A : Type} (m : M A) (w : World) : World := snd (m w).

(** Applies [f] to each element in turn, stopping at the first exception. *)
Fixpoint traverse {A B : Type} (f : A -> Exn + B) (l : list A)
  : Exn + list B :=
  match l with
  | [] => inr []
  | x :: t =>
      match f x with
      | inl e => inl e
      | inr y =>
          match traverse f t with
          | inl e => inl e
          | inr ys => inr (y :: ys)
          end
      end
  end.

(** ** The store: the collection operations the handlers use *)

(** The document [update_one] changes: the first match. *)
Fixpoint update_first {A : Type} (q : A -> bool) (f : A -> A) (l : list A)
  : list A :=
  match l with
  | [] => []
  | x :: t => if q x then f x :: t else x :: update_first q f t
  end.

Module db.
Module conversations.
Definition find_one (q : ConversationDoc -> bool)
  : M (option ConversationDoc) :=
  fun w => (inr (List.find q (conversations w)), w).

(** [find(q).to_list(n)] *)
Definition find (q : ConversationDoc -> bool) (n : nat)
  : M (list ConversationDoc) :=
  fun w => (inr (firstn n (filter q (conversations w))), w).

Definition insert_one (d : ConversationDoc) : M unit :=
  fun w => (inr tt,
            mk_world (conversations w ++ [d])%list (messages w)
                     (llm_calls w) (ticks w)).

Definition update_one (q : ConversationDoc -> bool)
  (f : ConversationDoc -> ConversationDoc) : M unit :=
  fun w => (inr tt,
            mk_world (update_first q f (conversations w)) (messages w)
                     (llm_calls w) (ticks w)).
End conversations.

Module messages.
Definition find_one (q : MessageDoc -> bool) : M (option MessageDoc) :=
  fun w => (inr (List.find q (messages w)), w).

Definition find (q : MessageDoc -> bool) (n : nat)
  : M (list MessageDoc) :=
  fun w => (inr (firstn n (filter q (messages w))), w).

Definition insert_one (d : MessageDoc) : M unit :=
  fun w => (inr tt,
            mk_world (conversations w) (messages w ++ [d])%list
                     (llm_calls w) (ticks w)).

Definition update_one (q : MessageDoc -> bool)
  (f : MessageDoc -> MessageDoc) : M unit :=
  fun w => (inr tt,
            mk_world (conversations w) (update_first q f (messages w))
                     (llm_calls w) (ticks w)).
End messages.
End db.

(** The queries [{"id": x}], [{"conversation_id": x}], [{"status": x}] and
    [{"share_token": x}]. *)
Definition conv_id_is (x : string) (c : ConversationDoc) : bool :=
  String.eqb (Conversation.id c) x.
Definition msg_id_is (x : string) (m : MessageDoc) : bool :=
  String.eqb (Message.id m) x.
Definition in_conversation (x : string) (m : MessageDoc) : bool :=
  String.eqb (Message.conversation_id m) x.
Definition status_is (x : string) (c : ConversationDoc) : bool :=
  String.eqb (Conversation.status c) x.
Definition share_token_is (x : string) (c : ConversationDoc) : bool :=
  match Conversation.share_token c with
  | Some tok => String.eqb tok x
  | None => false
  end.

(** ** The handlers of [server.py] *)

Section Handlers.
Context {E : Env}.

(** [uuid.uuid4()] rendered as text. *)
Definition uuid4 : M string :=
  fun w => (inr (uuid4_at (ticks w)),
            mk_world (conversations w) (messages w) (llm_calls w)
                     (S (ticks w))).

(** [datetime.now(timezone.utc)] *)
Definition utcnow : M datetime :=
  fun w => (inr (now_at (ticks w)),
            mk_world (conversations w) (messages w) (llm_calls w)
                     (S (ticks w))).

(** [LlmChat(api_key, session_id, system_message).send_message(text)]:
    the call is logged and the gateway's outcome handed to the caller,
    whose [try]/[except] decides what an exception becomes. *)
Definition chat_send_message (system session text : string)
  : M (string + string) :=
  fun w =>
    let call := mk_call system session text in
    (inr (gateway (llm_calls w) call),
     mk_world (conversations w) (messages w)
              (llm_calls w ++ [call])%list (ticks w)).

(** [Message(conversation_id=..., role=..., content=...)]: the default
    factories draw the id, then the timestamp. *)
Definition new_message (conversation_id role content : string)
  : M (Message.t datetime) :=
  id <- uuid4 ;;
  ts <- utcnow ;;
  ret (Message.mk id conversation_id role content ts [] false).

(** [Conversation(title=...)] *)
Definition new_conversation (title : string) : M (Conversation.t datetime) :=
  id <- uuid4 ;;
  st <- utcnow ;;
  ret (Conversation.mk id title "active" None st None None).

(** [{"role": m['role'], "content": m['content']}] *)
Definition turn {T : Type} (m : Message.t T) : string * string :=
  (Message.role m, Message.content m).

(** [f"{m['role']}: {m['content']}"] *)
Definition turn_line (m : string * string) : string :=
  fst m ++ ": " ++ snd m.

Definition by_timestamp (a b : MessageDoc) : bool :=
  String.leb (Message.timestamp a) (Message.timestamp b).

Definition by_parsed_timestamp (a b : Message.t datetime) : bool :=
  dt_leb (Message.timestamp a) (Message.timestamp b).

(** Newest first: [sort(key=start_time, reverse=True)]. *)
Definition by_start_time_desc (a b : Conversation.t datetime) : bool :=
  dt_leb (Conversation.start_time b) (Conversation.start_time a).

(** The loop [if isinstance(msg.get('timestamp'), str): msg['timestamp'] =
    datetime.fromisoformat(msg['timestamp'])]; stored timestamps are
    always text. *)
Definition parse_message (m : MessageDoc) : Exn + Message.t datetime :=
  match fromisoformat (Message.timestamp m) with
  | inl e => inl e
  | inr ts => inr (Message.with_timestamp ts m)
  end.

(** The same for [start_time] and [end_time].  The guard
    [conv.get('end_time') and ...] skips an absent end time; a stored one
    is the [isoformat()] text [end_conversation] wrote. *)
Definition parse_conversation (c : ConversationDoc)
  : Exn + Conversation.t datetime :=
  match fromisoformat (Conversation.start_time c) with
  | inl e => inl e
  | inr st =>
      match Conversation.end_time c with
      | None => inr (Conversation.with_times st None c)
      | Some s =>
          match fromisoformat s with
          | inl e => inl e
          | inr et => inr (Conversation.with_times st (Some et) c)
          end
      end
  end.

Definition assistant_system : string :=
  "You are a helpful, friendly AI assistant. Provide clear and concise responses.".

(** [call_llm(messages, conversation_id)]: only the content of the last
    message is sent; an exception becomes the returned text. *)
Definition call_llm (msgs : list (string * string)) (conversation_id : string)
  : M string :=
  let last_message := List.last msgs (EmptyString, EmptyString) in
  r <- chat_send_message assistant_system conversation_id
         (snd last_message) ;;
  match r with
  | inr response => ret response
  | inl e => ret ("Error generating response: " ++ e)
  end.

Definition default_suggestions : list string :=
  ["Tell me about yourself";
   "What can you help me with?";
   "Explain a complex topic simply"].

Definition suggestions_system : string :=
  "Generate 3 brief follow-up questions (max 8 words each) based on the conversation. Return only the questions, one per line.".

(** [[s.strip() for s in response.split('\n')
      if s.strip() and not s.strip().startswith('#')]] *)
Definition parse_suggestions (response : string) : list string :=
  map strip
    (filter (fun s => negb (String.eqb (strip s) EmptyString)
                      && negb (startswith (strip s) "#"))
            (split (chr 10) response)).

Definition generate_suggestions (conversation_history : list (string * string))
  : M (list string) :=
  match conversation_history with
  | [] => ret default_suggestions
  | _ =>
      let recent :=
        if 3 <=? List.length conversation_history
        then last_n 3 conversation_history
        else conversation_history in
      let context := join nl (map turn_line recent) in
      u <- uuid4 ;;
      r <- chat_send_message suggestions_system ("suggestions_" ++ u)
             ("Recent conversation:" ++ nl ++ context ++ nl ++ nl ++
              "Generate 3 relevant follow-up questions:") ;;
      match r with
      | inr response => ret (firstn 3 (parse_suggestions response))
      | inl _ => ret []
      end
  end.

Definition get_conversations : M (list (Conversation.t datetime)) :=
  convs <- db.conversations.find (fun _ => true) 1000 ;;
  convs <- lift (traverse parse_conversation convs) ;;
  ret (stable_sort by_start_time_desc convs).

Definition get_conversation (conversation_id : string)
  : M (Conversation.t datetime * list (Message.t datetime) * list string) :=
  conv <- db.conversations.find_one (conv_id_is conversation_id) ;;
  match conv with
  | None => raise (HTTPException 404 "Conversation not found")
  | Some conv =>
      conv <- lift (parse_conversation conv) ;;
      msgs <- db.messages.find (in_conversation conversation_id) 1000 ;;
      msgs <- lift (traverse parse_message msgs) ;;
      let msgs := stable_sort by_parsed_timestamp msgs in
      suggestions <-
        (if String.eqb (Conversation.status conv) "active"
            && negb (Nat.eqb (List.length msgs) 0)
         then generate_suggestions (map turn msgs)
         else ret []) ;;
      ret (conv, msgs, suggestions)
  end.

Definition create_conversation (title : string)
  : M (Conversation.t datetime) :=
  conv <- new_conversation title ;;
  db.conversations.insert_one
    (Conversation.with_times
       (isoformat (Conversation.start_time conv)) None conv) ;;
  ret conv.

Definition send_message (conversation_id content : string)
  : M (Message.t datetime) :=
  conv <- db.conversations.find_one (conv_id_is conversation_id) ;;
  match conv with
  | None => raise (HTTPException 404 "Conversation not found")
  | Some conv =>
      if negb (String.eqb (Conversation.status conv) "active")
      then raise (HTTPException 400 "Conversation has ended")
      else
        user_msg <- new_message conversation_id "user" content ;;
        db.messages.insert_one
          (Message.with_timestamp
             (isoformat (Message.timestamp user_msg)) user_msg) ;;
        msgs <- db.messages.find (in_conversation conversation_id) 1000 ;;
        let lm_messages := map turn (stable_sort by_timestamp msgs) in
        ai_response <- call_llm lm_messages conversation_id ;;
        ai_msg <- new_message conversation_id "assistant" ai_response ;;
        db.messages.insert_one
          (Message.with_timestamp
             (isoformat (Message.timestamp ai_msg)) ai_msg) ;;
        ret ai_msg
  end.

Definition summary_system : string :=
  "You summarize conversations concisely, highlighting key points and topics discussed.".

Definition end_conversation (conversation_id : string)
  : M (Conversation.t datetime) :=
  conv <- db.conversations.find_one (conv_id_is conversation_id) ;;
  match conv with
  | None => raise (HTTPException 404 "Conversation not found")
  | Some conv =>
      if String.eqb (Conversation.status conv) "ended"
      then raise (HTTPException 400 "Conversation already ended")
      else
        msgs <- db.messages.find (in_conversation conversation_id) 1000 ;;
        let conversation_text :=
          join nl (map turn_line (map turn (stable_sort by_timestamp msgs)))
        in
        r <- chat_send_message summary_system
               ("summary_" ++ conversation_id)
               ("Summarize this conversation in 2-3 sentences:" ++ nl ++ nl
                ++ conversation_text) ;;
        let summary :=
          match r with
          | inr text => text
          | inl e => "Error generating summary: " ++ e
          end in
        end_time <- utcnow ;;
        db.conversations.update_one (conv_id_is conversation_id)
          (Conversation.set_ended summary (isoformat end_time)) ;;
        start <- lift (fromisoformat (Conversation.start_time conv)) ;;
        ret (Conversation.set_ended summary end_time
               (Conversation.with_times start None conv))
  end.

Definition query_system : string :=
  "You analyze past conversations and provide insights based on their summaries.".

(** [f"Conversation {i} (Title: {conv['title']}):\n{summary}"]; every
    stored document has the [summary] key, so the default of [conv.get]
    is never taken and an absent summary prints as [None]. *)
Definition context_part (i : nat) (conv : ConversationDoc) : string :=
  let summary :=
    match Conversation.summary conv with
    | Some s => s
    | None => "None"
    end in
  "Conversation " ++ str_of_nat i ++ " (Title: " ++ Conversation.title conv
  ++ "):" ++ nl ++ summary.

(** [enumerate(conversations, i)] mapped to the context parts. *)
Fixpoint context_parts (i : nat) (convs : list ConversationDoc)
  : list string :=
  match convs with
  | [] => []
  | c :: t => context_part i c :: context_parts (S i) t
  end.

Record QueryResponse : Type := mk_query_response {
  answer : string;
  relevant_conversations : list ConversationDoc;
  suggestions : list string
}.

Definition query_conversations (query : string) : M QueryResponse :=
  convs <- db.conversations.find (status_is "ended") 1000 ;;
  match convs with
  | [] =>
      ret (mk_query_response "No past conversations found to analyze."
             [] [])
  | _ =>
      let context := join (nl ++ nl) (context_parts 1 convs) in
      u <- uuid4 ;;
      r <- chat_send_message query_system ("query_" ++ u)
             ("Past conversations:" ++ nl ++ nl ++ context ++ nl ++ nl ++
              "User question: " ++ query ++ nl ++ nl ++
              "Provide a clear answer:") ;;
      let answer :=
        match r with
        | inr text => text
        | inl e => "Error processing query: " ++ e
        end in
      ret (mk_query_response answer (firstn 5 convs) [])
  end.

Definition react_to_message (message_id reaction : string)
  : M (list string) :=
  msg <- db.messages.find_one (msg_id_is message_id) ;;
  match msg with
  | None => raise (HTTPException 404 "Message not found")
  | Some msg =>
      let reactions := toggle_reaction reaction (Message.reactions msg) in
      db.messages.update_one (msg_id_is message_id)
        (Message.set_reactions reactions) ;;
      ret reactions
  end.

Definition bookmark_message (message_id : string) : M bool :=
  msg <- db.messages.find_one (msg_id_is message_id) ;;
  match msg with
  | None => raise (HTTPException 404 "Message not found")
  | Some msg =>
      let bookmarked := negb (Message.bookmarked msg) in
      db.messages.update_one (msg_id_is message_id)
        (Message.set_bookmarked bookmarked) ;;
      ret bookmarked
  end.

(** Returns the share token and the share url. *)
Definition share_conversation (conversation_id : string)
  : M (string * string) :=
  conv <- db.conversations.find_one (conv_id_is conversation_id) ;;
  match conv with
  | None => raise (HTTPException 404 "Conversation not found")
  | Some _ =>
      share_token <- uuid4 ;;
      db.conversations.update_one (conv_id_is conversation_id)
        (Conversation.set_share_token share_token) ;;
      ret (share_token, "/shared/" ++ share_token)
  end.

Definition get_shared_conversation (share_token : string)
  : M (Conversation.t datetime * list (Message.t datetime)) :=
  conv <- db.conversations.find_one (share_token_is share_token) ;;
  match conv with
  | None => raise (HTTPException 404 "Shared conversation not found")
  | Some conv =>
      msgs <- db.messages.find (in_conversation (Conversation.id conv))
                1000 ;;
      msgs <- lift (traverse parse_message msgs) ;;
      let msgs := stable_sort by_parsed_timestamp msgs in
      conv <- lift (parse_conversation conv) ;;
      ret (conv, msgs)
  end.

(** What [export_conversation] answers with: the JSON body, the markdown
    text, or the file written for the PDF. *)
Inductive ExportResponse : Type :=
| JSONExport (conversation : ConversationDoc) (msgs : list MessageDoc)
| MarkdownExport (markdown : string)
| FileExport (path media_type filename : string).

(** A value that is present and not empty. *)
Definition truthy (o : option string) : option string :=
  match o with
  | Some s => if String.eqb s EmptyString then None else Some s
  | None => None
  end.

Definition markdown_message (msg : MessageDoc) : string :=
  let role_icon :=
    if String.eqb (Message.role msg) "user" then "👤" else "🤖" in
  "### " ++ role_icon ++ " " ++ capitalize (Message.role msg) ++ nl ++ nl ++
  Message.content msg ++ nl ++ nl ++
  (if Message.bookmarked msg then "🔖 *Bookmarked*" ++ nl ++ nl else EmptyString) ++
  (match Message.reactions msg with
   | [] => EmptyString
   | rs => "Reactions: " ++ join " " rs ++ nl ++ nl
   end).

Definition markdown_export (conv : ConversationDoc) (msgs : list MessageDoc)
  : string :=
  "# " ++ Conversation.title conv ++ nl ++ nl ++
  "**Started:** " ++ Conversation.start_time conv ++ nl ++
  (match truthy (Conversation.end_time conv) with
   | Some e => "**Ended:** " ++ e ++ nl
   | None => EmptyString
   end) ++
  (match truthy (Conversation.summary conv) with
   | Some s => nl ++ "**Summary:** " ++ s ++ nl
   | None => EmptyString
   end) ++
  nl ++ "---" ++ nl ++ nl ++
  String.concat EmptyString (map markdown_message msgs).

Definition pdf_story (conv : ConversationDoc) (msgs : list MessageDoc)
  : list Flowable :=
  ([Paragraph (Conversation.title conv) "CustomTitle"; Spacer 1 2] ++
   (match truthy (Conversation.summary conv) with
    | Some s => [Paragraph ("<b>Summary:</b> " ++ s) "Normal"; Spacer 1 3]
    | None => []
    end) ++
   flat_map
     (fun msg =>
        [Paragraph ("<b>" ++ capitalize (Message.role msg) ++ ":</b>")
                   "Heading3";
         Paragraph (Message.content msg) "Normal";
         Spacer 1 2])
     msgs)%list.

Definition export_conversation (conversation_id format : string)
  : M ExportResponse :=
  conv <- db.conversations.find_one (conv_id_is conversation_id) ;;
  match conv with
  | None => raise (HTTPException 404 "Conversation not found")
  | Some conv =>
      msgs <- db.messages.find (in_conversation conversation_id) 1000 ;;
      let msgs := stable_sort by_timestamp msgs in
      if String.eqb format "json" then ret (JSONExport conv msgs)
      else if String.eqb format "markdown"
      then ret (MarkdownExport (markdown_export conv msgs))
      else if String.eqb format "pdf" then
        let pdf_path := "/tmp/conversation_" ++ conversation_id ++ ".pdf" in
        match pdf_build pdf_path (pdf_story conv msgs) with
        | Some e => raise (BuildError e)
        | None =>
            ret (FileExport pdf_path "application/pdf"
                   (Conversation.title conv ++ ".pdf"))
        end
      else raise (HTTPException 400 "Invalid export format")
  end.

(** ** Requests and reachable worlds *)

Inductive Request : Type :=
| ListConversations
| GetConversation (conversation_id : string)
| CreateConversation (title : string)
| SendMessage (conversation_id content : string)
| EndConversation (conversation_id : string)
| QueryConversations (query : string)
| ReactToMessage (message_id reaction : string)
| BookmarkMessage (message_id : string)
| ShareConversation (conversation_id : string)
| GetSharedConversation (share_token : string)
| ExportConversation (conversation_id format : string).

(** The world a request leaves behind, whether it returned or raised. *)
Definition handle (r : Request) (w : World) : World :=
  match r with
  | ListConversations => final get_conversations w
  | GetConversation c => final (get_conversation c) w
  | CreateConversation t => final (create_conversation t) w
  | SendMessage c x => final (send_message c x) w
  | EndConversation c => final (end_conversation c) w
  | QueryConversations q => final (query_conversations q) w
  | ReactToMessage m x => final (react_to_message m x) w
  | BookmarkMessage m => final (bookmark_message m) w
  | ShareConversation c => final (share_conversation c) w
  | GetSharedConversation t => final (get_shared_conversation t) w
  | ExportConversation c f => final (export_conversation c f) w
  end.

(** The worlds the handlers can bring about from the empty store. *)
Inductive reachable : World -> Prop :=
| reachable_empty : reachable empty_world
| reachable_step r w : reachable w -> reachable (handle r w).

End Handlers.

(** ** The vocabulary of the specification *)

(** The error kinds of the specification, as the exceptions the handlers
    raise: [NotFound] is a 404, [InvalidState] and [InvalidArgument] are
    the 400s told apart by their detail. *)
Definition NotFound (e : Exn) : Prop :=
  exists detail, e = HTTPException 404 detail.

Definition InvalidState (e : Exn) : Prop :=
  e = HTTPException 400 "Conversation has ended" \/
  e = HTTPException 400 "Conversation already ended".

Definition InvalidArgument (e : Exn) : Prop :=
  e = HTTPException 400 "Invalid export format".

(** The format selectors as the specification lists them, and the formats
    [export_conversation] tests for. *)
Definition spec_selectors : list string := ["json"; "markdown"; "document"].

Definition export_formats : list string := ["json"; "markdown"; "pdf"].

(** The conversation and the message stored under an id: what [find_one]
    and [update_one] address. *)
Definition stored_conversation (w : World) (conversation_id : string)
  : option ConversationDoc :=
  List.find (conv_id_is conversation_id) (conversations w).

Definition stored_message (w : World) (message_id : string)
  : option MessageDoc :=
  List.find (msg_id_is message_id) (messages w).

(** The messages stored for a conversation, and the ended conversations, in
    store order. *)
Definition messages_of (w : World) (conversation_id : string)
  : list MessageDoc :=
  filter (in_conversation conversation_id) (messages w).

Definition ended_conversations (w : World) : list ConversationDoc :=
  filter (status_is "ended") (conversations w).

(** The lifecycle invariant of a stored conversation. *)
Definition lifecycle_ok (c : ConversationDoc) : Prop :=
  Conversation.status c = "ended" <->
  (Conversation.end_time c <> None /\ Conversation.summary c <> None).

(** The three lifecycle fields of the stored conversations. *)
Definition lifecycle (c : ConversationDoc)
  : string * option string * option string :=
  (Conversation.status c, Conversation.summary c, Conversation.end_time c).




(** [l] holds the stored documents [docs], each once and read back by
    [parse], in some order. *)
Definition read_back {A B : Type} (parse : A -> Exn + B) (docs : list A)
  (l : list B) : Prop :=
  exists docs',
    Permutation docs' docs /\
    Forall2 (fun p d => parse d = inr p) l docs'.

(** The output parsing of the suggestion generator as the specification
    words it: split on line breaks, discard blank lines and lines beginning
    with [#], take at most the first three lines left.  A line of
    whitespace counts as blank. *)
Definition spec_parse_suggestions (response : string) : list string :=
  firstn 3
    (filter (fun s => negb (String.eqb (strip s) EmptyString)
                      && negb (startswith s "#"))
            (split (chr 10) response)).

(** The world in which a collection holds only what a read capped at 1000
    returns: the first 1000 conversations that match a query, the first
    1000 messages of a conversation. *)
Definition first_conversations (q : ConversationDoc -> bool) (w : World)
  : World :=
  mk_world (firstn 1000 (filter q (conversations w))) (messages w)
           (llm_calls w) (ticks w).

Definition first_messages (conversation_id : string) (w : World) : World :=
  mk_world (conversations w) (firstn 1000 (messages_of w conversation_id))
           (llm_calls w) (ticks w).

(** What a run shows to the outside: its result and the gateway calls it
    leaves in the log. *)
Definition outcome {A : Type} (m : M A) (w : World)
  : (Exn + A) * list LlmCall :=
  (result m w, llm_calls (final m w)).

(** A stored timestamp that is the text of a valid instant. *)
Definition iso_text (s : string) : Prop :=
  exists d, valid_datetime d /\ s = isoformat d.

Definition message_ok (m : MessageDoc) : Prop :=
  iso_text (Message.timestamp m).

Definition conversation_ok (c : ConversationDoc) : Prop :=
  iso_text (Conversation.start_time c) /\
  forall s, Conversation.end_time c = Some s -> iso_text s.

(** [P] holds of every stored conversation and [Q] of every stored
    message. *)
Definition store_inv (P : ConversationDoc -> Prop) (Q : MessageDoc -> Prop)
  (w : World) : Prop :=
  Forall P (conversations w) /\ Forall Q (messages w).

(** [m] keeps that invariant, and a value it returns satisfies [R]. *)
Definition keeps_inv (P : ConversationDoc -> Prop) (Q : MessageDoc -> Prop)
  {A : Type} (m : M A) (R : A -> Prop) : Prop :=
  forall w, store_inv P Q w ->
    store_inv P Q (snd (m w)) /\ forall a, fst (m w) = inr a -> R a.

(** [m] leaves the reading [f] of the stored conversations as it was. *)
Definition preserves_reading {X : Type} (f : list ConversationDoc -> X)
  {A : Type} (m : M A) : Prop :=
  forall w, f (conversations (snd (m w))) = f (conversations w).

(** ** A sample environment and sample worlds *)

(** A response with padded lines and an indented comment line. *)
Definition sample_response : string :=
  "  What next?  " ++ nl ++ " # not this" ++ nl ++ "Why?".

Definition sample_gateway (log : list LlmCall) (c : LlmCall)
  : string + string :=
  if String.prefix "summary_" (session_id c) then inl "gateway timeout"
  else if String.prefix "suggestions_" (session_id c)
  then inr sample_response
  else inr ("reply to: " ++ prompt c).

Definition sample_env : Env := {|
  uuid4_at := fun n => "id-" ++ str_of_nat n;
  now_at := fun n => mk_datetime 2024 1 1 0 0 0 (N.of_nat n mod 1000000);
  gateway := sample_gateway;
  pdf_build := fun _ _ => None
|}.

(** An environment whose gateway is down. *)
Definition failing_env : Env := {|
  uuid4_at := fun n => "id-" ++ str_of_nat n;
  now_at := fun n => mk_datetime 2024 1 1 0 0 0 (N.of_nat n mod 1000000);
  gateway := fun _ _ => inl "connection refused";
  pdf_build := fun _ _ => None
|}.

(** create "Demo"; send "Hello"; react; end. *)
Definition world1 : World :=
  handle (E := sample_env) (CreateConversation "Demo") empty_world.
Definition world2 : World :=
  handle (E := sample_env) (SendMessage "id-0" "Hello") world1.
Definition world3 : World :=
  handle (E := sample_env) (ReactToMessage "id-2" "+1") world2.
Definition world4 : World :=
  handle (E := sample_env) (EndConversation "id-0") world3.

(** ** Further vocabulary *)

(** The requests that only read the store. *)
Definition is_read (r : Request) : bool :=
  match r with
  | ListConversations | GetConversation _ | QueryConversations _
  | GetSharedConversation _ | ExportConversation _ _ => true
  | _ => false
  end.

(** The world after a sequence of requests, served in order. *)
Definition serve {E : Env} (rs : list Request) (w : World) : World :=
  fold_left (fun w r => handle r w) rs w.

(** The fields of a message and of a conversation that no handler
    rewrites. *)
Definition message_core (m : MessageDoc)
  : string * string * string * string * string :=
  (Message.id m, Message.conversation_id m, Message.role m,
   Message.content m, Message.timestamp m).

Definition conversation_core (c : ConversationDoc)
  : string * string * string :=
  (Conversation.id c, Conversation.title c, Conversation.start_time c).

(** Newest first, by start time. *)
Definition newest_first (l : list (Conversation.t datetime)) : Prop :=
  StronglySorted
    (fun a b =>
       dt_leb (Conversation.start_time b) (Conversation.start_time a) = true)
    l.

(** A computation that leaves both collections as they were. *)
Definition leaves_store {A : Type} (m : M A) : Prop :=
  forall w,
    conversations (snd (m w)) = conversations w /\
    messages (snd (m w)) = messages w.

(** [w'] holds what [w] holds, with the same unrewritten fields and in the
    same order, and at most [nc] more conversations and [nm] more
    messages. *)
Definition extends (nc nm : nat) (w w' : World) : Prop :=
  exists cs ms,
    map conversation_core (conversations w')
      = (map conversation_core (conversations w) ++ cs)%list /\
    map message_core (messages w')
      = (map message_core (messages w) ++ ms)%list /\
    List.length cs <= nc /\ List.length ms <= nm.

Definition adds (nc nm : nat) {A : Type} (m : M A) : Prop :=
  forall w, extends nc nm w (snd (m w)).

(** The demo conversation shared once. *)
Definition world5 : World :=
  handle (E := sample_env) (ShareConversation "id-0") world4.

(** The demo conversation with a thousand stored messages. *)
Definition crowded_world : World :=
  mk_world (conversations world1)
    (repeat (Message.mk "m" "id-0" "user" "old"
               "2024-01-01T00:00:00.000003+00:00" [] false) 1000)
    [] 2.

(** Everything of a stored conversation but its share token. *)
Definition conversation_body (c : ConversationDoc)
  : string * string * string * option string * string * option string :=
  (Conversation.id c, Conversation.title c, Conversation.status c,
   Conversation.summary c, Conversation.start_time c,
   Conversation.end_time c).

(** A clock that never runs backwards. *)
Definition monotone_clock {E : Env} : Prop :=
  forall i j, i <= j -> dt_leb (now_at i) (now_at j) = true.

(** The stored messages carry the clock readings of the draws [ks], taken
    in store order, each before the draw [n]. *)
Definition stamped_by {E : Env} (n : nat) (l : list MessageDoc)
  (ks : list nat) : Prop :=
  Forall2 (fun m k => Message.timestamp m = isoformat (now_at k)) l ks /\
  StronglySorted lt ks /\
  Forall (fun k => k < n) ks.

(** A computation that never takes a draw back. *)
Definition advances {A : Type} (m : M A) : Prop :=
  forall w, ticks w <= ticks (snd (m w)).

(** Store order, on parsed messages: the ids in sequence. *)
Definition ids_of {T : Type} (l : list (Message.t T)) : list string :=
  map Message.id l.

(** [a] was stamped at an earlier draw than [b]. *)
Definition stamped_earlier {E : Env} (a b : MessageDoc) : Prop :=
  exists i j,
    i < j /\
    Message.timestamp a = isoformat (now_at i) /\
    Message.timestamp b = isoformat (now_at j).

(** An environment whose clock counts microseconds and stops at the last
    one of its second: it never runs backwards. *)
Definition steady_env : Env := {|
  uuid4_at := fun n => "id-" ++ str_of_nat n;
  now_at := fun n => mk_datetime 2024 1 1 0 0 0 (N.min (N.of_nat n) 999999);
  gateway := sample_gateway;
  pdf_build := fun _ _ => None
|}.

(** create "Demo"; send "Hello", under the steady clock. *)
Definition steady_world : World :=
  handle (E := steady_env) (SendMessage "id-0" "Hello")
    (handle (E := steady_env) (CreateConversation "Demo") empty_world).

(** * Properties *)

(** ** The model at work *)

Example isoformat_whole_second :
  isoformat (mk_datetime 2024 3 9 7 5 0 0) = "2024-03-09T07:05:00+00:00".
Proof. reflexivity. Qed.

Example isoformat_fraction :
  isoformat (mk_datetime 2024 3 9 7 5 0 1500)
    = "2024-03-09T07:05:00.001500+00:00".
Proof. reflexivity. Qed.

Example fromisoformat_fraction :
  fromisoformat "2024-03-09T07:05:00.001500+00:00"
    = inr (mk_datetime 2024 3 9 7 5 0 1500).
Proof. reflexivity. Qed.

Example fromisoformat_month_13 :
  fromisoformat "2024-13-09T07:05:00+00:00"
    = inl (ValueError
             "Invalid isoformat string: '2024-13-09T07:05:00+00:00'").
Proof. reflexivity. Qed.

Example whole_second_sorts_first :
  String.leb "2024-03-09T07:05:00+00:00" "2024-03-09T07:05:00.001500+00:00"
    = true.
Proof. reflexivity. Qed.

Example split_lines :
  split (chr 10) ("a" ++ nl ++ " b " ++ nl) = ["a"; " b "; EmptyString].
Proof. reflexivity. Qed.

Example strip_both_sides : strip "  b c  " = "b c".
Proof. reflexivity. Qed.

Example parse_suggestions_sample :
  parse_suggestions sample_response = ["What next?"; "Why?"].
Proof. reflexivity. Qed.

Example toggle_moves_to_the_end :
  toggle_reaction "a" (toggle_reaction "a" ["a"; "b"]) = ["b"; "a"].
Proof. reflexivity. Qed.

Example stable_sort_keeps_ties :
  stable_sort (fun a b => fst a <=? fst b) [(2, "x"); (1, "y"); (2, "z")]
    = [(1, "y"); (2, "x"); (2, "z")].
Proof. reflexivity. Qed.

Example demo_has_two_messages :
  map Message.role (messages world2) = ["user"; "assistant"] /\
  map Conversation.status (conversations world2) = ["active"].
Proof. split; reflexivity. Qed.

Example demo_ended :
  map lifecycle (conversations world4)
    = [("ended", Some "Error generating summary: gateway timeout",
        Some "2024-01-01T00:00:00.000006+00:00")].
Proof. reflexivity. Qed.

(** ** The store *)

Lemma find_absent {A : Type} (q : A -> bool) (l : list A) :
  (forall x, In x l -> q x = false) -> List.find q l = None.
Proof.
  induction l as [|x t IH]; intros H; simpl; [reflexivity|].
  rewrite (H x (or_introl eq_refl)). apply IH.
  intros y Hy. apply H. right. exact Hy.
Qed.

Lemma stored_conversation_absent (w : World) (cid : string) :
  (forall c, In c (conversations w) -> Conversation.id c <> cid) ->
  stored_conversation w cid = None.
Proof.
  intros H. apply find_absent. intros c Hc. unfold conv_id_is.
  apply String.eqb_neq. auto.
Qed.

Lemma update_first_find {A : Type} (q : A -> bool) (f : A -> A) (l : list A) :
  (forall x, q (f x) = q x) ->
  List.find q (update_first q f l) = option_map f (List.find q l).
Proof.
  intros Hq. induction l as [|x t IH]; simpl; [reflexivity|].
  destruct (q x) eqn:Hx; simpl.
  - rewrite Hq, Hx. reflexivity.
  - rewrite Hx. exact IH.
Qed.

Lemma update_first_Forall {A : Type} (P : A -> Prop) (q : A -> bool)
  (f : A -> A) (l : list A) :
  (forall x, In x l -> P x -> P (f x)) -> Forall P l ->
  Forall P (update_first q f l).
Proof.
  induction l as [|x t IH]; intros Hf H; simpl; [constructor|].
  inversion H as [|? ? Hx Ht]; subst.
  destruct (q x).
  - constructor; [apply Hf; simpl; auto | exact Ht].
  - constructor; [exact Hx|]. apply IH; [|exact Ht].
    intros y Hy. apply Hf. right. exact Hy.
Qed.

Lemma update_first_map {A B : Type} (g : A -> B) (q : A -> bool)
  (f : A -> A) (l : list A) :
  (forall x, g (f x) = g x) -> map g (update_first q f l) = map g l.
Proof.
  intros H. induction l as [|x t IH]; simpl; [reflexivity|].
  destruct (q x); simpl; [rewrite H | rewrite IH]; reflexivity.
Qed.

(** Unfolds a run of a handler down to the store. *)
Ltac unfold_run :=
  unfold outcome, result, final, bind, ret, raise, lift,
    db.conversations.find_one, db.conversations.find,
    db.conversations.insert_one, db.conversations.update_one,
    db.messages.find_one, db.messages.find, db.messages.insert_one,
    db.messages.update_one, uuid4, utcnow, chat_send_message,
    first_messages, first_conversations, messages_of;
  cbn [fst snd conversations messages llm_calls ticks].

(** ** Sorting and reading *)

Section SortFacts.
Context {A : Type} (le : A -> A -> bool).

Lemma insert_sorted_perm (x : A) (l : list A) :
  Permutation (insert_sorted le x l) (x :: l).
Proof.
  induction l as [|y t IH]; simpl; [reflexivity|].
  destruct (le x y); [reflexivity|].
  rewrite IH. apply perm_swap.
Qed.

Lemma stable_sort_perm (l : list A) : Permutation (stable_sort le l) l.
Proof.
  induction l as [|x t IH]; simpl; [reflexivity|].
  rewrite insert_sorted_perm, IH. reflexivity.
Qed.

Lemma stable_sort_length (l : list A) :
  List.length (stable_sort le l) = List.length l.
Proof. apply Permutation_length, stable_sort_perm. Qed.

(** Sortedness needs the order to be total and transitive on the
    elements of the list only. *)
Variable ok : A -> Prop.
Hypothesis le_total : forall x y, ok x -> ok y ->
  le x y = true \/ le y x = true.
Hypothesis le_trans : forall x y z, ok x -> ok y -> ok z ->
  le x y = true -> le y z = true -> le x z = true.

Lemma insert_sorted_sorted (x : A) (l : list A) :
  ok x -> Forall ok l ->
  StronglySorted (fun a b => le a b = true) l ->
  StronglySorted (fun a b => le a b = true) (insert_sorted le x l).
Proof.
  intros Hx Hok Hs. induction Hs as [|y t Hs IH Hy]; simpl.
  - constructor; constructor.
  - inversion Hok as [|? ? Hoky Hokt]; subst.
    destruct (le x y) eqn:Hxy.
    + constructor; [constructor; assumption|].
      constructor; [exact Hxy|].
      rewrite Forall_forall in *. intros z Hz.
      apply (le_trans x y z); auto.
    + constructor; [apply IH, Hokt|].
      rewrite (insert_sorted_perm x t). constructor; [|exact Hy].
      destruct (le_total x y Hx Hoky); congruence.
Qed.

Lemma stable_sort_sorted (l : list A) :
  Forall ok l ->
  StronglySorted (fun a b => le a b = true) (stable_sort le l).
Proof.
  induction l as [|x t IH]; simpl; intros Hok; [constructor|].
  inversion Hok; subst.
  apply insert_sorted_sorted; auto.
  rewrite stable_sort_perm. assumption.
Qed.
End SortFacts.

Lemma traverse_length {A B : Type} (f : A -> Exn + B) (l : list A)
  (l' : list B) :
  traverse f l = inr l' -> List.length l' = List.length l.
Proof.
  revert l'. induction l as [|x t IH]; simpl; intros l' H.
  - injection H as <-. reflexivity.
  - destruct (f x); [discriminate|].
    destruct (traverse f t); [discriminate|].
    injection H as <-. simpl. rewrite (IH _ eq_refl). reflexivity.
Qed.

Lemma traverse_Forall2 {A B : Type} (f : A -> Exn + B) (l : list A)
  (l' : list B) :
  traverse f l = inr l' -> Forall2 (fun y x => f x = inr y) l' l.
Proof.
  revert l'. induction l as [|x t IH]; cbn [traverse]; intros l' H.
  - injection H as <-. constructor.
  - destruct (f x) as [e|y] eqn:Hx; [discriminate|].
    destruct (traverse f t) as [e|ys]; [discriminate|].
    injection H as <-. constructor; [exact Hx | apply IH; reflexivity].
Qed.

(** What is parsed and then sorted is what was read, parsed. *)
Lemma sorted_read_back {A B : Type} (parse : A -> Exn + B)
  (le : B -> B -> bool) (docs : list A) (parsed : list B) :
  traverse parse docs = inr parsed ->
  read_back parse docs (stable_sort le parsed).
Proof.
  intros Ht. apply traverse_Forall2 in Ht.
  destruct (Permutation_Forall2
              (Permutation_sym (stable_sort_perm le parsed)) Ht)
    as (docs' & Hp & H2).
  exists docs'. split; [apply Permutation_sym, Hp | exact H2].
Qed.

Lemma firstn_incl {A : Type} (n : nat) (l : list A) (x : A) :
  In x (firstn n l) -> In x l.
Proof.
  revert l. induction n as [|n IH]; intros l; simpl; [tauto|].
  destruct l as [|y t]; simpl; [tauto|]. intros [H|H]; auto.
Qed.

Lemma filter_firstn_filter {A : Type} (q : A -> bool) (n : nat)
  (l : list A) :
  filter q (firstn n (filter q l)) = firstn n (filter q l).
Proof.
  apply forallb_filter_id. apply forallb_forall. intros x Hx.
  apply firstn_incl in Hx. apply filter_In in Hx. apply Hx.
Qed.

Lemma firstn_app_firstn {A : Type} (n : nat) (l x : list A) :
  firstn n (firstn n l ++ x) = firstn n (l ++ x).
Proof.
  revert l. induction n as [|n IH]; intros l; [reflexivity|].
  destruct l as [|y t]; [reflexivity|]. simpl. rewrite IH. reflexivity.
Qed.

(** ** Timestamps as text *)

Lemma N_add_compare_l (p n m : N) : (p + n ?= p + m)%N = (n ?= m)%N.
Proof.
  destruct (N.compare_spec n m) as [->|H|H].
  - apply N.compare_refl.
  - apply N.compare_lt_iff. lia.
  - apply N.compare_gt_iff. lia.
Qed.

Lemma split_digit (w : nat) (n : N) :
  (n < 10 ^ N.of_nat (S w))%N ->
  let p := (10 ^ N.of_nat w)%N in
  ((n / p) < 10 /\ n mod p < p /\ n = p * (n / p) + n mod p)%N.
Proof.
  intros H p. rewrite Nat2N.inj_succ, N.pow_succ_r' in H. fold p in H.
  assert (Hp : p <> 0%N) by (apply N.pow_nonzero; discriminate).
  split; [|split].
  - apply N.Div0.div_lt_upper_bound. rewrite N.mul_comm. exact H.
  - apply N.mod_lt, Hp.
  - apply N.div_mod, Hp.
Qed.

Lemma digit_code (q : N) :
  (q < 10)%N -> N_of_ascii (ascii_of_N (48 + q mod 10)) = (48 + q)%N.
Proof.
  intros H. rewrite N.mod_small by exact H.
  apply N_ascii_embedding. lia.
Qed.

Lemma digit_val_digit (q : N) :
  (q < 10)%N -> digit_val (ascii_of_N (48 + q mod 10)) = Some q.
Proof.
  intros H. unfold digit_val. rewrite digit_code by exact H.
  replace ((48 <=? 48 + q)%N) with true by (symmetry; apply N.leb_le; lia).
  replace ((48 + q <=? 57)%N) with true by (symmetry; apply N.leb_le; lia).
  cbn [andb]. f_equal. lia.
Qed.

Lemma parse_pad (w : nat) (n acc : N) (rest : string) :
  (n < 10 ^ N.of_nat w)%N ->
  parse_digits w acc (pad w n ++ rest)
    = Some ((acc * 10 ^ N.of_nat w + n)%N, rest).
Proof.
  revert n acc. induction w as [|w IH]; intros n acc H.
  - cbn in *. f_equal. f_equal. lia.
  - destruct (split_digit w n H) as (Hq & Hr & Hn).
    cbn [pad parse_digits String.append].
    rewrite digit_val_digit by exact Hq.
    rewrite IH by exact Hr.
    rewrite Nat2N.inj_succ, N.pow_succ_r'. f_equal. f_equal.
    set (p := (10 ^ N.of_nat w)%N) in *. lia.
Qed.

Lemma compare_pad (w : nat) (n m : N) (r1 r2 : string) :
  (n < 10 ^ N.of_nat w)%N -> (m < 10 ^ N.of_nat w)%N ->
  String.compare (pad w n ++ r1) (pad w m ++ r2)
    = lex (n ?= m)%N (String.compare r1 r2).
Proof.
  revert n m. induction w as [|w IH]; intros n m Hn Hm.
  - cbn in Hn, Hm. assert (n = 0%N) by lia. assert (m = 0%N) by lia.
    subst. reflexivity.
  - destruct (split_digit w n Hn) as (Hq1 & Hr1 & He1).
    destruct (split_digit w m Hm) as (Hq2 & Hr2 & He2).
    cbn [pad String.append String.compare]. unfold Ascii.compare.
    rewrite !digit_code by assumption.
    rewrite N_add_compare_l, IH by assumption.
    set (p := (10 ^ N.of_nat w)%N) in *.
    set (q1 := (n / p)%N) in *. set (q2 := (m / p)%N) in *.
    set (x1 := (n mod p)%N) in *. set (x2 := (m mod p)%N) in *.
    destruct (N.compare_spec q1 q2) as [Heq|Hlt|Hgt].
    + replace (n ?= m)%N with (x1 ?= x2)%N; [reflexivity|].
      rewrite He1, He2, Heq. symmetry. apply N_add_compare_l.
    + assert (Hnm : (n < m)%N) by nia.
      apply N.compare_lt_iff in Hnm. rewrite Hnm. reflexivity.
    + assert (Hnm : (m < n)%N) by nia.
      apply N.compare_gt_iff in Hnm. rewrite Hnm. reflexivity.
Qed.

Lemma parse_pad0 (w : nat) (n : N) (rest : string) :
  (n < 10 ^ N.of_nat w)%N ->
  parse_digits w 0 (pad w n ++ rest) = Some (n, rest).
Proof. intros H. rewrite parse_pad by exact H. reflexivity. Qed.

Lemma compare_same_head (c : ascii) (r1 r2 : string) :
  String.compare (String c r1) (String c r2) = String.compare r1 r2.
Proof.
  cbn [String.compare]. unfold Ascii.compare. rewrite N.compare_refl.
  reflexivity.
Qed.

Lemma lex_Eq_r (c : comparison) : lex c Eq = c.
Proof. destruct c; reflexivity. Qed.

Lemma valid_datetimeb_true (d : datetime) :
  valid_datetime d -> valid_datetimeb d = true.
Proof.
  unfold valid_datetime, valid_datetimeb. intros H.
  repeat (apply andb_true_intro; split);
    first [apply N.leb_le | apply N.ltb_lt]; lia.
Qed.

Lemma isoformat_unfold (d : datetime) :
  isoformat d
  = pad 4 (year d) ++ String "-" (pad 2 (month d) ++ String "-"
      (pad 2 (day d) ++ String "T" (pad 2 (hour d) ++ String ":"
         (pad 2 (minute d) ++ String ":" (pad 2 (second d) ++
            iso_tail (microsecond d)))))).
Proof. reflexivity. Qed.

Lemma parse_tail (us : N) (y mo d h mi se : N) :
  (us < 1000000)%N ->
  match expect "." (iso_tail us) with
  | Some s =>
      obind (parse_digits 6 0 s) (fun '(us, s) =>
      if String.eqb s "+00:00"
      then Some (mk_datetime y mo d h mi se us) else None)
  | None =>
      if String.eqb (iso_tail us) "+00:00"
      then Some (mk_datetime y mo d h mi se 0) else None
  end = Some (mk_datetime y mo d h mi se us).
Proof.
  intros H. unfold iso_tail. destruct (N.eqb_spec us 0) as [->|Hne].
  - reflexivity.
  - cbn [String.append expect Ascii.eqb Bool.eqb].
    replace (pad 6 us ++ "+00:00") with (pad 6 us ++ "+00:00" ++ EmptyString)
      by reflexivity.
    rewrite parse_pad0 by exact H. reflexivity.
Qed.

Lemma isoformat_roundtrip (d : datetime) :
  valid_datetime d -> fromisoformat (isoformat d) = inr d.
Proof.
  intros Hv. pose proof (valid_datetimeb_true d Hv) as Hb.
  unfold valid_datetime in Hv. unfold fromisoformat, parse_iso.
  rewrite isoformat_unfold.
  rewrite (parse_pad0 4) by (change (10 ^ N.of_nat 4)%N with 10000%N; lia).
  cbn [obind expect Ascii.eqb Bool.eqb].
  repeat (rewrite (parse_pad0 2)
            by (change (10 ^ N.of_nat 2)%N with 100%N; lia);
          cbn [obind expect Ascii.eqb Bool.eqb]).
  rewrite parse_tail by lia.
  destruct d. cbn in *. rewrite Hb. reflexivity.
Qed.

Lemma compare_tail (u1 u2 : N) :
  (u1 < 1000000)%N -> (u2 < 1000000)%N ->
  String.compare (iso_tail u1) (iso_tail u2) = (u1 ?= u2)%N.
Proof.
  intros H1 H2. unfold iso_tail.
  destruct (N.eqb_spec u1 0) as [->|Hn1];
    destruct (N.eqb_spec u2 0) as [->|Hn2].
  - reflexivity.
  - cbn [String.append]. symmetry.
    replace (String.compare "+00:00" (String "." (pad 6 u2 ++ "+00:00")))
      with Lt by reflexivity.
    apply N.compare_lt_iff. lia.
  - cbn [String.append]. symmetry.
    replace (String.compare (String "." (pad 6 u1 ++ "+00:00")) "+00:00")
      with Gt by reflexivity.
    apply N.compare_gt_iff. lia.
  - cbn [String.append]. rewrite compare_same_head.
    rewrite compare_pad by assumption.
    replace (String.compare "+00:00" "+00:00") with Eq by reflexivity.
    apply lex_Eq_r.
Qed.

(** On the texts of valid timestamps the order of strings is the order of
    instants. *)
Lemma isoformat_compare (a b : datetime) :
  valid_datetime a -> valid_datetime b ->
  String.compare (isoformat a) (isoformat b) = dt_compare a b.
Proof.
  unfold valid_datetime. intros Ha Hb.
  rewrite !isoformat_unfold. unfold dt_compare, fields.
  cbn [list_compare].
  rewrite (compare_pad 4)
    by (change (10 ^ N.of_nat 4)%N with 10000%N; lia).
  rewrite compare_same_head.
  repeat (rewrite (compare_pad 2)
            by (change (10 ^ N.of_nat 2)%N with 100%N; lia);
          try rewrite compare_same_head).
  rewrite compare_tail by lia. rewrite lex_Eq_r. reflexivity.
Qed.

(** ** Invariants of the store

    A property [P] of every stored conversation and [Q] of every stored
    message holds in all reachable worlds as soon as the documents the
    handlers insert have it and the updates the handlers make keep it.
    [V] is what is known of the clock's readings. *)

Section Invariants.
Context {E : Env}.
Variable V : datetime -> Prop.
Variable P : ConversationDoc -> Prop.
Variable Q : MessageDoc -> Prop.

Hypothesis clock_V : forall n, V (now_at n).
Hypothesis P_new : forall id title d,
  V d -> P (Conversation.mk id title "active" None (isoformat d) None None).
Hypothesis P_ended : forall s d c,
  V d -> P c -> P (Conversation.set_ended s (isoformat d) c).
Hypothesis P_share : forall tok c,
  P c -> P (Conversation.set_share_token tok c).
Hypothesis Q_new : forall id cid role content d,
  V d -> Q (Message.mk id cid role content (isoformat d) [] false).
Hypothesis Q_react : forall r m m',
  Q m -> Q m' ->
  Q (Message.set_reactions (toggle_reaction r (Message.reactions m)) m').
Hypothesis Q_bookmark : forall b m, Q m -> Q (Message.set_bookmarked b m).

Local Abbreviation inv := (store_inv P Q).
Local Abbreviation keeps := (keeps_inv P Q).

Lemma keeps_ret {A : Type} (a : A) (R : A -> Prop) :
  R a -> keeps (ret a) R.
Proof.
  intros HR w Hw. split; [exact Hw|].
  intros a' H. cbn in H. injection H as <-. exact HR.
Qed.

Lemma keeps_raise {A : Type} (e : Exn) (R : A -> Prop) :
  keeps (raise e) R.
Proof. intros w Hw. split; [exact Hw|]. intros a H. discriminate H. Qed.

Lemma keeps_lift {A : Type} (r : Exn + A) :
  keeps (lift r) (fun a => r = inr a).
Proof. intros w Hw. split; [exact Hw|]. intros a H. exact H. Qed.

Lemma keeps_bind {A B : Type} (m : M A) (k : A -> M B)
  (R : A -> Prop) (R' : B -> Prop) :
  keeps m R -> (forall a, R a -> keeps (k a) R') -> keeps (bind m k) R'.
Proof.
  intros Hm Hk w Hw. unfold bind.
  destruct (Hm w Hw) as [Hinv Hres].
  destruct (m w) as [[e|a] w']; cbn in *.
  - split; [exact Hinv|]. intros b H. discriminate H.
  - apply (Hk a (Hres a eq_refl) w' Hinv).
Qed.

Lemma keeps_find_one_conversation (q : ConversationDoc -> bool) :
  keeps (db.conversations.find_one q)
    (fun o => forall c, o = Some c -> P c).
Proof.
  intros w Hw. split; [exact Hw|]. intros o H c Hc. cbn in H.
  injection H as <-. apply List.find_some in Hc.
  destruct Hw as [HP _]. rewrite Forall_forall in HP. apply HP, Hc.
Qed.

Lemma keeps_find_conversations (q : ConversationDoc -> bool) (n : nat) :
  keeps (db.conversations.find q n) (fun _ => True).
Proof. intros w Hw. split; [exact Hw|]. intros; exact I. Qed.

Lemma keeps_find_one_message (q : MessageDoc -> bool) :
  keeps (db.messages.find_one q) (fun o => forall m, o = Some m -> Q m).
Proof.
  intros w Hw. split; [exact Hw|]. intros o H m Hm. cbn in H.
  injection H as <-. apply List.find_some in Hm.
  destruct Hw as [_ HQ]. rewrite Forall_forall in HQ. apply HQ, Hm.
Qed.

Lemma keeps_find_messages (q : MessageDoc -> bool) (n : nat) :
  keeps (db.messages.find q n) (fun _ => True).
Proof. intros w Hw. split; [exact Hw|]. intros; exact I. Qed.

Lemma keeps_insert_conversation (d : ConversationDoc) :
  P d -> keeps (db.conversations.insert_one d) (fun _ => True).
Proof.
  intros Hd w [HP HQ]. split; [|intros; exact I].
  split; cbn; [|exact HQ]. apply Forall_app. split; [exact HP|].
  constructor; [exact Hd | constructor].
Qed.

Lemma keeps_insert_message (d : MessageDoc) :
  Q d -> keeps (db.messages.insert_one d) (fun _ => True).
Proof.
  intros Hd w [HP HQ]. split; [|intros; exact I].
  split; cbn; [exact HP|]. apply Forall_app. split; [exact HQ|].
  constructor; [exact Hd | constructor].
Qed.

Lemma keeps_update_conversation (q : ConversationDoc -> bool)
  (f : ConversationDoc -> ConversationDoc) :
  (forall c, P c -> P (f c)) ->
  keeps (db.conversations.update_one q f) (fun _ => True).
Proof.
  intros Hf w [HP HQ]. split; [|intros; exact I].
  split; cbn; [|exact HQ]. apply update_first_Forall; auto.
Qed.

Lemma keeps_update_message (q : MessageDoc -> bool)
  (f : MessageDoc -> MessageDoc) :
  (forall m, Q m -> Q (f m)) ->
  keeps (db.messages.update_one q f) (fun _ => True).
Proof.
  intros Hf w [HP HQ]. split; [|intros; exact I].
  split; cbn; [exact HP|]. apply update_first_Forall; auto.
Qed.

Lemma keeps_uuid4 : keeps uuid4 (fun _ => True).
Proof. intros w Hw. split; [exact Hw|]. intros; exact I. Qed.

Lemma keeps_utcnow : keeps utcnow V.
Proof.
  intros w Hw. split; [exact Hw|]. intros d H. cbn in H.
  injection H as <-. apply clock_V.
Qed.

Lemma keeps_chat_send_message (system session text : string) :
  keeps (chat_send_message system session text) (fun _ => True).
Proof. intros w Hw. split; [exact Hw|]. intros; exact I. Qed.

Ltac keep_step :=
  first
    [ apply keeps_ret
    | apply keeps_raise
    | eapply keeps_bind;
      [ first
          [ apply keeps_find_one_conversation
          | apply keeps_find_conversations
          | apply keeps_find_one_message
          | apply keeps_find_messages
          | apply keeps_uuid4
          | apply keeps_utcnow
          | apply keeps_chat_send_message
          | apply keeps_lift ]
      | intros ] ].

Lemma keeps_new_message (cid role content : string) :
  keeps (new_message cid role content)
    (fun m => Q (Message.with_timestamp
                   (isoformat (Message.timestamp m)) m)).
Proof.
  unfold new_message. do 2 keep_step. keep_step.
  apply Q_new. assumption.
Qed.

Lemma keeps_call_llm (msgs : list (string * string)) (cid : string) :
  keeps (call_llm msgs cid) (fun _ => True).
Proof.
  unfold call_llm. keep_step. destruct a; keep_step; exact I.
Qed.

Lemma keeps_generate_suggestions (history : list (string * string)) :
  keeps (generate_suggestions history) (fun _ => True).
Proof.
  unfold generate_suggestions. destruct history as [|h t].
  - keep_step. exact I.
  - do 2 keep_step. destruct a0; keep_step; exact I.
Qed.

Lemma keeps_handlers (r : Request) (w : World) : inv w -> inv (handle r w).
Proof.
  intros Hw.
  assert (Hall : forall A (m : M A), keeps m (fun _ => True) ->
                                     inv (final m w))
    by (intros A m Hm; apply (Hm w Hw)).
  destruct r; cbn [handle]; apply Hall.
  - unfold get_conversations. do 2 keep_step. keep_step. exact I.
  - unfold get_conversation. keep_step. destruct a; [|keep_step].
    do 3 keep_step.
    eapply keeps_bind; [|intros; keep_step; exact I].
    match goal with |- keeps (if ?b then _ else _) _ => destruct b end.
    + apply keeps_generate_suggestions.
    + keep_step. exact I.
  - unfold create_conversation.
    eapply keeps_bind with
      (R := fun c => P (Conversation.with_times
                          (isoformat (Conversation.start_time c)) None c)).
    + unfold new_conversation. do 2 keep_step. keep_step.
      apply P_new. assumption.
    + intros c Hc. eapply keeps_bind;
        [apply keeps_insert_conversation, Hc|]. intros. keep_step. exact I.
  - unfold send_message. keep_step. destruct a; [|keep_step].
    match goal with |- keeps (if ?b then _ else _) _ => destruct b end;
      [keep_step|].
    eapply keeps_bind; [apply keeps_new_message|]. intros u Hu.
    eapply keeps_bind; [apply keeps_insert_message, Hu|]. intros _ _.
    keep_step.
    eapply keeps_bind; [apply keeps_call_llm|]. intros ai _.
    eapply keeps_bind; [apply keeps_new_message|]. intros a' Ha'.
    eapply keeps_bind; [apply keeps_insert_message, Ha'|]. intros.
    keep_step. exact I.
  - unfold end_conversation. keep_step. destruct a; [|keep_step].
    match goal with |- keeps (if ?b then _ else _) _ => destruct b end;
      [keep_step|].
    do 3 keep_step.
    eapply keeps_bind;
      [apply keeps_update_conversation; intros; apply P_ended; assumption|].
    intros. keep_step. keep_step. exact I.
  - unfold query_conversations. keep_step. destruct a.
    + keep_step. exact I.
    + do 2 keep_step. keep_step. exact I.
  - unfold react_to_message. keep_step.
    destruct a as [msg|]; [|keep_step].
    eapply keeps_bind;
      [apply keeps_update_message; intros; apply Q_react; auto|].
    intros. keep_step. exact I.
  - unfold bookmark_message. keep_step.
    destruct a as [msg|]; [|keep_step].
    eapply keeps_bind;
      [apply keeps_update_message; intros; apply Q_bookmark; auto|].
    intros. keep_step. exact I.
  - unfold share_conversation. keep_step. destruct a; [|keep_step].
    keep_step.
    eapply keeps_bind;
      [apply keeps_update_conversation; intros; apply P_share; auto|].
    intros. keep_step. exact I.
  - unfold get_shared_conversation. keep_step. destruct a; [|keep_step].
    do 3 keep_step. keep_step. exact I.
  - unfold export_conversation. keep_step. destruct a; [|keep_step].
    keep_step.
    repeat match goal with
           | |- keeps (if ?b then _ else _) _ => destruct b
           | |- keeps (match ?o with Some _ => _ | None => _ end) _ =>
               destruct o
           end; keep_step; exact I.
Qed.

Theorem reachable_inv (w : World) : reachable w -> inv w.
Proof.
  induction 1 as [|r w Hr IH].
  - split; constructor.
  - apply keeps_handlers, IH.
Qed.
End Invariants.

(** ** The order of timestamps *)

Lemma list_compare_antisym (a b : list N) :
  list_compare a b = CompOpp (list_compare b a).
Proof.
  revert b. induction a as [|x a IH]; destruct b as [|y b]; try reflexivity.
  cbn [list_compare]. rewrite (N.compare_antisym y x), IH.
  destruct (y ?= x)%N; reflexivity.
Qed.

Lemma list_compare_trans (a b c : list N) :
  list_compare a b <> Gt -> list_compare b c <> Gt ->
  list_compare a c <> Gt.
Proof.
  revert b c. induction a as [|x a IH]; intros [|y b] [|z c];
    cbn [list_compare]; try congruence.
  destruct (N.compare_spec x y) as [->|Hxy|Hxy]; cbn [lex]; try congruence.
  - destruct (N.compare_spec y z) as [->|Hyz|Hyz]; cbn [lex];
      try congruence. apply IH.
  - intros _. destruct (N.compare_spec y z) as [->|Hyz|Hyz]; cbn [lex];
      try congruence; intros _.
    + apply N.compare_lt_iff in Hxy. rewrite Hxy. discriminate.
    + assert (H : (x < z)%N) by lia.
      apply N.compare_lt_iff in H. rewrite H. discriminate.
Qed.

Lemma dt_leb_total (a b : datetime) :
  dt_leb a b = true \/ dt_leb b a = true.
Proof.
  unfold dt_leb, dt_compare.
  rewrite (list_compare_antisym (fields b) (fields a)).
  destruct (list_compare (fields a) (fields b)); cbn; auto.
Qed.

Lemma dt_leb_trans (a b c : datetime) :
  dt_leb a b = true -> dt_leb b c = true -> dt_leb a c = true.
Proof.
  unfold dt_leb, dt_compare. intros H1 H2.
  pose proof (list_compare_trans (fields a) (fields b) (fields c)) as H.
  destruct (list_compare (fields a) (fields b)); try discriminate;
    destruct (list_compare (fields b) (fields c)); try discriminate;
    destruct (list_compare (fields a) (fields c)); try reflexivity;
    exfalso; apply H; congruence.
Qed.


Lemma by_timestamp_iso (a b : MessageDoc) (da db : datetime) :
  valid_datetime da -> valid_datetime db ->
  Message.timestamp a = isoformat da -> Message.timestamp b = isoformat db ->
  by_timestamp a b = dt_leb da db.
Proof.
  intros Ha Hb Ea Eb. unfold by_timestamp, String.leb, dt_leb.
  rewrite Ea, Eb, isoformat_compare by assumption. reflexivity.
Qed.



Lemma timestamps_ok_reachable (E : Env) (w : World) :
  (forall n, valid_datetime (now_at n)) ->
  reachable w ->
  Forall conversation_ok (conversations w) /\
  Forall message_ok (messages w).
Proof.
  intros Hclock Hr.
  refine (reachable_inv valid_datetime conversation_ok message_ok
            Hclock _ _ _ _ _ _ w Hr).
  - intros id title d Hd. split; [exists d; auto | discriminate].
  - intros s d c Hd [Hst Hend]. split; [exact Hst|].
    cbn. intros s' H. injection H as <-. exists d. auto.
  - intros tok c Hc. exact Hc.
  - intros id cid role content d Hd. exists d. auto.
  - intros r m m' _ Hm'. exact Hm'.
  - intros b m Hm. exact Hm.
Qed.

Lemma traverse_total {A B : Type} (f : A -> Exn + B) (l : list A) :
  Forall (fun x => exists y, f x = inr y) l ->
  exists l', traverse f l = inr l'.
Proof.
  induction 1 as [|x t [y Hy] Ht [l' IH]]; simpl.
  - exists []. reflexivity.
  - rewrite Hy, IH. eexists. reflexivity.
Qed.


Lemma parse_conversation_ok (c : ConversationDoc) :
  conversation_ok c -> exists c', parse_conversation c = inr c'.
Proof.
  intros [(d & Hv & Ed) Hend]. unfold parse_conversation.
  rewrite Ed, isoformat_roundtrip by exact Hv.
  destruct (Conversation.end_time c) as [s|]; [|eexists; reflexivity].
  destruct (Hend s eq_refl) as (d' & Hv' & Ed').
  rewrite Ed', isoformat_roundtrip by exact Hv'. eexists. reflexivity.
Qed.



(** ** Ending a conversation *)

Lemma conv_id_is_set_ended (cid s e : string) (c : ConversationDoc) :
  conv_id_is cid (Conversation.set_ended s e c) = conv_id_is cid c.
Proof. reflexivity. Qed.

Lemma end_conversation_ended
  (E : Env) (conversation_id : string) (w : World) (doc : ConversationDoc) :
  stored_conversation w conversation_id = Some doc ->
  Conversation.status doc = "ended" ->
  end_conversation conversation_id w
    = (inl (HTTPException 400 "Conversation already ended"), w).
Proof.
  intros Hfind Hst. unfold end_conversation, bind, db.conversations.find_one.
  unfold stored_conversation in Hfind. rewrite Hfind, Hst. reflexivity.
Qed.

(** What a successful [end_conversation] leaves in the store. *)
Lemma end_conversation_returns
  (E : Env) (conversation_id : string) (w w1 : World)
  (conv : Conversation.t datetime) :
  end_conversation conversation_id w = (inr conv, w1) ->
  exists doc s e,
    stored_conversation w conversation_id = Some doc /\
    Conversation.status doc <> "ended" /\
    Conversation.summary conv = Some s /\
    Conversation.end_time conv = Some e /\
    Conversation.status conv = "ended" /\
    conversations w1
      = update_first (conv_id_is conversation_id)
          (Conversation.set_ended s (isoformat e)) (conversations w) /\
    messages w1 = messages w.
Proof.
  unfold end_conversation, bind, db.conversations.find_one,
    db.messages.find, chat_send_message, utcnow, db.conversations.update_one,
    lift, ret, raise, stored_conversation.
  destruct (List.find (conv_id_is conversation_id) (conversations w))
    as [doc|] eqn:Hfind; [|discriminate].
  destruct (String.eqb (Conversation.status doc) "ended") eqn:Hst;
    [discriminate|].
  cbn [fst snd conversations messages llm_calls ticks].
  destruct (fromisoformat (Conversation.start_time doc)) as [err|st];
    [discriminate|].
  intros H. injection H as Hconv Hw. subst conv w1.
  eexists doc, _, _. cbn.
  repeat split; try reflexivity.
  apply String.eqb_neq. exact Hst.
Qed.

(** ** The lifecycle of a conversation *)

(** A reading [f] of the stored conversations that a computation leaves
    as it was. *)
Section Frame.
Context {E : Env} {X : Type}.
Variable f : list ConversationDoc -> X.

Local Abbreviation preserves := (preserves_reading f).

Lemma preserves_bind {A B : Type} (m : M A) (k : A -> M B) :
  preserves m -> (forall a, preserves (k a)) -> preserves (bind m k).
Proof.
  intros Hm Hk w. unfold bind. specialize (Hm w).
  destruct (m w) as [[e|a] w']; cbn in *; [exact Hm|].
  rewrite Hk. exact Hm.
Qed.

Lemma preserves_same {A : Type} (m : M A) :
  (forall w, conversations (snd (m w)) = conversations w) -> preserves m.
Proof. intros H w. rewrite H. reflexivity. Qed.

Lemma preserves_update (q : ConversationDoc -> bool)
  (g : ConversationDoc -> ConversationDoc) :
  (forall l, f (update_first q g l) = f l) ->
  preserves (db.conversations.update_one q g).
Proof. intros H w. cbn. apply H. Qed.

Ltac frame_step :=
  first
    [ apply preserves_bind; [|intros]
    | apply preserves_same; intros; reflexivity
    | match goal with
      | |- preserves (if ?b then _ else _) => destruct b
      | |- preserves (match ?o with Some _ => _ | None => _ end) =>
          destruct o
      | |- preserves (match ?o with inl _ => _ | inr _ => _ end) =>
          destruct o
      | |- preserves (match ?o with [] => _ | _ :: _ => _ end) =>
          destruct o
      end ].

Lemma preserves_handlers (r : Request) :
  (forall cid, r <> EndConversation cid) ->
  (forall title, r <> CreateConversation title) ->
  (forall tok q l,
     f (update_first q (Conversation.set_share_token tok) l) = f l) ->
  forall w, f (conversations (handle r w)) = f (conversations w).
Proof.
  intros Hend Hcreate Hshare.
  destruct r; cbn [handle];
    try (exfalso; eapply Hend; reflexivity);
    try (exfalso; eapply Hcreate; reflexivity);
    match goal with
    | |- forall w, _ (conversations (final ?m w)) = _ =>
        change (preserves m)
    end.
  - unfold get_conversations. repeat frame_step.
  - unfold get_conversation, generate_suggestions. repeat frame_step.
  - unfold send_message, new_message, call_llm. repeat frame_step.
  - unfold query_conversations. repeat frame_step.
  - unfold react_to_message. repeat frame_step.
  - unfold bookmark_message. repeat frame_step.
  - unfold share_conversation. repeat frame_step.
    apply preserves_update. apply Hshare.
  - unfold get_shared_conversation. repeat frame_step.
  - unfold export_conversation. repeat frame_step.
Qed.
End Frame.

Lemma lifecycle_frame (E : Env) (r : Request) (w : World) :
  (forall cid, r <> EndConversation cid) ->
  (forall title, r <> CreateConversation title) ->
  map lifecycle (conversations (handle r w))
    = map lifecycle (conversations w).
Proof.
  intros Hend Hcreate.
  apply (preserves_handlers (map lifecycle) r Hend Hcreate).
  intros tok q l. apply update_first_map. reflexivity.
Qed.

Lemma lifecycle_ok_reachable (E : Env) (w : World) :
  reachable w -> Forall lifecycle_ok (conversations w).
Proof.
  intros Hr.
  refine (proj1 (reachable_inv (fun _ => True) lifecycle_ok (fun _ => True)
                   _ _ _ _ _ _ _ w Hr)); try (intros; exact I).
  - intros id title d _. unfold lifecycle_ok. cbn.
    split; [discriminate | intros [H _]; contradiction].
  - intros s d c _ _. unfold lifecycle_ok. cbn.
    split; [intros _; split; discriminate | reflexivity].
  - intros tok c Hc. exact Hc.
Qed.

(** C1.  In every world the handlers can reach from the empty store, a
    stored conversation has status ["ended"] exactly when its end time and
    its summary are both set.  [create_conversation] stores and returns a
    conversation that is ["active"] with neither; [end_conversation], when
    it returns, has set the three fields of the stored conversation
    together; every other request leaves the three fields of every stored
    conversation as they were. *)
Theorem C1_lifecycle_invariant (E : Env) :
  (forall w, reachable w ->
     forall c, In c (conversations w) -> lifecycle_ok c) /\
  (forall title w,
     exists conv,
       result (create_conversation title) w = inr conv /\
       lifecycle (Conversation.with_times
                    (isoformat (Conversation.start_time conv)) None conv)
         = ("active", None, None) /\
       conversations (final (create_conversation title) w)
         = (conversations w ++
            [Conversation.with_times
               (isoformat (Conversation.start_time conv)) None conv])%list) /\
  (forall cid w conv w',
     end_conversation cid w = (inr conv, w') ->
     exists doc s e,
       stored_conversation w' cid = Some doc /\
       lifecycle doc = ("ended", Some s, Some e) /\
       Conversation.status conv = "ended" /\
       Conversation.summary conv = Some s /\
       option_map isoformat (Conversation.end_time conv) = Some e) /\
  (forall r w,
     (forall cid, r <> EndConversation cid) ->
     (forall title, r <> CreateConversation title) ->
     map lifecycle (conversations (handle r w))
       = map lifecycle (conversations w)).
Proof.
  split; [|split; [|split]].
  - intros w Hr c Hc.
    pose proof (lifecycle_ok_reachable E w Hr) as H.
    rewrite Forall_forall in H. apply H, Hc.
  - intros title w. eexists. unfold result, final, create_conversation,
      new_conversation, bind, uuid4, utcnow, ret, db.conversations.insert_one.
    cbn. repeat split; reflexivity.
  - intros cid w conv w' Hend.
    destruct (end_conversation_returns E cid w w' conv Hend)
      as (doc & s & e & Hfind & Hst & Hs & He & Hstc & Hconvs & Hmsgs).
    exists (Conversation.set_ended s (isoformat e) doc), s, (isoformat e).
    split.
    + unfold stored_conversation in *. rewrite Hconvs.
      rewrite update_first_find by (intros; apply conv_id_is_set_ended).
      rewrite Hfind. reflexivity.
    + rewrite Hs, He, Hstc. cbn. repeat split; reflexivity.
  - apply lifecycle_frame.
Qed.

Lemma world4_reachable : reachable (E := sample_env) world4.
Proof. repeat apply reachable_step. apply reachable_empty. Qed.

Lemma C1_lifecycle_invariant_witness :
  lifecycle_ok
    (Conversation.mk "id-0" "Demo" "ended"
       (Some "Error generating summary: gateway timeout")
       "2024-01-01T00:00:00.000001+00:00"
       (Some "2024-01-01T00:00:00.000006+00:00") None).
Proof.
  apply (proj1 (C1_lifecycle_invariant sample_env) world4 world4_reachable).
  vm_compute. left. reflexivity.
Defined.

(** ** Appending to a missing or closed conversation *)

(** C2.  [send_message] on an id no stored conversation carries raises the
    404 (NotFound); on a conversation whose status is not ["active"], in
    particular an ended one, it raises the 400 "Conversation has ended"
    (InvalidState).  In both cases the world is left as it was: nothing is
    inserted and no gateway call is made. *)
Theorem C2_send_message_rejected
  (E : Env) (conversation_id content : string) (w : World) :
  ((forall c, In c (conversations w) ->
      Conversation.id c <> conversation_id) ->
   send_message conversation_id content w
     = (inl (HTTPException 404 "Conversation not found"), w)
   /\ NotFound (HTTPException 404 "Conversation not found")) /\
  (forall conv,
     stored_conversation w conversation_id = Some conv ->
     Conversation.status conv <> "active" ->
     send_message conversation_id content w
       = (inl (HTTPException 400 "Conversation has ended"), w)
     /\ InvalidState (HTTPException 400 "Conversation has ended")) /\
  (forall conv,
     stored_conversation w conversation_id = Some conv ->
     Conversation.status conv = "ended" ->
     send_message conversation_id content w
       = (inl (HTTPException 400 "Conversation has ended"), w)
     /\ messages (final (send_message conversation_id content) w)
        = messages w).
Proof.
  assert (Hclosed : forall conv,
    stored_conversation w conversation_id = Some conv ->
    Conversation.status conv <> "active" ->
    send_message conversation_id content w
      = (inl (HTTPException 400 "Conversation has ended"), w)).
  { intros conv Hfind Hst. unfold send_message, bind, db.conversations.find_one.
    unfold stored_conversation in Hfind. rewrite Hfind.
    apply String.eqb_neq in Hst. rewrite Hst. reflexivity. }
  split; [|split].
  - intros Habs. split; [|eexists; reflexivity].
    unfold send_message, bind, db.conversations.find_one.
    pose proof (stored_conversation_absent w conversation_id Habs) as Hn.
    unfold stored_conversation in Hn. rewrite Hn. reflexivity.
  - intros conv Hfind Hst. split; [eauto|]. left. reflexivity.
  - intros conv Hfind Hst.
    assert (Hne : Conversation.status conv <> "active")
      by (rewrite Hst; discriminate).
    split; [eauto|]. unfold final. rewrite (Hclosed conv Hfind Hne).
    reflexivity.
Qed.

Lemma C2_send_message_rejected_witness :
  send_message (E := sample_env) "nobody" "Hello" world4
    = (inl (HTTPException 404 "Conversation not found"), world4) /\
  send_message (E := sample_env) "id-0" "Hello" world4
    = (inl (HTTPException 400 "Conversation has ended"), world4).
Proof.
  pose proof (C2_send_message_rejected sample_env "nobody" "Hello" world4)
    as [H1 _].
  pose proof (C2_send_message_rejected sample_env "id-0" "Hello" world4)
    as [_ [H2 _]].
  split.
  - apply H1. intros c Hc. vm_compute in Hc.
    destruct Hc as [Hc|[]]; subst c; discriminate.
  - refine (proj1 (H2 _ _ _)); [vm_compute; reflexivity|].
    vm_compute. discriminate.
Defined.

(** ** A failing reply *)

(** C3.  When the gateway fails on the reply for an active conversation,
    [send_message] still returns: the assistant message it returns and
    inserts has the text ["Error generating response: "] followed by the
    exception's text as content, and the user message inserted before the
    call stays in the store, just in front of it. *)
Theorem C3_reply_failure_swallowed
  (E : Env) (conversation_id content : string) (w : World)
  (conv : ConversationDoc) (err : string) :
  stored_conversation w conversation_id = Some conv ->
  Conversation.status conv = "active" ->
  (forall log text,
     gateway log (mk_call assistant_system conversation_id text) = inl err) ->
  exists ai_msg,
    result (send_message conversation_id content) w = inr ai_msg /\
    Message.role ai_msg = "assistant" /\
    Message.conversation_id ai_msg = conversation_id /\
    Message.content ai_msg = "Error generating response: " ++ err /\
    messages (final (send_message conversation_id content) w)
      = (messages w ++
         [Message.mk (uuid4_at (ticks w)) conversation_id "user" content
            (isoformat (now_at (S (ticks w)))) [] false;
          Message.with_timestamp (isoformat (Message.timestamp ai_msg))
            ai_msg])%list /\
    conversations (final (send_message conversation_id content) w)
      = conversations w.
Proof.
  intros Hfind Hst Hfail.
  unfold result, final, send_message, bind, db.conversations.find_one,
    new_message, db.messages.insert_one, db.messages.find, call_llm,
    chat_send_message, uuid4, utcnow, ret, bind.
  unfold stored_conversation in Hfind. rewrite Hfind, Hst.
  cbn [String.eqb Ascii.eqb Bool.eqb negb fst snd conversations messages
       llm_calls ticks].
  rewrite Hfail.
  cbn [fst snd conversations messages llm_calls ticks].
  eexists. split; [reflexivity|].
  cbn [Message.role Message.conversation_id Message.content
       Message.timestamp Message.with_timestamp Message.id
       Message.reactions Message.bookmarked].
  rewrite <- app_assoc. repeat split; reflexivity.
Qed.

Lemma C3_reply_failure_swallowed_witness :
  exists ai_msg,
    result (send_message (E := failing_env) "id-0" "Hello") world1
      = inr ai_msg /\
    Message.content ai_msg
      = "Error generating response: connection refused" /\
    List.length (messages (final (send_message (E := failing_env)
                                    "id-0" "Hello") world1)) = 2.
Proof.
  destruct (C3_reply_failure_swallowed failing_env "id-0" "Hello" world1
    (Conversation.mk "id-0" "Demo" "active" None
       "2024-01-01T00:00:00.000001+00:00" None None)
    "connection refused" eq_refl eq_refl (fun _ _ => eq_refl))
    as (ai & Hres & _ & _ & Hcontent & Hmsgs & _).
  exists ai. split; [exact Hres|]. split; [exact Hcontent|].
  rewrite Hmsgs. reflexivity.
Defined.

(** ** Ending twice *)

(** C4.  Once [end_conversation] has returned for a conversation, a second
    call raises the 400 "Conversation already ended" (InvalidState) and
    leaves the world as the first call left it: the stored summary and end
    time are the ones the first call set and returned. *)
Theorem C4_end_twice
  (E : Env) (conversation_id : string) (w w1 : World)
  (conv : Conversation.t datetime) :
  end_conversation conversation_id w = (inr conv, w1) ->
  end_conversation conversation_id w1
    = (inl (HTTPException 400 "Conversation already ended"), w1) /\
  InvalidState (HTTPException 400 "Conversation already ended") /\
  exists doc,
    stored_conversation w1 conversation_id = Some doc /\
    stored_conversation (final (end_conversation conversation_id) w1)
      conversation_id = Some doc /\
    Conversation.status doc = "ended" /\
    Conversation.summary doc = Conversation.summary conv /\
    Conversation.end_time doc
      = option_map isoformat (Conversation.end_time conv).
Proof.
  intros Hend.
  destruct (end_conversation_returns E conversation_id w w1 conv Hend)
    as (doc & s & e & Hfind & Hst & Hs & He & Hstc & Hconvs & Hmsgs).
  assert (Hdoc : stored_conversation w1 conversation_id
                 = Some (Conversation.set_ended s (isoformat e) doc)).
  { unfold stored_conversation in *. rewrite Hconvs.
    rewrite update_first_find by (intros; apply conv_id_is_set_ended).
    rewrite Hfind. reflexivity. }
  assert (Hsecond : end_conversation conversation_id w1
    = (inl (HTTPException 400 "Conversation already ended"), w1))
    by (eapply end_conversation_ended; [exact Hdoc | reflexivity]).
  split; [exact Hsecond|]. split; [right; reflexivity|].
  exists (Conversation.set_ended s (isoformat e) doc).
  unfold final. rewrite Hsecond. cbn [snd].
  rewrite Hs, He. repeat split; try assumption; reflexivity.
Qed.

Lemma C4_end_twice_witness :
  end_conversation (E := sample_env) "id-0" world4
    = (inl (HTTPException 400 "Conversation already ended"), world4).
Proof.
  refine (proj1 (C4_end_twice sample_env "id-0" world3 world4
    (Conversation.mk "id-0" "Demo" "ended"
       (Some "Error generating summary: gateway timeout")
       (mk_datetime 2024 1 1 0 0 0 1)
       (Some (mk_datetime 2024 1 1 0 0 0 6)) None) _)).
  vm_compute. reflexivity.
Defined.

(** ** The reaction toggle *)

Lemma mem_In (x : string) (l : list string) : mem x l = true <-> In x l.
Proof.
  unfold mem. rewrite existsb_exists. split.
  - intros (y & Hy & Heq). apply String.eqb_eq in Heq. subst. exact Hy.
  - intros H. exists x. split; [exact H | apply String.eqb_refl].
Qed.

Lemma mem_not_In (x : string) (l : list string) :
  mem x l = false <-> ~ In x l.
Proof.
  rewrite <- mem_In. destruct (mem x l); split; congruence.
Qed.

Lemma remove_first_In (x y : string) (l : list string) :
  In y (remove_first x l) -> In y l.
Proof.
  induction l as [|z t IH]; simpl; [tauto|].
  destruct (String.eqb x z); simpl; tauto.
Qed.

Lemma remove_first_perm (x : string) (l : list string) :
  In x l -> Permutation (x :: remove_first x l) l.
Proof.
  induction l as [|z t IH]; simpl; [tauto|].
  destruct (String.eqb_spec x z) as [->|Hne]; [reflexivity|].
  intros [H|H]; [congruence|].
  rewrite perm_swap. constructor. apply IH, H.
Qed.

Lemma remove_first_NoDup (x : string) (l : list string) :
  NoDup l -> NoDup (remove_first x l) /\ ~ In x (remove_first x l).
Proof.
  induction l as [|z t IH]; simpl; intros H.
  - split; [constructor | tauto].
  - inversion H as [|? ? Hz Ht]; subst.
    destruct (String.eqb_spec x z) as [->|Hne]; [tauto|].
    destruct (IH Ht) as [Hnd Hx]. split.
    + constructor; [|exact Hnd]. intros Hin. apply Hz.
      eapply remove_first_In, Hin.
    + simpl. intros [->|Hin]; [congruence | tauto].
Qed.

Lemma remove_first_app_last (x : string) (l : list string) :
  ~ In x l -> remove_first x (l ++ [x]) = l.
Proof.
  induction l as [|z t IH]; simpl; intros H.
  - rewrite String.eqb_refl. reflexivity.
  - destruct (String.eqb_spec x z) as [->|Hne]; [tauto|].
    rewrite IH by tauto. reflexivity.
Qed.

Lemma toggle_reaction_NoDup (r : string) (l : list string) :
  NoDup l -> NoDup (toggle_reaction r l).
Proof.
  intros H. unfold toggle_reaction. destruct (mem r l) eqn:Hm.
  - apply remove_first_NoDup, H.
  - apply mem_not_In in Hm. apply NoDup_app; [exact H | repeat constructor; simpl; tauto |].
    intros x Hx [<-|[]]. contradiction.
Qed.

Lemma toggle_reaction_twice (r : string) (l : list string) :
  NoDup l ->
  Permutation (toggle_reaction r (toggle_reaction r l)) l /\
  (~ In r l -> toggle_reaction r (toggle_reaction r l) = l).
Proof.
  intros H. destruct (mem r l) eqn:Hm.
  - assert (Hfirst : toggle_reaction r l = remove_first r l)
      by (unfold toggle_reaction; rewrite Hm; reflexivity).
    rewrite Hfirst. apply mem_In in Hm. split; [|tauto].
    destruct (remove_first_NoDup r l H) as [_ Hnot].
    unfold toggle_reaction. apply mem_not_In in Hnot. rewrite Hnot.
    rewrite <- (remove_first_perm r l Hm) at 2.
    symmetry. apply Permutation_cons_append.
  - assert (Hfirst : toggle_reaction r l = (l ++ [r])%list)
      by (unfold toggle_reaction; rewrite Hm; reflexivity).
    rewrite Hfirst. apply mem_not_In in Hm.
    assert (Heq : toggle_reaction r (l ++ [r]) = l).
    { unfold toggle_reaction.
      assert (Hin : mem r (l ++ [r]) = true)
        by (apply mem_In, in_or_app; right; simpl; tauto).
      rewrite Hin. apply remove_first_app_last, Hm. }
    rewrite Heq. split; reflexivity.
Qed.

Lemma reactions_NoDup_reachable (E : Env) (w : World) :
  reachable w -> Forall (fun m => NoDup (Message.reactions m)) (messages w).
Proof.
  intros Hr.
  refine (proj2 (reachable_inv (fun _ => True) (fun _ => True)
                   (fun m => NoDup (Message.reactions m))
                   _ _ _ _ _ _ _ w Hr)); try (intros; exact I).
  - intros. cbn. constructor.
  - intros r m m' Hm _. cbn. apply toggle_reaction_NoDup, Hm.
  - intros b m Hm. exact Hm.
Qed.

(** What [react_to_message] does to a stored message. *)
Lemma react_to_message_stored
  (E : Env) (message_id reaction : string) (w : World) (m : MessageDoc) :
  stored_message w message_id = Some m ->
  let rs := toggle_reaction reaction (Message.reactions m) in
  result (react_to_message message_id reaction) w = inr rs /\
  stored_message (final (react_to_message message_id reaction) w) message_id
    = Some (Message.set_reactions rs m).
Proof.
  intros Hfind rs.
  unfold result, final, react_to_message, bind, db.messages.find_one,
    db.messages.update_one, ret.
  unfold stored_message in *. rewrite Hfind. cbn.
  split; [reflexivity|].
  rewrite update_first_find by reflexivity. rewrite Hfind. reflexivity.
Qed.

(** C5.  For a message stored in a reachable world, [react_to_message]
    with the same symbol returns both times, and the second call returns
    and stores the reactions the message had before the first, as a set:
    the same symbols, each once.  When the symbol was absent before, the
    list itself is restored. *)
Theorem C5_react_twice
  (E : Env) (message_id reaction : string) (w : World) (m : MessageDoc) :
  reachable w ->
  stored_message w message_id = Some m ->
  let w1 := final (react_to_message message_id reaction) w in
  let w2 := final (react_to_message message_id reaction) w1 in
  exists rs1 rs2,
    result (react_to_message message_id reaction) w = inr rs1 /\
    result (react_to_message message_id reaction) w1 = inr rs2 /\
    stored_message w2 message_id = Some (Message.set_reactions rs2 m) /\
    Permutation rs2 (Message.reactions m) /\
    (forall x, In x rs2 <-> In x (Message.reactions m)) /\
    NoDup rs2 /\
    (~ In reaction (Message.reactions m) -> rs2 = Message.reactions m).
Proof.
  intros Hr Hfind w1 w2.
  assert (Hnd : NoDup (Message.reactions m)).
  { pose proof (reactions_NoDup_reachable E w Hr) as H.
    rewrite Forall_forall in H. apply H.
    apply List.find_some in Hfind. apply Hfind. }
  destruct (react_to_message_stored E message_id reaction w m Hfind)
    as [Hres1 Hst1].
  destruct (react_to_message_stored E message_id reaction w1 _ Hst1)
    as [Hres2 Hst2].
  cbn [Message.reactions Message.set_reactions] in Hres2, Hst2.
  destruct (toggle_reaction_twice reaction (Message.reactions m) Hnd)
    as [Hperm Heq].
  eexists _, _. split; [exact Hres1|]. split; [exact Hres2|].
  split; [exact Hst2|]. split; [exact Hperm|]. split; [|split].
  - intros x. split; intros Hx.
    + eapply Permutation_in; [exact Hperm | exact Hx].
    + eapply Permutation_in; [symmetry; exact Hperm | exact Hx].
  - eapply Permutation_NoDup; [symmetry; exact Hperm | exact Hnd].
  - exact Heq.
Qed.

Lemma C5_react_twice_witness :
  exists rs1 rs2,
    result (react_to_message "id-2" "+1") world4
      = inr rs1 /\
    result (react_to_message "id-2" "+1")
      (final (react_to_message "id-2" "+1") world4)
      = inr rs2 /\
    Permutation rs2 ["+1"].
Proof.
  destruct (C5_react_twice sample_env "id-2" "+1" world4
    (Message.mk "id-2" "id-0" "user" "Hello"
       "2024-01-01T00:00:00.000003+00:00" ["+1"] false)
    world4_reachable eq_refl)
    as (rs1 & rs2 & H1 & H2 & _ & Hperm & _).
  exists rs1, rs2. split; [exact H1|]. split; [exact H2 | exact Hperm].
Defined.

(** ** Messages come back in timestamp order *)






Lemma sample_clock_valid (n : nat) :
  valid_datetime (now_at (Env := sample_env) n).
Proof.
  unfold valid_datetime. cbn [now_at sample_env year month day hour minute
                              second microsecond].
  repeat split; try lia. apply N.mod_lt. discriminate.
Qed.


(** ** The cross-session query *)

Lemma filter_none {A : Type} (q : A -> bool) (l : list A) :
  (forall x, In x l -> q x = false) -> filter q l = [].
Proof.
  induction l as [|x t IH]; intros H; simpl; [reflexivity|].
  rewrite (H x (or_introl eq_refl)). apply IH.
  intros y Hy. apply H. right. exact Hy.
Qed.

Lemma firstn_firstn_le {A : Type} (n m : nat) (l : list A) :
  n <= m -> firstn n (firstn m l) = firstn n l.
Proof.
  intros H. rewrite firstn_firstn. rewrite Nat.min_l by exact H. reflexivity.
Qed.

(** C7.  With no conversation of status ["ended"] in the store,
    [query_conversations] returns the fixed answer with empty references
    and suggestions and leaves the world, hence the gateway log, untouched;
    with at least one it makes a single gateway call and its references are
    the first five ended conversations in store order, whether the call
    succeeds or not. *)
Theorem C7_query_conversations (E : Env) (query : string) (w : World) :
  ((forall c, In c (conversations w) -> Conversation.status c <> "ended") ->
   query_conversations query w
     = (inr (mk_query_response "No past conversations found to analyze."
               [] []), w)
   /\ llm_calls (final (query_conversations query) w) = llm_calls w) /\
  (ended_conversations w <> [] ->
   exists text call,
     result (query_conversations query) w
       = inr (mk_query_response text (firstn 5 (ended_conversations w)) [])
     /\ llm_calls (final (query_conversations query) w)
        = (llm_calls w ++ [call])%list).
Proof.
  split.
  - intros Hnone.
    assert (Hq : query_conversations query w
      = (inr (mk_query_response "No past conversations found to analyze."
                [] []), w)).
    { unfold query_conversations, bind, db.conversations.find.
      rewrite filter_none; [reflexivity|].
      intros c Hc. apply String.eqb_neq. auto. }
    split; [exact Hq|]. unfold final. rewrite Hq. reflexivity.
  - intros Hsome. unfold result, final, query_conversations, bind,
      db.conversations.find, ended_conversations in *.
    destruct (filter (status_is "ended") (conversations w)) as [|c t] eqn:Hf;
      [contradiction|].
    set (convs := firstn 1000 (c :: t)).
    assert (H5 : firstn 5 convs = firstn 5 (c :: t))
      by (apply firstn_firstn_le; lia).
    assert (Hne : exists c' t', convs = c' :: t')
      by (exists c, (firstn 999 t); reflexivity).
    destruct Hne as (c' & t' & Hconvs).
    cbn [fst]. rewrite Hconvs in *. rewrite <- H5.
    unfold uuid4, chat_send_message, ret. cbn.
    eexists _, _. split; reflexivity.
Qed.

Lemma C7_query_conversations_witness :
  query_conversations (E := sample_env) "What was discussed?" world3
    = (inr (mk_query_response "No past conversations found to analyze."
              [] []), world3) /\
  exists text call,
    result (query_conversations (E := sample_env) "What was discussed?")
      world4
      = inr (mk_query_response text (firstn 5 (ended_conversations world4))
               []) /\
    llm_calls (final (query_conversations (E := sample_env)
                        "What was discussed?") world4)
      = (llm_calls world4 ++ [call])%list.
Proof.
  split.
  - refine (proj1 (proj1 (C7_query_conversations sample_env _ world3) _)).
    intros c Hc. vm_compute in Hc.
    destruct Hc as [Hc|[]]; subst c; discriminate.
  - apply (proj2 (C7_query_conversations sample_env _ world4)).
    vm_compute. discriminate.
Defined.

(** ** The suggestion generator *)

Lemma map_filter_comm {A B : Type} (f : A -> B) (p : B -> bool)
  (l : list A) :
  map f (filter (fun x => p (f x)) l) = filter p (map f l).
Proof.
  induction l as [|x t IH]; simpl; [reflexivity|].
  destruct (p (f x)); simpl; rewrite IH; reflexivity.
Qed.

(** The lines [parse_suggestions] keeps are the stripped lines that are
    not empty and do not begin with [#]. *)
Lemma parse_suggestions_stripped (response : string) :
  parse_suggestions response
  = filter (fun s => negb (String.eqb s EmptyString)
                     && negb (startswith s "#"))
      (map strip (split (chr 10) response)).
Proof.
  unfold parse_suggestions.
  apply (map_filter_comm strip
           (fun s => negb (String.eqb s EmptyString)
                     && negb (startswith s "#"))).
Qed.

(** C8, as the code has it.  [generate_suggestions] always returns, with
    at most three strings.  On an empty history it returns the three default
    prompts and leaves the world, hence the gateway log, untouched.
    Otherwise it makes one gateway call; from a response it returns at most
    the first three of the lines that, once stripped of surrounding
    whitespace, are neither empty nor begin with [#], each in its stripped
    form; when the call fails it returns the empty list. *)
Theorem C8_generate_suggestions
  (E : Env) (history : list (string * string)) (w : World) :
  (exists l,
     result (generate_suggestions history) w = inr l /\ List.length l <= 3) /\
  (generate_suggestions [] w = (inr default_suggestions, w) /\
   List.length default_suggestions = 3) /\
  (history <> [] ->
   exists call,
     llm_calls (final (generate_suggestions history) w)
       = (llm_calls w ++ [call])%list /\
     (forall response,
        gateway (llm_calls w) call = inr response ->
        result (generate_suggestions history) w
          = inr (firstn 3
                   (filter (fun s => negb (String.eqb s EmptyString)
                                     && negb (startswith s "#"))
                      (map strip (split (chr 10) response))))) /\
     (forall e,
        gateway (llm_calls w) call = inl e ->
        result (generate_suggestions history) w = inr [])).
Proof.
  split; [|split].
  - destruct history as [|h t].
    + exists default_suggestions. split; [reflexivity | cbn; lia].
    + unfold result, generate_suggestions, bind, uuid4, chat_send_message,
        ret.
      cbn [fst snd conversations messages llm_calls ticks].
      destruct (gateway _ _) as [e|response]; cbn [fst].
      * exists []. split; [reflexivity | cbn; lia].
      * eexists. split; [reflexivity|]. apply firstn_le_length.
  - split; reflexivity.
  - intros Hne. destruct history as [|h t]; [contradiction|].
    unfold result, final, generate_suggestions, bind, uuid4,
      chat_send_message, ret.
    cbn [fst snd conversations messages llm_calls ticks].
    eexists. split; [|split].
    + destruct (gateway _ _); reflexivity.
    + intros response Hg. rewrite Hg. cbn [fst].
      rewrite parse_suggestions_stripped. reflexivity.
    + intros e Hg. rewrite Hg. reflexivity.
Qed.

Lemma C8_generate_suggestions_witness :
  exists call,
    llm_calls (final (generate_suggestions (E := sample_env)
                        [("user", "Hello")]) empty_world) = [call] /\
    result (generate_suggestions (E := sample_env) [("user", "Hello")])
      empty_world
      = inr ["What next?"; "Why?"].
Proof.
  destruct (proj2 (proj2 (C8_generate_suggestions sample_env
                            [("user", "Hello")] empty_world)))
    as (call & Hlog & Hok & _); [discriminate|].
  exists call. split; [exact Hlog|].
  cbn in Hlog. injection Hlog as <-.
  rewrite (Hok _ eq_refl). vm_compute. reflexivity.
Defined.

(** The parsing as the specification words it differs from the code on a
    response with padded lines and an indented comment line: the code
    returns the stripped lines and drops the comment. *)
Lemma C8_suggestions_counterexample :
  gateway (Env := sample_env) []
    (mk_call suggestions_system ("suggestions_" ++ "id-0")
       ("Recent conversation:" ++ nl ++ "user: Hello" ++ nl ++ nl ++
        "Generate 3 relevant follow-up questions:"))
    = inr sample_response /\
  result (generate_suggestions (E := sample_env) [("user", "Hello")])
    empty_world
    = inr ["What next?"; "Why?"] /\
  spec_parse_suggestions sample_response
    = ["  What next?  "; " # not this"; "Why?"] /\
  result (generate_suggestions (E := sample_env) [("user", "Hello")])
    empty_world
    <> inr (spec_parse_suggestions sample_response).
Proof.
  repeat split; try (vm_compute; reflexivity).
  vm_compute. discriminate.
Qed.

(** ** Export formats *)

Lemma not_in_export_formats (format : string) :
  ~ In format export_formats ->
  String.eqb format "json" = false /\
  String.eqb format "markdown" = false /\
  String.eqb format "pdf" = false.
Proof.
  unfold export_formats. cbn [In]. intros H.
  repeat split; apply String.eqb_neq; intros ->; tauto.
Qed.

(** C9, as the code has it.  For a stored conversation,
    [export_conversation] raises the 400 "Invalid export format"
    (InvalidArgument) when the format is none of ["json"], ["markdown"] and
    ["pdf"]; ["xml"] is refused, and so is ["document"].  With one of the
    three formats it never raises that exception. *)
Theorem C9_export_format
  (E : Env) (conversation_id : string) (w : World) (conv : ConversationDoc) :
  stored_conversation w conversation_id = Some conv ->
  (forall format,
     ~ In format export_formats ->
     export_conversation conversation_id format w
       = (inl (HTTPException 400 "Invalid export format"), w)) /\
  (export_conversation conversation_id "xml" w
     = (inl (HTTPException 400 "Invalid export format"), w)
   /\ InvalidArgument (HTTPException 400 "Invalid export format")) /\
  (forall format e,
     In format export_formats ->
     result (export_conversation conversation_id format) w = inl e ->
     ~ InvalidArgument e).
Proof.
  intros Hfind.
  assert (Hbad : forall format,
     ~ In format export_formats ->
     export_conversation conversation_id format w
       = (inl (HTTPException 400 "Invalid export format"), w)).
  { intros format Hnot.
    destruct (not_in_export_formats format Hnot) as (Hj & Hm & Hp).
    unfold export_conversation. unfold_run.
    unfold stored_conversation in Hfind. rewrite Hfind. unfold_run.
    rewrite Hj, Hm, Hp. reflexivity. }
  split; [exact Hbad|]. split.
  - split; [|reflexivity]. apply Hbad. unfold export_formats. cbn [In].
    intros [H|[H|[H|[]]]]; discriminate H.
  - intros format e Hin. unfold export_conversation. unfold_run.
    unfold stored_conversation in Hfind. rewrite Hfind. unfold_run.
    unfold InvalidArgument.
    destruct Hin as [<-|[<-|[<-|[]]]]; cbn [String.eqb Ascii.eqb Bool.eqb];
      try discriminate.
    destruct (pdf_build _ _); cbn [fst]; intros H; inversion H; discriminate.
Qed.

Lemma C9_export_format_witness :
  export_conversation (E := sample_env) "id-0" "xml" world4
    = (inl (HTTPException 400 "Invalid export format"), world4).
Proof.
  refine (proj1 (proj1 (proj2 (C9_export_format sample_env "id-0" world4
    (Conversation.mk "id-0" "Demo" "ended"
       (Some "Error generating summary: gateway timeout")
       "2024-01-01T00:00:00.000001+00:00"
       (Some "2024-01-01T00:00:00.000006+00:00") None) _)))).
  vm_compute. reflexivity.
Defined.

(** With the selectors the specification lists, the claim fails both
    ways: ["document"] is one of them and is refused as an invalid format,
    ["pdf"] is none of them and is exported. *)
Lemma C9_export_format_counterexample :
  stored_conversation world4 "id-0" <> None /\
  In "document" spec_selectors /\
  export_conversation (E := sample_env) "id-0" "document" world4
    = (inl (HTTPException 400 "Invalid export format"), world4) /\
  InvalidArgument (HTTPException 400 "Invalid export format") /\
  ~ In "pdf" spec_selectors /\
  result (export_conversation (E := sample_env) "id-0" "pdf") world4
    = inr (FileExport "/tmp/conversation_id-0.pdf" "application/pdf"
             "Demo.pdf").
Proof.
  split; [vm_compute; discriminate|].
  split; [cbn; tauto|].
  split; [vm_compute; reflexivity|].
  split; [reflexivity|].
  split; [|vm_compute; reflexivity].
  cbn. intros [H|[H|[H|[]]]]; discriminate H.
Qed.

(** ** The cap on store reads *)

Lemma capped_read_again {A : Type} (q : A -> bool) (n : nat) (l : list A) :
  firstn n (filter q (firstn n (filter q l))) = firstn n (filter q l).
Proof.
  rewrite filter_firstn_filter, firstn_firstn, Nat.min_id. reflexivity.
Qed.

Lemma get_conversations_capped (w : World) :
  result get_conversations w
    = result get_conversations (first_conversations (fun _ => true) w) /\
  forall l, result get_conversations w = inr l -> List.length l <= 1000.
Proof.
  unfold get_conversations. unfold_run.
  rewrite !capped_read_again.
  destruct (traverse parse_conversation _) as [e|l'] eqn:Ht; cbn;
    (split; [reflexivity|]); intros l H; [discriminate|].
  injection H as <-. rewrite stable_sort_length.
  rewrite (traverse_length _ _ _ Ht). apply firstn_le_length.
Qed.

Lemma query_conversations_capped (E : Env) (query : string) (w : World) :
  outcome (query_conversations query) w
    = outcome (query_conversations query)
        (first_conversations (status_is "ended") w).
Proof.
  unfold query_conversations. unfold_run.
  rewrite !capped_read_again.
  destruct (firstn 1000 (filter (status_is "ended") (conversations w)));
    reflexivity.
Qed.

Lemma get_conversation_capped (E : Env) (cid : string) (w : World) :
  outcome (get_conversation cid) w
    = outcome (get_conversation cid) (first_messages cid w) /\
  forall c l s,
    result (get_conversation cid) w = inr (c, l, s) ->
    List.length l <= 1000.
Proof.
  unfold get_conversation. unfold_run.
  destruct (List.find (conv_id_is cid) (conversations w)) as [conv|];
    [|split; [reflexivity | discriminate]].
  destruct (parse_conversation conv) as [e|conv'];
    cbn [fst snd]; [split; [reflexivity | discriminate]|].
  unfold_run. rewrite !capped_read_again.
  destruct (traverse parse_message _) as [e|msgs] eqn:Ht;
    cbn [fst snd]; [split; [reflexivity | discriminate]|].
  assert (Hlen : List.length (stable_sort by_parsed_timestamp msgs) <= 1000).
  { rewrite stable_sort_length, (traverse_length _ _ _ Ht).
    apply firstn_le_length. }
  destruct (String.eqb (Conversation.status conv') "active"
            && negb (Nat.eqb (List.length
                                (stable_sort by_parsed_timestamp msgs)) 0)).
  - unfold generate_suggestions.
    destruct (map turn (stable_sort by_parsed_timestamp msgs)).
    + unfold_run. split; [reflexivity|].
      intros c x y H. injection H as _ <- _. exact Hlen.
    + unfold_run. destruct (gateway _ _); cbn [fst snd llm_calls];
        (split; [reflexivity|]); intros c x y H; injection H as _ <- _;
        exact Hlen.
  - unfold_run. split; [reflexivity|].
    intros c x y H. injection H as _ <- _. exact Hlen.
Qed.

Lemma get_shared_conversation_capped
  (tok : string) (w : World) (conv : ConversationDoc) :
  List.find (share_token_is tok) (conversations w) = Some conv ->
  result (get_shared_conversation tok) w
    = result (get_shared_conversation tok)
        (first_messages (Conversation.id conv) w) /\
  forall c l,
    result (get_shared_conversation tok) w = inr (c, l) ->
    List.length l <= 1000.
Proof.
  intros Hfind. unfold get_shared_conversation. unfold_run.
  rewrite Hfind. unfold_run. rewrite !capped_read_again.
  destruct (traverse parse_message _) as [e|msgs] eqn:Ht;
    cbn [fst snd]; [split; [reflexivity | discriminate]|].
  destruct (parse_conversation conv); cbn [fst snd];
    [split; [reflexivity | discriminate]|].
  split; [reflexivity|]. intros c l H. injection H as _ <-.
  rewrite stable_sort_length, (traverse_length _ _ _ Ht).
  apply firstn_le_length.
Qed.

Lemma export_conversation_capped
  (E : Env) (cid format : string) (w : World) :
  result (export_conversation cid format) w
    = result (export_conversation cid format) (first_messages cid w) /\
  forall c l,
    result (export_conversation cid format) w = inr (JSONExport c l) ->
    List.length l <= 1000.
Proof.
  unfold export_conversation. unfold_run.
  destruct (List.find (conv_id_is cid) (conversations w)) as [conv|];
    [|split; [reflexivity | discriminate]].
  unfold_run. rewrite !capped_read_again.
  assert (Hlen : List.length
            (firstn 1000 (filter (in_conversation cid) (messages w)))
          <= 1000) by apply firstn_le_length.
  set (read := firstn 1000 (filter (in_conversation cid) (messages w))) in *.
  destruct (String.eqb format "json").
  - split; [reflexivity|]. cbn [fst]. intros c l H. injection H as _ <-.
    rewrite stable_sort_length. exact Hlen.
  - destruct (String.eqb format "markdown");
      [split; [reflexivity | discriminate]|].
    destruct (String.eqb format "pdf");
      [|split; [reflexivity | discriminate]].
    destruct (pdf_build _ _); split; try reflexivity; discriminate.
Qed.

Lemma send_message_capped (E : Env) (cid content : string) (w : World) :
  outcome (send_message cid content) w
    = outcome (send_message cid content) (first_messages cid w).
Proof.
  unfold send_message, new_message, call_llm. unfold_run.
  destruct (List.find (conv_id_is cid) (conversations w)) as [conv|];
    [|reflexivity].
  destruct (negb (String.eqb (Conversation.status conv) "active"));
    [reflexivity|].
  unfold_run.
  rewrite !filter_app, filter_firstn_filter, firstn_app_firstn.
  destruct (gateway _ _); reflexivity.
Qed.

Lemma end_conversation_capped (E : Env) (cid : string) (w : World) :
  outcome (end_conversation cid) w
    = outcome (end_conversation cid) (first_messages cid w).
Proof.
  unfold end_conversation. unfold_run.
  destruct (List.find (conv_id_is cid) (conversations w)) as [conv|];
    [|reflexivity].
  destruct (String.eqb (Conversation.status conv) "ended"); [reflexivity|].
  unfold_run. rewrite !capped_read_again.
  destruct (fromisoformat (Conversation.start_time conv)); reflexivity.
Qed.

(** C10.  Every read of a collection is [find(...).to_list(1000)]: the
    handlers see the first 1000 matching records and nothing of the rest.
    Listing and the cross-session query give the same outcome on the store
    cut down to the first 1000 conversations the query matches; get, get by
    share token, export, reply generation ([send_message]) and summarization
    ([end_conversation]) give the same outcome on the store cut down to the
    first 1000 messages of the conversation; and no returned list is longer
    than 1000. *)
Theorem C10_reads_capped (E : Env) (w : World) :
  (result get_conversations w
     = result get_conversations (first_conversations (fun _ => true) w) /\
   forall l, result get_conversations w = inr l -> List.length l <= 1000) /\
  (forall query,
     outcome (query_conversations query) w
       = outcome (query_conversations query)
           (first_conversations (status_is "ended") w)) /\
  (forall cid,
     outcome (get_conversation cid) w
       = outcome (get_conversation cid) (first_messages cid w) /\
     forall c l s,
       result (get_conversation cid) w = inr (c, l, s) ->
       List.length l <= 1000) /\
  (forall tok conv,
     List.find (share_token_is tok) (conversations w) = Some conv ->
     result (get_shared_conversation tok) w
       = result (get_shared_conversation tok)
           (first_messages (Conversation.id conv) w) /\
     forall c l,
       result (get_shared_conversation tok) w = inr (c, l) ->
       List.length l <= 1000) /\
  (forall cid format,
     result (export_conversation cid format) w
       = result (export_conversation cid format) (first_messages cid w) /\
     forall c l,
       result (export_conversation cid format) w = inr (JSONExport c l) ->
       List.length l <= 1000) /\
  (forall cid content,
     outcome (send_message cid content) w
       = outcome (send_message cid content) (first_messages cid w)) /\
  (forall cid,
     outcome (end_conversation cid) w
       = outcome (end_conversation cid) (first_messages cid w)).
Proof.
  split; [apply get_conversations_capped|].
  split; [intros; apply query_conversations_capped|].
  split; [intros; apply get_conversation_capped|].
  split; [intros tok conv H; apply get_shared_conversation_capped, H|].
  split; [intros; apply export_conversation_capped|].
  split; [intros; apply send_message_capped|].
  intros; apply end_conversation_capped.
Qed.

Lemma C10_reads_capped_witness :
  exists c l s,
    result (get_conversation (E := sample_env) "id-0") world4
      = inr (c, l, s) /\
    List.length l <= 1000.
Proof.
  destruct (result (get_conversation (E := sample_env) "id-0") world4)
    as [e|[[c l] s]] eqn:Hres; [vm_compute in Hres; discriminate|].
  exists c, l, s. split; [reflexivity|].
  exact (proj2 (proj1 (proj2 (proj2 (C10_reads_capped sample_env world4)))
                  "id-0") c l s Hres).
Defined.

(** * Further properties of the handlers *)

(** ** Absent ids *)

(** X1.  A handler addressed by an id that nothing in the store carries
    raises its 404 and leaves the world exactly as it was: no identifier or
    clock reading is drawn and the gateway is not called.  This holds for
    [get_conversation], [end_conversation], [share_conversation] and
    [export_conversation] on a conversation id, for [react_to_message] and
    [bookmark_message] on a message id, and for [get_shared_conversation]
    on a share token. *)
Theorem absent_id_404 (E : Env) (w : World) :
  (forall cid,
     (forall c, In c (conversations w) -> Conversation.id c <> cid) ->
     get_conversation cid w
       = (inl (HTTPException 404 "Conversation not found"), w) /\
     end_conversation cid w
       = (inl (HTTPException 404 "Conversation not found"), w) /\
     share_conversation cid w
       = (inl (HTTPException 404 "Conversation not found"), w) /\
     forall format,
       export_conversation cid format w
         = (inl (HTTPException 404 "Conversation not found"), w)) /\
  (forall mid,
     (forall m, In m (messages w) -> Message.id m <> mid) ->
     (forall reaction,
        react_to_message mid reaction w
          = (inl (HTTPException 404 "Message not found"), w)) /\
     bookmark_message mid w
       = (inl (HTTPException 404 "Message not found"), w)) /\
  (forall tok,
     (forall c, In c (conversations w) ->
                Conversation.share_token c <> Some tok) ->
     get_shared_conversation tok w
       = (inl (HTTPException 404 "Shared conversation not found"), w)).
Proof.
  split; [|split].
  - intros cid Habs.
    pose proof (stored_conversation_absent w cid Habs) as Hn.
    unfold stored_conversation in Hn.
    unfold get_conversation, end_conversation, share_conversation,
      export_conversation. unfold_run. rewrite Hn.
    repeat split; reflexivity.
  - intros mid Habs.
    assert (Hn : List.find (msg_id_is mid) (messages w) = None).
    { apply find_absent. intros m Hm. apply String.eqb_neq. auto. }
    unfold react_to_message, bookmark_message. unfold_run. rewrite Hn.
    split; reflexivity.
  - intros tok Habs.
    assert (Hn : List.find (share_token_is tok) (conversations w) = None).
    { apply find_absent. intros c Hc. unfold share_token_is.
      specialize (Habs c Hc).
      destruct (Conversation.share_token c) as [t|]; [|reflexivity].
      apply String.eqb_neq. congruence. }
    unfold get_shared_conversation. unfold_run. rewrite Hn. reflexivity.
Qed.

Lemma absent_id_404_witness :
  share_conversation (E := sample_env) "nobody" world4
    = (inl (HTTPException 404 "Conversation not found"), world4) /\
  bookmark_message "nothing" world4
    = (inl (HTTPException 404 "Message not found"), world4) /\
  get_shared_conversation "no-token" world4
    = (inl (HTTPException 404 "Shared conversation not found"), world4).
Proof.
  destruct (absent_id_404 sample_env world4) as (Hc & Hm & Ht).
  split; [|split].
  - refine (proj1 (proj2 (proj2 (Hc "nobody" _)))).
    intros c Hin. vm_compute in Hin.
    destruct Hin as [Hin|[]]; subst c; discriminate.
  - refine (proj2 (Hm "nothing" _)).
    intros m Hin. vm_compute in Hin.
    destruct Hin as [Hin|[Hin|[]]]; subst m; discriminate.
  - apply Ht. intros c Hin. vm_compute in Hin.
    destruct Hin as [Hin|[]]; subst c; discriminate.
Defined.

(** ** The bookmark toggle *)

Lemma update_first_fixed {A : Type} (q : A -> bool) (f : A -> A)
  (l : list A) (x : A) :
  List.find q l = Some x -> f x = x -> update_first q f l = l.
Proof.
  induction l as [|y t IH]; simpl; [discriminate|].
  destruct (q y).
  - intros H Hf. injection H as ->. rewrite Hf. reflexivity.
  - intros H Hf. rewrite IH by assumption. reflexivity.
Qed.

Lemma update_first_twice {A : Type} (q : A -> bool) (f g : A -> A)
  (l : list A) :
  (forall x, q (f x) = q x) ->
  update_first q g (update_first q f l)
    = update_first q (fun x => g (f x)) l.
Proof.
  intros Hq. induction l as [|y t IH]; simpl; [reflexivity|].
  destruct (q y) eqn:Hy; simpl.
  - rewrite Hq, Hy. reflexivity.
  - rewrite Hy, IH. reflexivity.
Qed.

(** X2.  For a stored message, [bookmark_message] returns the negated flag
    and stores it; a second call returns the original flag and leaves the
    two collections exactly as they were before the first. *)
Theorem bookmark_twice (message_id : string) (w : World) (m : MessageDoc) :
  stored_message w message_id = Some m ->
  let w1 := final (bookmark_message message_id) w in
  let w2 := final (bookmark_message message_id) w1 in
  result (bookmark_message message_id) w
    = inr (negb (Message.bookmarked m)) /\
  stored_message w1 message_id
    = Some (Message.set_bookmarked (negb (Message.bookmarked m)) m) /\
  result (bookmark_message message_id) w1 = inr (Message.bookmarked m) /\
  messages w2 = messages w /\
  conversations w2 = conversations w.
Proof.
  intros Hfind w1 w2.
  assert (Hrun : forall w0 m0,
    stored_message w0 message_id = Some m0 ->
    bookmark_message message_id w0
      = (inr (negb (Message.bookmarked m0)),
         mk_world (conversations w0)
           (update_first (msg_id_is message_id)
              (Message.set_bookmarked (negb (Message.bookmarked m0)))
              (messages w0))
           (llm_calls w0) (ticks w0))).
  { intros w0 m0 H0. unfold bookmark_message. unfold_run.
    unfold stored_message in H0. rewrite H0. reflexivity. }
  assert (H1 : stored_message w1 message_id
    = Some (Message.set_bookmarked (negb (Message.bookmarked m)) m)).
  { unfold w1, final. rewrite (Hrun w m Hfind). unfold stored_message.
    cbn [snd messages]. rewrite update_first_find by reflexivity.
    unfold stored_message in Hfind. rewrite Hfind. reflexivity. }
  split; [unfold result; rewrite (Hrun w m Hfind); reflexivity|].
  split; [exact H1|].
  split.
  { unfold result. rewrite (Hrun w1 _ H1). cbn [fst Message.bookmarked
      Message.set_bookmarked]. rewrite negb_involutive. reflexivity. }
  unfold w2, final. rewrite (Hrun w1 _ H1). cbn [snd messages conversations].
  unfold w1, final. rewrite (Hrun w m Hfind).
  cbn [snd messages conversations Message.bookmarked Message.set_bookmarked].
  split; [|reflexivity].
  rewrite update_first_twice by reflexivity.
  apply (update_first_fixed _ _ _ m); [exact Hfind|].
  destruct m. cbn. rewrite negb_involutive. reflexivity.
Qed.

Lemma bookmark_twice_witness :
  result (bookmark_message "id-2") world4 = inr true /\
  messages (final (bookmark_message "id-2")
              (final (bookmark_message "id-2") world4))
    = messages world4.
Proof.
  destruct (bookmark_twice "id-2" world4
    (Message.mk "id-2" "id-0" "user" "Hello"
       "2024-01-01T00:00:00.000003+00:00" ["+1"] false) eq_refl)
    as (H1 & _ & _ & H2 & _).
  split; [exact H1 | exact H2].
Defined.

(** ** Reads leave the store alone *)

Lemma leaves_store_bind {A B : Type} (m : M A) (k : A -> M B) :
  leaves_store m -> (forall a, leaves_store (k a)) ->
  leaves_store (bind m k).
Proof.
  intros Hm Hk w. unfold bind. specialize (Hm w).
  destruct (m w) as [[e|a] w']; cbn [snd] in *; [exact Hm|].
  destruct (Hk a w') as [Hc Hms]. destruct Hm as [Hc' Hms'].
  split; congruence.
Qed.

Lemma leaves_store_same {A : Type} (m : M A) :
  (forall w, conversations (snd (m w)) = conversations w /\
             messages (snd (m w)) = messages w) ->
  leaves_store m.
Proof. intros H. exact H. Qed.

Ltac leaves_step :=
  first
    [ apply leaves_store_bind; [|intros]
    | apply leaves_store_same; intros; split; reflexivity
    | match goal with
      | |- leaves_store (if ?b then _ else _) => destruct b
      | |- leaves_store (match ?o with Some _ => _ | None => _ end) =>
          destruct o
      | |- leaves_store (match ?o with inl _ => _ | inr _ => _ end) =>
          destruct o
      | |- leaves_store (match ?o with [] => _ | _ :: _ => _ end) =>
          destruct o
      end ].

Lemma read_leaves_store (E : Env) (r : Request) (w : World) :
  is_read r = true ->
  conversations (handle r w) = conversations w /\
  messages (handle r w) = messages w.
Proof.
  intros Hr.
  destruct r; try discriminate Hr; cbn [handle];
    match goal with
    | |- conversations (final ?m ?w) = _ /\ _ =>
        revert w; change (leaves_store m)
    end.
  - unfold get_conversations. repeat leaves_step.
  - unfold get_conversation, generate_suggestions. repeat leaves_step.
  - unfold query_conversations. repeat leaves_step.
  - unfold get_shared_conversation. repeat leaves_step.
  - unfold export_conversation. repeat leaves_step.
Qed.

(** X3.  The read requests (listing, get, cross-session query, get by share
    token, export in any format) never write: after any sequence of them
    the two collections are what they were, whether the requests returned
    or raised. *)
Theorem reads_leave_store (E : Env) (rs : list Request) (w : World) :
  forallb is_read rs = true ->
  conversations (serve rs w) = conversations w /\
  messages (serve rs w) = messages w.
Proof.
  revert w. induction rs as [|r rs IH]; intros w H; [split; reflexivity|].
  cbn [forallb] in H. apply andb_prop in H. destruct H as [Hr Hrs].
  cbn [serve fold_left]. fold (serve rs (handle r w)).
  destruct (IH (handle r w) Hrs) as [Hc Hm].
  destruct (read_leaves_store E r w Hr) as [Hc' Hm'].
  split; congruence.
Qed.

Lemma reads_leave_store_witness :
  messages (serve (E := sample_env)
              [GetConversation "id-0"; ExportConversation "id-0" "xml";
               QueryConversations "What was said?"; ListConversations]
              world2)
    = messages world2.
Proof.
  exact (proj2 (reads_leave_store sample_env
                  [GetConversation "id-0"; ExportConversation "id-0" "xml";
                   QueryConversations "What was said?"; ListConversations]
                  world2 eq_refl)).
Defined.

(** ** Nothing stored is deleted or rewritten *)

Lemma extends_refl (nc nm : nat) (w : World) : extends nc nm w w.
Proof.
  exists [], []. rewrite !app_nil_r. cbn. repeat split; lia.
Qed.

Lemma extends_trans (a b a' b' : nat) (w1 w2 w3 : World) :
  extends a b w1 w2 -> extends a' b' w2 w3 ->
  extends (a + a') (b + b') w1 w3.
Proof.
  intros (cs & ms & Hc & Hm & Lc & Lm) (cs' & ms' & Hc' & Hm' & Lc' & Lm').
  exists (cs ++ cs')%list, (ms ++ ms')%list.
  rewrite Hc', Hc, Hm', Hm, !app_assoc, !length_app.
  repeat split; lia.
Qed.

Lemma extends_weaken (a b a' b' : nat) (w w' : World) :
  extends a b w w' -> a <= a' -> b <= b' -> extends a' b' w w'.
Proof.
  intros (cs & ms & Hc & Hm & Lc & Lm) Ha Hb.
  exists cs, ms. repeat split; try assumption; lia.
Qed.

Lemma adds_bind {A B : Type} (a b a' b' : nat) (m : M A) (k : A -> M B) :
  adds a b m -> (forall x, adds a' b' (k x)) ->
  adds (a + a') (b + b') (bind m k).
Proof.
  intros Hm Hk w. unfold bind. specialize (Hm w).
  destruct (m w) as [[e|x] w']; cbn [snd] in *.
  - eapply extends_weaken; [exact Hm | lia | lia].
  - eapply extends_trans; [exact Hm | apply Hk].
Qed.

(** A step that adds nothing, a step that inserts a message, a step that
    inserts a conversation. *)
Lemma adds_then {A B : Type} (a b : nat) (m : M A) (k : A -> M B) :
  adds 0 0 m -> (forall x, adds a b (k x)) -> adds a b (bind m k).
Proof. intros Hm Hk. apply (adds_bind 0 0 a b); assumption. Qed.

Lemma adds_message_then {A B : Type} (a b : nat) (m : M A) (k : A -> M B) :
  adds 0 1 m -> (forall x, adds a b (k x)) -> adds a (S b) (bind m k).
Proof. intros Hm Hk. apply (adds_bind 0 1 a b); assumption. Qed.

Lemma adds_conversation_then {A B : Type} (a b : nat) (m : M A)
  (k : A -> M B) :
  adds 1 0 m -> (forall x, adds a b (k x)) -> adds (S a) b (bind m k).
Proof. intros Hm Hk. apply (adds_bind 1 0 a b); assumption. Qed.

Lemma adds_nothing {A : Type} (a b : nat) (m : M A) :
  (forall w,
     map conversation_core (conversations (snd (m w)))
       = map conversation_core (conversations w) /\
     map message_core (messages (snd (m w)))
       = map message_core (messages w)) ->
  adds a b m.
Proof.
  intros H w. destruct (H w) as [Hc Hm]. exists [], [].
  rewrite !app_nil_r. cbn. repeat split; try assumption; lia.
Qed.

Lemma adds_insert_message (d : MessageDoc) :
  adds 0 1 (db.messages.insert_one d).
Proof.
  intros w. exists [], [message_core d]. cbn.
  rewrite map_app, app_nil_r. repeat split; lia.
Qed.

Lemma adds_insert_conversation (d : ConversationDoc) :
  adds 1 0 (db.conversations.insert_one d).
Proof.
  intros w. exists [conversation_core d], []. cbn.
  rewrite map_app, app_nil_r. repeat split; lia.
Qed.

Ltac adds_step :=
  first
    [ apply adds_message_then; [apply adds_insert_message | intros]
    | apply adds_conversation_then;
      [apply adds_insert_conversation | intros]
    | apply adds_then;
      [ apply adds_nothing; intros; cbn [snd conversations messages];
        split;
        first [ reflexivity | apply update_first_map; reflexivity ]
      | intros ]
    | apply adds_then; [solve [repeat adds_step] | intros]
    | apply adds_nothing; intros; split; reflexivity
    | match goal with
      | |- adds _ _ (if ?b then _ else _) => destruct b
      | |- adds _ _ (match ?o with Some _ => _ | None => _ end) =>
          destruct o
      | |- adds _ _ (match ?o with inl _ => _ | inr _ => _ end) =>
          destruct o
      | |- adds _ _ (match ?o with [] => _ | _ :: _ => _ end) =>
          destruct o
      end ].

Lemma handle_extends (E : Env) (r : Request) (w : World) :
  extends 1 2 w (handle r w).
Proof.
  destruct r; cbn [handle];
    match goal with
    | |- extends _ _ ?w (final ?m ?w) => revert w; change (adds 1 2 m)
    end.
  - unfold get_conversations. repeat adds_step.
  - unfold get_conversation, generate_suggestions. repeat adds_step.
  - unfold create_conversation, new_conversation. repeat adds_step.
  - unfold send_message, new_message, call_llm. repeat adds_step.
  - unfold end_conversation. repeat adds_step.
  - unfold query_conversations. repeat adds_step.
  - unfold react_to_message. repeat adds_step.
  - unfold bookmark_message. repeat adds_step.
  - unfold share_conversation. repeat adds_step.
  - unfold get_shared_conversation. repeat adds_step.
  - unfold export_conversation. repeat adds_step.
Qed.

(** X4.  The store is append-only in what identifies a record.  One request
    leaves the id, title and start time of every stored conversation and
    the id, conversation id, role, content and timestamp of every stored
    message as they were and in the same order, and adds at most one
    conversation and at most two messages behind them; after any sequence
    of requests the earlier records are still there, in order, with those
    fields unchanged. *)
Theorem store_append_only (E : Env) (w : World) :
  (forall r, extends 1 2 w (handle r w)) /\
  (forall rs,
     extends (List.length rs) (2 * List.length rs) w (serve rs w)).
Proof.
  split; [intros r; apply handle_extends|].
  intros rs. revert w. induction rs as [|r rs IH]; intros w.
  - apply extends_refl.
  - cbn [serve fold_left]. fold (serve rs (handle r w)).
    eapply extends_weaken;
      [ eapply extends_trans; [apply (handle_extends E r w) | apply IH]
      | cbn [List.length]; lia | cbn [List.length]; lia ].
Qed.

(** ** Ended is terminal *)

Lemma update_first_nth {A : Type} (q : A -> bool) (g : A -> A)
  (l : list A) (i : nat) (c d : A) :
  nth_error l i = Some c -> List.find q l = Some d ->
  nth_error (update_first q g l) i = Some c \/ c = d.
Proof.
  revert i. induction l as [|y t IH]; intros i Hi Hd; [discriminate Hd|].
  cbn [List.find update_first] in *. destruct (q y) eqn:Hy.
  - injection Hd as <-. destruct i as [|i]; cbn [nth_error] in *.
    + right. congruence.
    + left. exact Hi.
  - destruct i as [|i]; cbn [nth_error] in *; [left; exact Hi|].
    apply IH; assumption.
Qed.

(** The store after [end_conversation]: untouched, or one conversation that
    was not ended has been closed. *)
Lemma end_conversation_store (E : Env) (cid : string) (w : World) :
  conversations (final (end_conversation cid) w) = conversations w \/
  exists doc s e,
    stored_conversation w cid = Some doc /\
    Conversation.status doc <> "ended" /\
    conversations (final (end_conversation cid) w)
      = update_first (conv_id_is cid) (Conversation.set_ended s e)
          (conversations w).
Proof.
  unfold end_conversation, stored_conversation. unfold_run.
  destruct (List.find (conv_id_is cid) (conversations w)) as [doc|];
    [|left; reflexivity].
  destruct (String.eqb (Conversation.status doc) "ended") eqn:Hst;
    [left; reflexivity|].
  right. exists doc. unfold_run. apply String.eqb_neq in Hst.
  destruct (fromisoformat (Conversation.start_time doc));
    cbn [snd conversations]; eexists _, _; repeat split; assumption.
Qed.

Lemma ended_stays_ended (E : Env) (r : Request) (w : World) (i : nat)
  (c : ConversationDoc) :
  nth_error (conversations w) i = Some c ->
  Conversation.status c = "ended" ->
  exists c',
    nth_error (conversations (handle r w)) i = Some c' /\
    lifecycle c' = lifecycle c.
Proof.
  intros Hi Hst.
  assert (Hframe :
    map lifecycle (conversations (handle r w))
      = map lifecycle (conversations w) ->
    exists c', nth_error (conversations (handle r w)) i = Some c' /\
               lifecycle c' = lifecycle c).
  { intros Hmap.
    pose proof (nth_error_map lifecycle i (conversations (handle r w)))
      as H1.
    rewrite Hmap, nth_error_map, Hi in H1. cbn in H1.
    destruct (nth_error (conversations (handle r w)) i) as [c'|];
      [|discriminate].
    exists c'. split; [reflexivity|]. cbn in H1. congruence. }
  destruct r;
    try (apply Hframe, lifecycle_frame; intros; discriminate).
  - (* create *)
    exists c. split; [|reflexivity]. cbn [handle].
    unfold create_conversation, new_conversation. unfold_run.
    rewrite nth_error_app1; [exact Hi|].
    apply nth_error_Some. congruence.
  - (* end *)
    cbn [handle].
    destruct (end_conversation_store E conversation_id w)
      as [Hsame|(doc & s & e & Hfind & Hne & Hupd)].
    + exists c. rewrite Hsame. auto.
    + rewrite Hupd.
      destruct (update_first_nth (conv_id_is conversation_id)
                  (Conversation.set_ended s e) (conversations w) i c doc
                  Hi Hfind) as [Hkeep|Heq].
      * exists c. auto.
      * subst doc. contradiction.
Qed.

(** X5.  No request leads out of [ended]: a stored conversation whose
    status is ["ended"] keeps its place in the store, its status, its
    summary and its end time through any sequence of requests. *)
Theorem ended_is_terminal (E : Env) (rs : list Request) (w : World)
  (i : nat) (c : ConversationDoc) :
  nth_error (conversations w) i = Some c ->
  Conversation.status c = "ended" ->
  exists c',
    nth_error (conversations (serve rs w)) i = Some c' /\
    Conversation.status c' = "ended" /\
    Conversation.summary c' = Conversation.summary c /\
    Conversation.end_time c' = Conversation.end_time c.
Proof.
  revert w c. induction rs as [|r rs IH]; intros w c Hi Hst.
  - exists c. auto.
  - cbn [serve fold_left]. fold (serve rs (handle r w)).
    destruct (ended_stays_ended E r w i c Hi Hst) as (c1 & Hi1 & Hl1).
    unfold lifecycle in Hl1. injection Hl1 as Hs1 Hsum1 Hend1.
    destruct (IH (handle r w) c1 Hi1) as (c' & Hi' & Hs' & Hsum' & Hend').
    { congruence. }
    exists c'. repeat split; congruence.
Qed.

Lemma ended_is_terminal_witness :
  exists c',
    nth_error
      (conversations
         (serve (E := sample_env)
            [EndConversation "id-0"; SendMessage "id-0" "again";
             ShareConversation "id-0"; CreateConversation "Next";
             EndConversation "id-7"]
            world4)) 0 = Some c' /\
    Conversation.status c' = "ended" /\
    Conversation.summary c'
      = Some "Error generating summary: gateway timeout" /\
    Conversation.end_time c' = Some "2024-01-01T00:00:00.000006+00:00".
Proof.
  exact (ended_is_terminal sample_env
           [EndConversation "id-0"; SendMessage "id-0" "again";
            ShareConversation "id-0"; CreateConversation "Next";
            EndConversation "id-7"]
           world4 0
           (Conversation.mk "id-0" "Demo" "ended"
              (Some "Error generating summary: gateway timeout")
              "2024-01-01T00:00:00.000001+00:00"
              (Some "2024-01-01T00:00:00.000006+00:00") None)
           eq_refl eq_refl).
Defined.

(** ** Sharing *)

Lemma find_update_first_other {A : Type} (q q' : A -> bool) (g : A -> A)
  (l : list A) (d : A) :
  List.find q l = Some d ->
  (forall x, In x l -> q' x = false) ->
  q' (g d) = true ->
  List.find q' (update_first q g l) = Some (g d).
Proof.
  induction l as [|y t IH]; intros Hd Hno Hyes; [discriminate Hd|].
  cbn [List.find update_first] in *. destruct (q y).
  - injection Hd as ->. cbn [List.find]. rewrite Hyes. reflexivity.
  - cbn [List.find]. rewrite (Hno y (or_introl eq_refl)).
    apply IH; auto. intros x Hx. apply Hno. right. exact Hx.
Qed.

Lemma conv_id_is_eq (cid : string) (c : ConversationDoc) :
  conv_id_is cid c = true -> Conversation.id c = cid.
Proof. apply String.eqb_eq. Qed.

(** What [share_conversation] does to a stored conversation. *)
Lemma share_conversation_stored
  (E : Env) (cid : string) (w : World) (conv : ConversationDoc) :
  stored_conversation w cid = Some conv ->
  share_conversation cid w
    = (inr (uuid4_at (ticks w), "/shared/" ++ uuid4_at (ticks w)),
       mk_world
         (update_first (conv_id_is cid)
            (Conversation.set_share_token (uuid4_at (ticks w)))
            (conversations w))
         (messages w) (llm_calls w) (S (ticks w))).
Proof.
  intros Hfind. unfold share_conversation. unfold_run.
  unfold stored_conversation in Hfind. rewrite Hfind. reflexivity.
Qed.

(** X6.  Sharing a stored conversation returns a token and the path
    ["/shared/"] followed by it, and stores the token on the conversation.
    When no stored conversation carried that token already, fetching by the
    token gives the conversation and the messages that fetching by id
    gives. *)
Theorem share_then_fetch
  (E : Env) (cid : string) (w : World) (conv : ConversationDoc) :
  stored_conversation w cid = Some conv ->
  (forall c, In c (conversations w) ->
             Conversation.share_token c <> Some (uuid4_at (ticks w))) ->
  let tok := uuid4_at (ticks w) in
  let w' := final (share_conversation cid) w in
  result (share_conversation cid) w = inr (tok, "/shared/" ++ tok) /\
  stored_conversation w' cid
    = Some (Conversation.set_share_token tok conv) /\
  forall c msgs s,
    result (get_conversation cid) w' = inr (c, msgs, s) ->
    result (get_shared_conversation tok) w' = inr (c, msgs) /\
    Conversation.share_token c = Some tok.
Proof.
  intros Hfind Hfresh tok w'.
  pose proof (share_conversation_stored E cid w conv Hfind) as Hshare.
  fold tok in Hshare.
  assert (Hid : stored_conversation w' cid
                = Some (Conversation.set_share_token tok conv)).
  { unfold w', final, stored_conversation. rewrite Hshare.
    cbn [snd conversations]. rewrite update_first_find by reflexivity.
    unfold stored_conversation in Hfind. rewrite Hfind. reflexivity. }
  assert (Htok : List.find (share_token_is tok) (conversations w')
                 = Some (Conversation.set_share_token tok conv)).
  { unfold w', final. rewrite Hshare. cbn [snd conversations].
    apply find_update_first_other.
    - exact Hfind.
    - intros x Hx. unfold share_token_is. specialize (Hfresh x Hx).
      destruct (Conversation.share_token x) as [t|]; [|reflexivity].
      apply String.eqb_neq. fold tok in Hfresh. congruence.
    - unfold share_token_is. cbn. apply String.eqb_refl. }
  assert (Hcid : Conversation.id conv = cid).
  { apply conv_id_is_eq. unfold stored_conversation in Hfind.
    apply List.find_some in Hfind. apply Hfind. }
  split; [unfold result; rewrite Hshare; reflexivity|].
  split; [exact Hid|].
  intros c msgs s. unfold get_conversation, get_shared_conversation.
  unfold_run. unfold stored_conversation in Hid. rewrite Hid, Htok.
  unfold_run. cbn [Conversation.id Conversation.set_share_token].
  rewrite Hcid.
  destruct (parse_conversation (Conversation.set_share_token tok conv))
    as [e|c0] eqn:Hp; cbn [fst snd]; [discriminate|].
  unfold_run.
  destruct (traverse parse_message _) as [e|parsed];
    cbn [fst snd]; [discriminate|].
  match goal with
  | |- context [(if ?b then ?m1 else ?m2) ?w0] =>
      destruct ((if b then m1 else m2) w0) as [[e|sugg] w1]
  end; cbn [fst snd]; [discriminate|].
  intros H. injection H as <- <- _. split; [reflexivity|].
  unfold parse_conversation in Hp.
  cbn [Conversation.start_time Conversation.end_time
       Conversation.set_share_token] in Hp.
  destruct (fromisoformat (Conversation.start_time conv)); [discriminate|].
  destruct (Conversation.end_time conv) as [t|].
  - destruct (fromisoformat t); [discriminate|].
    injection Hp as <-. reflexivity.
  - injection Hp as <-. reflexivity.
Qed.

Lemma share_then_fetch_witness :
  result (share_conversation (E := sample_env) "id-0") world4
    = inr ("id-7", "/shared/id-7") /\
  stored_conversation
    (final (share_conversation (E := sample_env) "id-0") world4) "id-0"
    = Some (Conversation.set_share_token "id-7"
              (Conversation.mk "id-0" "Demo" "ended"
                 (Some "Error generating summary: gateway timeout")
                 "2024-01-01T00:00:00.000001+00:00"
                 (Some "2024-01-01T00:00:00.000006+00:00") None)).
Proof.
  destruct (share_then_fetch sample_env "id-0" world4
    (Conversation.mk "id-0" "Demo" "ended"
       (Some "Error generating summary: gateway timeout")
       "2024-01-01T00:00:00.000001+00:00"
       (Some "2024-01-01T00:00:00.000006+00:00") None) eq_refl)
    as (H1 & H2 & _).
  - intros c Hin. vm_compute in Hin.
    destruct Hin as [Hin|[]]; subst c; discriminate.
  - split; [exact H1 | exact H2].
Defined.

Lemma filter_update_first_gone {A : Type} (q q' : A -> bool) (g : A -> A)
  (l : list A) (d : A) :
  filter q' l = [d] -> List.find q l = Some d -> q' (g d) = false ->
  filter q' (update_first q g l) = [].
Proof.
  induction l as [|y t IH]; intros Hf Hd Hg; [discriminate Hd|].
  cbn [List.find update_first filter] in *. destruct (q y) eqn:Hy.
  - injection Hd as ->. cbn [filter]. rewrite Hg.
    assert (Hqd : q' d = true).
    { assert (Hin : In d (filter q' (d :: t)))
        by (cbn [filter]; rewrite Hf; left; reflexivity).
      apply filter_In in Hin. apply Hin. }
    rewrite Hqd in Hf. injection Hf as Hf. exact Hf.
  - cbn [filter]. destruct (q' y) eqn:Hy'.
    + injection Hf as -> Hf. exfalso.
      apply List.find_some in Hd. destruct Hd as [Hin _].
      assert (Hin' : In d (filter q' t))
        by (apply filter_In; split; assumption).
      rewrite Hf in Hin'. contradiction.
    + apply IH; assumption.
Qed.

(** X7.  Sharing again replaces the token: when the conversation was the
    only one carrying its old token and the new token differs, the new
    token is stored and the old one no longer resolves: fetching by it
    raises the 404. *)
Theorem reshare_revokes
  (E : Env) (cid old : string) (w : World) (conv : ConversationDoc) :
  stored_conversation w cid = Some conv ->
  filter (share_token_is old) (conversations w) = [conv] ->
  uuid4_at (ticks w) <> old ->
  let w' := final (share_conversation cid) w in
  stored_conversation w' cid
    = Some (Conversation.set_share_token (uuid4_at (ticks w)) conv) /\
  get_shared_conversation old w'
    = (inl (HTTPException 404 "Shared conversation not found"), w').
Proof.
  intros Hfind Honly Hne w'.
  pose proof (share_conversation_stored E cid w conv Hfind) as Hshare.
  split.
  - unfold w', final, stored_conversation. rewrite Hshare.
    cbn [snd conversations]. rewrite update_first_find by reflexivity.
    unfold stored_conversation in Hfind. rewrite Hfind. reflexivity.
  - assert (Hgone : filter (share_token_is old) (conversations w') = []).
    { unfold w', final. rewrite Hshare. cbn [snd conversations].
      apply (filter_update_first_gone _ _ _ _ conv); try assumption.
      unfold share_token_is. cbn. apply String.eqb_neq. exact Hne. }
    assert (Hnone : List.find (share_token_is old) (conversations w')
                    = None).
    { apply find_absent. intros x Hx.
      destruct (share_token_is old x) eqn:Hq; [|reflexivity].
      assert (Hin : In x (filter (share_token_is old) (conversations w')))
        by (apply filter_In; split; assumption).
      rewrite Hgone in Hin. contradiction. }
    unfold get_shared_conversation. unfold_run. rewrite Hnone. reflexivity.
Qed.

Lemma reshare_revokes_witness :
  get_shared_conversation "id-7"
    (final (share_conversation (E := sample_env) "id-0") world5)
    = (inl (HTTPException 404 "Shared conversation not found"),
       final (share_conversation (E := sample_env) "id-0") world5).
Proof.
  refine (proj2 (reshare_revokes sample_env "id-0" "id-7" world5
    (Conversation.mk "id-0" "Demo" "ended"
       (Some "Error generating summary: gateway timeout")
       "2024-01-01T00:00:00.000001+00:00"
       (Some "2024-01-01T00:00:00.000006+00:00") (Some "id-7"))
    eq_refl eq_refl _)).
  vm_compute. discriminate.
Defined.

(** ** Listing *)

(** X8.  What [get_conversations] returns is ordered newest first by start
    time and holds exactly the first 1000 stored conversations, each once
    and read back from its stored form, so with its id, title, status,
    summary, times and share token.  In a world reachable under a clock
    that gives valid instants it always returns. *)
Theorem get_conversations_newest_first (E : Env) (w : World) :
  (forall l,
     result get_conversations w = inr l ->
     newest_first l /\
     read_back parse_conversation (firstn 1000 (conversations w)) l) /\
  ((forall n, valid_datetime (now_at n)) -> reachable w ->
   exists l, result get_conversations w = inr l).
Proof.
  split.
  - intros l. unfold get_conversations. unfold_run. rewrite filter_true.
    destruct (traverse parse_conversation _) as [e|parsed] eqn:Ht;
      cbn [fst]; [discriminate|].
    intros H. injection H as <-. split.
    + apply (stable_sort_sorted by_start_time_desc (fun _ => True)).
      * intros x y _ _. apply dt_leb_total.
      * intros x y z _ _ _ Hxy Hyz. unfold by_start_time_desc in *.
        eapply dt_leb_trans; eassumption.
      * apply Forall_forall. intros; exact I.
    + apply sorted_read_back, Ht.
  - intros Hclock Hr.
    destruct (timestamps_ok_reachable E w Hclock Hr) as [Hc _].
    unfold get_conversations. unfold_run. rewrite filter_true.
    destruct (traverse_total parse_conversation
                (firstn 1000 (conversations w))) as [parsed Ht].
    { apply Forall_forall. intros c Hin. apply parse_conversation_ok.
      rewrite Forall_forall in Hc. apply Hc. eapply firstn_incl, Hin. }
    rewrite Ht. eexists. reflexivity.
Qed.

Lemma get_conversations_newest_first_witness :
  exists l,
    result get_conversations
      (handle (E := sample_env) (CreateConversation "Next") world4)
      = inr l /\
    map Conversation.title l = ["Next"; "Demo"] /\
    map Conversation.status l = ["active"; "ended"] /\
    newest_first l /\
    read_back parse_conversation
      (firstn 1000
         (conversations
            (handle (E := sample_env) (CreateConversation "Next") world4)))
      l.
Proof.
  assert (Hr : reachable (E := sample_env)
                 (handle (E := sample_env) (CreateConversation "Next")
                    world4))
    by (apply reachable_step, world4_reachable).
  pose proof (get_conversations_newest_first sample_env
                (handle (E := sample_env) (CreateConversation "Next")
                   world4)) as [Hlist Hreturns].
  destruct (Hreturns sample_clock_valid Hr) as [l Hl].
  destruct (Hlist l Hl) as [Hnew Hback].
  exists l. split; [exact Hl|].
  split; [|split; [|split; [exact Hnew | exact Hback]]];
    vm_compute in Hl; injection Hl as <-; reflexivity.
Defined.

(** ** Creating *)

Lemma find_app_absent {A : Type} (q : A -> bool) (l : list A) (d : A) :
  (forall x, In x l -> q x = false) -> q d = true ->
  List.find q (l ++ [d]) = Some d.
Proof.
  induction l as [|y t IH]; intros Hno Hd; cbn [app List.find].
  - rewrite Hd. reflexivity.
  - rewrite (Hno y (or_introl eq_refl)). apply IH; [|exact Hd].
    intros x Hx. apply Hno. right. exact Hx.
Qed.

(** X9.  A conversation just created is found again under its id, with the
    fields [create_conversation] returned: when the drawn id is new to the
    store and the clock reading is a valid instant, [get_conversation]
    returns the created conversation, active, with no messages and no
    suggestions, and neither writes nor calls the gateway. *)
Theorem create_then_get (E : Env) (title : string) (w : World) :
  let cid := uuid4_at (ticks w) in
  let w' := final (create_conversation title) w in
  let conv := Conversation.mk cid title "active" None
                (now_at (S (ticks w))) None None in
  (forall c, In c (conversations w) -> Conversation.id c <> cid) ->
  (forall m, In m (messages w) -> Message.conversation_id m <> cid) ->
  valid_datetime (now_at (S (ticks w))) ->
  result (create_conversation title) w = inr conv /\
  get_conversation cid w' = (inr (conv, [], []), w').
Proof.
  intros cid w' conv Hc Hm Hv.
  assert (Hcreate : create_conversation title w
    = (inr conv,
       mk_world
         (conversations w ++
          [Conversation.with_times (isoformat (now_at (S (ticks w))))
             None conv])%list
         (messages w) (llm_calls w) (S (S (ticks w)))))
    by reflexivity.
  split; [unfold result; rewrite Hcreate; reflexivity|].
  unfold w', final. rewrite Hcreate. cbn [snd].
  unfold get_conversation. unfold_run.
  rewrite find_app_absent;
    [ | intros x Hx; apply String.eqb_neq; auto
      | apply String.eqb_refl ].
  unfold parse_conversation.
  cbn [Conversation.start_time Conversation.end_time
       Conversation.with_times].
  rewrite isoformat_roundtrip by exact Hv. unfold_run.
  rewrite filter_none, firstn_nil;
    [|intros m Hin; apply String.eqb_neq; auto].
  reflexivity.
Qed.

Lemma create_then_get_witness :
  get_conversation (E := sample_env) "id-7"
    (final (create_conversation (E := sample_env) "Next") world4)
    = (inr (Conversation.mk "id-7" "Next" "active" None
              (mk_datetime 2024 1 1 0 0 0 8) None None, [], []),
       final (create_conversation (E := sample_env) "Next") world4).
Proof.
  refine (proj2 (create_then_get sample_env "Next" world4 _ _ _)).
  - intros c Hin. vm_compute in Hin.
    destruct Hin as [Hin|[]]; subst c; vm_compute; discriminate.
  - intros m Hin. vm_compute in Hin.
    destruct Hin as [Hin|[Hin|[]]]; subst m; vm_compute; discriminate.
  - apply sample_clock_valid.
Defined.

(** ** Sending *)

Lemma insert_sorted_last {A : Type} (le : A -> A -> bool) (x u : A)
  (s : list A) :
  le x u = true ->
  insert_sorted le x (s ++ [u]) = (insert_sorted le x s ++ [u])%list.
Proof.
  intros Hx. induction s as [|y t IH]; cbn [app insert_sorted].
  - rewrite Hx. reflexivity.
  - destruct (le x y); [reflexivity|]. rewrite IH. reflexivity.
Qed.

(** An element that nothing in the list exceeds, put last, stays last. *)
Lemma stable_sort_last {A : Type} (le : A -> A -> bool) (l : list A)
  (u : A) :
  (forall x, In x l -> le x u = true) ->
  stable_sort le (l ++ [u]) = (stable_sort le l ++ [u])%list.
Proof.
  induction l as [|x t IH]; intros H; [reflexivity|].
  cbn [app stable_sort]. rewrite IH by (intros y Hy; apply H; right; auto).
  apply insert_sorted_last. apply H. left. reflexivity.
Qed.

Lemma read_after_insert {A : Type} (q : A -> bool) (n : nat) (l : list A)
  (u : A) :
  q u = true -> List.length (filter q l) < n ->
  firstn n (filter q (l ++ [u])) = (filter q l ++ [u])%list.
Proof.
  intros Hu Hlen. rewrite filter_app. cbn [filter]. rewrite Hu.
  apply firstn_all2. rewrite length_app. cbn [List.length]. lia.
Qed.

(** The run of [send_message] on an active conversation whose read holds
    the message just stored, as its latest. *)
Lemma send_message_run
  (E : Env) (cid content : string) (w : World) (conv : ConversationDoc) :
  stored_conversation w cid = Some conv ->
  Conversation.status conv = "active" ->
  List.length (messages_of w cid) < 1000 ->
  (forall m, In m (messages_of w cid) ->
     String.leb (Message.timestamp m) (isoformat (now_at (S (ticks w))))
       = true) ->
  let call := mk_call assistant_system cid content in
  let reply :=
    match gateway (llm_calls w) call with
    | inr text => text
    | inl e => "Error generating response: " ++ e
    end in
  let ai := Message.mk (uuid4_at (S (S (ticks w)))) cid "assistant" reply
              (now_at (S (S (S (ticks w))))) [] false in
  send_message cid content w
    = (inr ai,
       mk_world (conversations w)
         (messages w ++
          [Message.mk (uuid4_at (ticks w)) cid "user" content
             (isoformat (now_at (S (ticks w)))) [] false;
           Message.with_timestamp (isoformat (Message.timestamp ai)) ai])
         (llm_calls w ++ [call])
         (S (S (S (S (ticks w)))))).
Proof.
  intros Hfind Hst Hlen Hlate call reply ai.
  set (u := Message.mk (uuid4_at (ticks w)) cid "user" content
              (isoformat (now_at (S (ticks w)))) [] false).
  unfold messages_of in Hlen, Hlate.
  assert (Hprompt :
    snd (List.last
           (map turn (stable_sort by_timestamp
                        (filter (in_conversation cid) (messages w)
                         ++ @cons MessageDoc u nil)))
           (EmptyString, EmptyString)) = content).
  { rewrite stable_sort_last by (intros m Hm; apply Hlate, Hm).
    rewrite map_app. cbn [map]. rewrite last_last. reflexivity. }
  unfold send_message, new_message, call_llm. unfold_run.
  unfold stored_conversation in Hfind. rewrite Hfind, Hst.
  cbn [String.eqb Ascii.eqb Bool.eqb negb].
  unfold_run.
  set (um := Message.mk (uuid4_at (ticks w)) cid "user" content
               (now_at (S (ticks w))) [] false).
  change (Message.with_timestamp (isoformat (Message.timestamp um)) um)
    with u.
  rewrite read_after_insert by (exact Hlen || apply String.eqb_refl).
  rewrite Hprompt. fold call. subst ai reply.
  destruct (gateway (llm_calls w) call) as [e|text] eqn:Hg;
    cbn [fst snd conversations messages llm_calls ticks];
    rewrite <- app_assoc; reflexivity.
Qed.

(** X10.  On an active conversation with fewer than 1000 stored messages,
    none of them stamped later than the new one, [send_message] sends the
    gateway exactly the content given, in the conversation's own session;
    it returns the assistant message whose content is the gateway's
    response (or the error text), appends the user message and then the
    assistant message to the store, and leaves the conversation as it was,
    still active. *)
Theorem send_message_reply
  (E : Env) (cid content : string) (w : World) (conv : ConversationDoc) :
  stored_conversation w cid = Some conv ->
  Conversation.status conv = "active" ->
  List.length (messages_of w cid) < 1000 ->
  (forall m, In m (messages_of w cid) ->
     String.leb (Message.timestamp m) (isoformat (now_at (S (ticks w))))
       = true) ->
  let call := mk_call assistant_system cid content in
  let reply :=
    match gateway (llm_calls w) call with
    | inr text => text
    | inl e => "Error generating response: " ++ e
    end in
  let w' := final (send_message cid content) w in
  exists ai,
    result (send_message cid content) w = inr ai /\
    Message.role ai = "assistant" /\
    Message.content ai = reply /\
    llm_calls w' = (llm_calls w ++ [call])%list /\
    messages w'
      = (messages w ++
         [Message.mk (uuid4_at (ticks w)) cid "user" content
            (isoformat (now_at (S (ticks w)))) [] false;
          Message.with_timestamp (isoformat (Message.timestamp ai)) ai])%list
    /\
    conversations w' = conversations w.
Proof.
  intros Hfind Hst Hlen Hlate call reply w'.
  pose proof (send_message_run E cid content w conv Hfind Hst Hlen Hlate)
    as Hrun.
  cbv zeta in Hrun. fold call in Hrun. fold reply in Hrun.
  subst w'. unfold result, final. rewrite Hrun. cbn [fst snd].
  eexists. split; [reflexivity|].
  cbn [Message.role Message.content Message.timestamp conversations
       messages llm_calls].
  repeat split; reflexivity.
Qed.

Lemma send_message_reply_witness :
  exists ai,
    result (send_message (E := sample_env) "id-0" "Hello") world1 = inr ai /\
    Message.content ai = "reply to: Hello" /\
    llm_calls (final (send_message (E := sample_env) "id-0" "Hello") world1)
      = [mk_call assistant_system "id-0" "Hello"].
Proof.
  destruct (send_message_reply sample_env "id-0" "Hello" world1
    (Conversation.mk "id-0" "Demo" "active" None
       "2024-01-01T00:00:00.000001+00:00" None None) eq_refl eq_refl)
    as (ai & Hres & _ & Hcontent & Hcalls & _).
  - vm_compute. repeat constructor.
  - intros m Hin. vm_compute in Hin. contradiction.
  - exists ai. split; [exact Hres|]. split; [exact Hcontent|exact Hcalls].
Defined.

(** X11.  Once a conversation holds 1000 messages or more, the message
    [send_message] has just stored is beyond the read it makes: the gateway
    is sent the content of the latest of the first 1000 stored messages,
    whatever text the user sent. *)
Theorem send_message_beyond_cap
  (E : Env) (cid content : string) (w : World) (conv : ConversationDoc) :
  stored_conversation w cid = Some conv ->
  Conversation.status conv = "active" ->
  1000 <= List.length (messages_of w cid) ->
  llm_calls (final (send_message cid content) w)
    = (llm_calls w ++
       [mk_call assistant_system cid
          (snd (List.last
                  (map turn (stable_sort by_timestamp
                               (firstn 1000 (messages_of w cid))))
                  (EmptyString, EmptyString)))])%list.
Proof.
  intros Hfind Hst Hlen.
  unfold send_message, new_message, call_llm. unfold_run.
  unfold stored_conversation in Hfind. rewrite Hfind, Hst.
  cbn [String.eqb Ascii.eqb Bool.eqb negb]. unfold_run.
  rewrite filter_app, firstn_app.
  fold (messages_of w cid).
  replace (1000 - List.length (messages_of w cid)) with 0 by lia.
  rewrite firstn_O, app_nil_r.
  destruct (gateway _ _); reflexivity.
Qed.

Lemma send_message_beyond_cap_witness :
  llm_calls (final (send_message (E := sample_env) "id-0" "Anyone there?")
               crowded_world)
    = [mk_call assistant_system "id-0" "old"].
Proof.
  rewrite (send_message_beyond_cap sample_env "id-0" "Anyone there?"
             crowded_world
             (Conversation.mk "id-0" "Demo" "active" None
                "2024-01-01T00:00:00.000001+00:00" None None)
             eq_refl eq_refl).
  - vm_compute. reflexivity.
  - vm_compute. repeat constructor.
Defined.

(** ** Ending, whatever the gateway does *)

(** X12.  In a world reachable under a clock that gives valid instants,
    [end_conversation] on a stored conversation that is not ended always
    returns, whether the gateway answers or fails and however many
    messages there are: it makes one gateway call in the session
    ["summary_"] followed by the id, and returns and stores status
    ["ended"], the clock reading as end time and, as summary, the
    gateway's text or ["Error generating summary: "] followed by the
    exception's text.  With no message stored the prompt is the bare
    instruction. *)
Theorem end_conversation_always_ends
  (E : Env) (cid : string) (w : World) (conv : ConversationDoc) :
  (forall n, valid_datetime (now_at n)) ->
  reachable w ->
  stored_conversation w cid = Some conv ->
  Conversation.status conv <> "ended" ->
  let w' := final (end_conversation cid) w in
  exists ended call,
    result (end_conversation cid) w = inr ended /\
    llm_calls w' = (llm_calls w ++ [call])%list /\
    system_message call = summary_system /\
    session_id call = "summary_" ++ cid /\
    (messages_of w cid = [] ->
     prompt call
       = "Summarize this conversation in 2-3 sentences:" ++ nl ++ nl) /\
    Conversation.status ended = "ended" /\
    Conversation.summary ended
      = Some (match gateway (llm_calls w) call with
              | inr text => text
              | inl e => "Error generating summary: " ++ e
              end) /\
    Conversation.end_time ended = Some (now_at (ticks w)) /\
    stored_conversation w' cid
      = Some (Conversation.set_ended
                (match gateway (llm_calls w) call with
                 | inr text => text
                 | inl e => "Error generating summary: " ++ e
                 end)
                (isoformat (now_at (ticks w))) conv) /\
    messages w' = messages w.
Proof.
  intros Hclock Hr Hfind Hst w'.
  destruct (timestamps_ok_reachable E w Hclock Hr) as [Hc _].
  assert (Hok : conversation_ok conv).
  { rewrite Forall_forall in Hc. apply Hc.
    unfold stored_conversation in Hfind.
    apply List.find_some in Hfind. apply Hfind. }
  destruct Hok as [(d & Hd & Hstart) _].
  subst w'. unfold end_conversation. unfold_run.
  unfold stored_conversation in *. rewrite Hfind.
  apply String.eqb_neq in Hst. rewrite Hst. unfold_run.
  rewrite Hstart, isoformat_roundtrip by exact Hd.
  cbn [fst snd conversations messages llm_calls ticks].
  eexists _, _. split; [reflexivity|]. split; [reflexivity|].
  cbn [system_message session_id prompt Conversation.status
       Conversation.summary Conversation.end_time Conversation.set_ended].
  split; [reflexivity|]. split; [reflexivity|]. split.
  { intros Hnone. unfold messages_of in Hnone. rewrite Hnone.
    rewrite firstn_nil. reflexivity. }
  split; [reflexivity|]. split; [reflexivity|]. split; [reflexivity|].
  split; [|reflexivity].
  rewrite update_first_find by reflexivity. rewrite Hfind. reflexivity.
Qed.

Lemma end_conversation_always_ends_witness :
  exists ended,
    result (end_conversation (E := sample_env) "id-0") world1 = inr ended /\
    Conversation.summary ended
      = Some "Error generating summary: gateway timeout".
Proof.
  assert (Hr : reachable (E := sample_env) world1)
    by (apply reachable_step, reachable_empty).
  destruct (end_conversation_always_ends sample_env "id-0" world1
    (Conversation.mk "id-0" "Demo" "active" None
       "2024-01-01T00:00:00.000001+00:00" None None)
    sample_clock_valid Hr eq_refl)
    as (ended & call & Hres & Hcalls & _ & _ & _ & _ & Hsum & _).
  - discriminate.
  - exists ended. split; [exact Hres|]. rewrite Hsum.
    cbn in Hcalls. injection Hcalls as <-. reflexivity.
Defined.

(** ** What the query refers to *)

(** X13.  [query_conversations] never raises.  Its references are at most
    five, each a stored conversation whose status is ["ended"], and its
    suggestions are always empty; when the gateway fails the answer is
    ["Error processing query: "] followed by the exception's text and the
    references are returned all the same. *)
Theorem query_conversations_references
  (E : Env) (query : string) (w : World) :
  exists response,
    result (query_conversations query) w = inr response /\
    List.length (relevant_conversations response) <= 5 /\
    (forall c, In c (relevant_conversations response) ->
       In c (conversations w) /\ Conversation.status c = "ended") /\
    suggestions response = [] /\
    (ended_conversations w <> [] ->
     forall call e,
       llm_calls (final (query_conversations query) w)
         = (llm_calls w ++ [call])%list ->
       gateway (llm_calls w) call = inl e ->
       answer response = "Error processing query: " ++ e /\
       relevant_conversations response
         = firstn 5 (ended_conversations w)).
Proof.
  assert (Hrefs : forall c,
    In c (firstn 5 (firstn 1000 (ended_conversations w))) ->
    In c (conversations w) /\ Conversation.status c = "ended").
  { intros c Hin. apply firstn_incl, firstn_incl in Hin.
    apply filter_In in Hin. destruct Hin as [Hin Hst].
    split; [exact Hin | apply String.eqb_eq, Hst]. }
  unfold query_conversations, ended_conversations in *. unfold_run.
  destruct (firstn 1000 (filter (status_is "ended") (conversations w)))
    as [|c t] eqn:Hread.
  - eexists. split; [reflexivity|]. cbn. split; [lia|].
    split; [tauto|]. split; [reflexivity|].
    intros Hne. exfalso. apply Hne.
    destruct (filter (status_is "ended") (conversations w)) as [|x l];
      [reflexivity | discriminate Hread].
  - unfold_run. eexists. split; [reflexivity|].
    cbn [relevant_conversations suggestions answer].
    split; [apply firstn_le_length|]. split; [exact Hrefs|].
    split; [reflexivity|].
    intros _ call e Hcalls Hg. apply app_inv_head in Hcalls.
    pose proof (f_equal (fun l => List.hd call l) Hcalls) as Hcall.
    cbn [List.hd] in Hcall. rewrite <- Hcall in Hg. rewrite Hg.
    split; [reflexivity|].
    rewrite <- Hread. apply firstn_firstn_le. lia.
Qed.

Lemma query_conversations_references_witness :
  exists response,
    result (query_conversations (E := failing_env) "Anything?") world4
      = inr response /\
    answer response = "Error processing query: connection refused" /\
    map Conversation.id (relevant_conversations response) = ["id-0"].
Proof.
  destruct (query_conversations_references failing_env "Anything?" world4)
    as (response & Hres & _ & _ & _ & Hfail).
  exists response. split; [exact Hres|].
  destruct (Hfail ltac:(vm_compute; discriminate)
              (mk_call query_system "query_id-7"
                 ("Past conversations:" ++ nl ++ nl ++
                  "Conversation 1 (Title: Demo):" ++ nl ++
                  "Error generating summary: gateway timeout" ++ nl ++ nl ++
                  "User question: Anything?" ++ nl ++ nl ++
                  "Provide a clear answer:"))
              "connection refused" eq_refl eq_refl) as [Ha Hr].
  split; [exact Ha|]. rewrite Hr. reflexivity.
Defined.

(** ** What the suggestion generator sees *)

Lemma last_n_app {A : Type} (n : nat) (older recent : list A) :
  List.length recent = n -> last_n n (older ++ recent) = recent.
Proof.
  intros H. unfold last_n. rewrite length_app, H.
  replace (List.length older + n - n) with (List.length older + 0) by lia.
  rewrite skipn_app, Nat.add_0_r, skipn_all.
  replace (List.length older - List.length older) with 0 by lia.
  reflexivity.
Qed.

(** X14.  Only the last three turns of a history reach the gateway: two
    histories of three turns or more that end in the same three turns make
    [generate_suggestions] behave the same, call and result. *)
Theorem suggestions_from_last_three
  (E : Env) (older older' recent : list (string * string)) (w : World) :
  List.length recent = 3 ->
  generate_suggestions (older ++ recent) w
    = generate_suggestions (older' ++ recent) w.
Proof.
  intros H3.
  assert (Hbody : forall pre,
    generate_suggestions (pre ++ recent) w
    = (u <- uuid4 ;;
       r <- chat_send_message suggestions_system ("suggestions_" ++ u)
              ("Recent conversation:" ++ nl ++
               (join nl (map turn_line recent)) ++ nl ++ nl ++
               "Generate 3 relevant follow-up questions:") ;;
       match r with
       | inr response => ret (firstn 3 (parse_suggestions response))
       | inl _ => ret []
       end) w).
  { intros pre. unfold generate_suggestions.
    assert (Hlen : (3 <=? List.length (pre ++ recent)) = true)
      by (apply Nat.leb_le; rewrite length_app; lia).
    rewrite Hlen, (last_n_app 3 pre recent H3).
    destruct (pre ++ recent)%list as [|x t] eqn:Hl; [|reflexivity].
    apply (f_equal (@List.length _)) in Hl. rewrite length_app in Hl.
    cbn in Hl. lia. }
  rewrite (Hbody older), (Hbody older'). reflexivity.
Qed.

Lemma suggestions_from_last_three_witness :
  generate_suggestions (E := sample_env)
    ([("user", "one"); ("assistant", "two")] ++
     [("user", "a"); ("assistant", "b"); ("user", "c")]) empty_world
  = generate_suggestions (E := sample_env)
      ([] ++ [("user", "a"); ("assistant", "b"); ("user", "c")]) empty_world.
Proof.
  exact (suggestions_from_last_three sample_env
           [("user", "one"); ("assistant", "two")] []
           [("user", "a"); ("assistant", "b"); ("user", "c")]
           empty_world eq_refl).
Defined.

(** ** Suggestions on a read *)

(** X15.  [get_conversation] asks for suggestions only for an active
    conversation with at least one message.  For a conversation that is
    not active, or has no message, a returning read gives no suggestions,
    draws no identifier and leaves the gateway log as it was; for an
    active one with messages it makes exactly one gateway call, in a
    session named ["suggestions_"] and a fresh identifier. *)
Theorem get_conversation_suggestions
  (E : Env) (cid : string) (w : World)
  (c : Conversation.t datetime) (msgs : list (Message.t datetime))
  (s : list string) :
  result (get_conversation cid) w = inr (c, msgs, s) ->
  ((Conversation.status c <> "active" \/ msgs = []) ->
   s = [] /\ final (get_conversation cid) w = w) /\
  (Conversation.status c = "active" -> msgs <> [] ->
   exists call,
     llm_calls (final (get_conversation cid) w)
       = (llm_calls w ++ [call])%list /\
     session_id call = "suggestions_" ++ uuid4_at (ticks w) /\
     List.length s <= 3).
Proof.
  unfold get_conversation. unfold_run.
  destruct (List.find (conv_id_is cid) (conversations w)) as [conv|];
    [|discriminate].
  destruct (parse_conversation conv) as [e|c0]; cbn [fst snd];
    [discriminate|].
  unfold_run.
  destruct (traverse parse_message _) as [e|parsed]; cbn [fst snd];
    [discriminate|].
  set (sorted := stable_sort by_parsed_timestamp parsed).
  destruct (String.eqb_spec (Conversation.status c0) "active")
    as [Hact|Hact];
    destruct sorted as [|m0 rest] eqn:Hsorted; cbn [andb negb List.length
      Nat.eqb].
  - unfold_run. intros H. injection H as <- <- <-.
    split; [intros _; split; [reflexivity | destruct w; reflexivity]|].
    intros _ Hne. contradiction.
  - unfold generate_suggestions. cbn [map]. unfold_run.
    destruct (gateway _ _) as [e|response]; cbn [fst snd];
      intros H; injection H as <- <- <-;
      (split; [intros [Hn|Hn]; [contradiction | discriminate]|]);
      intros _ _; eexists; cbn [llm_calls session_id];
      (split; [reflexivity|]); (split; [reflexivity|]).
    + cbn. lia.
    + exact (firstn_le_length 3 (parse_suggestions response)).
  - unfold_run. intros H. injection H as <- <- <-.
    split; [intros _; split; [reflexivity | destruct w; reflexivity]|].
    intros Hyes. contradiction.
  - unfold_run. intros H. injection H as <- <- <-.
    split; [intros _; split; [reflexivity | destruct w; reflexivity]|].
    intros Hyes. contradiction.
Qed.

Lemma get_conversation_suggestions_witness :
  final (get_conversation (E := sample_env) "id-0") world4 = world4 /\
  exists call,
    llm_calls (final (get_conversation (E := sample_env) "id-0") world3)
      = (llm_calls world3 ++ [call])%list.
Proof.
  split.
  - destruct (result (get_conversation (E := sample_env) "id-0") world4)
      as [e|[[c msgs] s]] eqn:Hres; [vm_compute in Hres; discriminate|].
    refine (proj2 (proj1 (get_conversation_suggestions sample_env "id-0"
                            world4 c msgs s Hres) _)).
    left. vm_compute in Hres. injection Hres as <- _ _. discriminate.
  - destruct (result (get_conversation (E := sample_env) "id-0") world3)
      as [e|[[c msgs] s]] eqn:Hres; [vm_compute in Hres; discriminate|].
    destruct (proj2 (get_conversation_suggestions sample_env "id-0"
                       world3 c msgs s Hres)) as (call & Hcall & _).
    + vm_compute in Hres. injection Hres as <- _ _. reflexivity.
    + vm_compute in Hres. injection Hres as _ <- _. discriminate.
    + exists call. exact Hcall.
Defined.

(** ** What a reaction changes *)

Lemma remove_first_other (r x : string) (l : list string) :
  x <> r -> (In x (remove_first r l) <-> In x l).
Proof.
  intros Hne. induction l as [|y t IH]; cbn [remove_first]; [tauto|].
  destruct (String.eqb_spec r y) as [->|Hry]; cbn [In].
  - split; [auto|]. intros [H|H]; [congruence | exact H].
  - rewrite IH. tauto.
Qed.

(** X16.  [react_to_message] flips the presence of the symbol and of
    nothing else: in a reachable world the list it returns and stores for
    a stored message holds the symbol exactly when the message did not,
    holds every other symbol exactly when the message did, and holds no
    symbol twice. *)
Theorem react_flips_one_symbol
  (E : Env) (message_id reaction : string) (w : World) (m : MessageDoc) :
  reachable w ->
  stored_message w message_id = Some m ->
  exists rs,
    result (react_to_message message_id reaction) w = inr rs /\
    stored_message (final (react_to_message message_id reaction) w)
      message_id = Some (Message.set_reactions rs m) /\
    (In reaction rs <-> ~ In reaction (Message.reactions m)) /\
    (forall x, x <> reaction ->
       (In x rs <-> In x (Message.reactions m))) /\
    NoDup rs.
Proof.
  intros Hr Hfind.
  assert (Hnd : NoDup (Message.reactions m)).
  { pose proof (reactions_NoDup_reachable E w Hr) as H.
    rewrite Forall_forall in H. apply H.
    apply List.find_some in Hfind. apply Hfind. }
  destruct (react_to_message_stored E message_id reaction w m Hfind)
    as [Hres Hst].
  eexists. split; [exact Hres|]. split; [exact Hst|].
  split; [|split].
  - unfold toggle_reaction. destruct (mem reaction (Message.reactions m))
      eqn:Hm.
    + apply mem_In in Hm.
      destruct (remove_first_NoDup reaction _ Hnd) as [_ Hnot]. tauto.
    + apply mem_not_In in Hm. split; [tauto|]. intros _.
      apply in_or_app. right. left. reflexivity.
  - intros x Hx. unfold toggle_reaction.
    destruct (mem reaction (Message.reactions m)).
    + apply remove_first_other, Hx.
    + rewrite in_app_iff. cbn [In]. split; [|tauto].
      intros [H|[H|[]]]; [exact H | congruence].
  - apply toggle_reaction_NoDup, Hnd.
Qed.

Lemma react_flips_one_symbol_witness :
  exists rs,
    result (react_to_message "id-2" "+1") world4 = inr rs /\
    ~ In "+1" rs.
Proof.
  destruct (react_flips_one_symbol sample_env "id-2" "+1" world4
    (Message.mk "id-2" "id-0" "user" "Hello"
       "2024-01-01T00:00:00.000003+00:00" ["+1"] false)
    world4_reachable eq_refl) as (rs & Hres & _ & Hflip & _).
  exists rs. split; [exact Hres|]. intros Hin.
  apply Hflip in Hin. apply Hin. left. reflexivity.
Defined.

(** ** A closed conversation takes no more messages *)

Lemma handle_keeps_messages (E : Env) (r : Request) (w : World) :
  (forall c x, r <> SendMessage c x) ->
  map message_core (messages (handle r w)) = map message_core (messages w).
Proof.
  intros Hsend.
  assert (H : extends 1 0 w (handle r w)).
  { destruct r; cbn [handle];
      try (exfalso; eapply Hsend; reflexivity);
      match goal with
      | |- extends _ _ ?w (final ?m ?w) => revert w; change (adds 1 0 m)
      end.
    - unfold get_conversations. repeat adds_step.
    - unfold get_conversation, generate_suggestions. repeat adds_step.
    - unfold create_conversation, new_conversation. repeat adds_step.
    - unfold end_conversation. repeat adds_step.
    - unfold query_conversations. repeat adds_step.
    - unfold react_to_message. repeat adds_step.
    - unfold bookmark_message. repeat adds_step.
    - unfold share_conversation. repeat adds_step.
    - unfold get_shared_conversation. repeat adds_step.
    - unfold export_conversation. repeat adds_step. }
  destruct H as (cs & ms & _ & Hm & _ & Hlen).
  destruct ms; [|cbn in Hlen; lia]. rewrite app_nil_r in Hm. exact Hm.
Qed.

(** The store after [send_message]: what was there, then the messages it
    inserted, all of the conversation addressed; none when the conversation
    is missing or not active. *)
Lemma send_message_store (E : Env) (cid content : string) (w : World) :
  exists new,
    messages (final (send_message cid content) w)
      = (messages w ++ new)%list /\
    Forall (fun m => Message.conversation_id m = cid) new /\
    (forall c, stored_conversation w cid = Some c ->
               Conversation.status c <> "active" -> new = []).
Proof.
  unfold send_message, new_message, call_llm, stored_conversation.
  unfold_run.
  destruct (List.find (conv_id_is cid) (conversations w)) as [conv|].
  - destruct (String.eqb_spec (Conversation.status conv) "active")
      as [Hact|Hact]; cbn [negb].
    + unfold_run. destruct (gateway _ _); cbn [snd messages];
        eexists; rewrite <- app_assoc;
        (split; [reflexivity|]);
        (split; [repeat constructor|]);
        intros c Hc Hne; injection Hc as <-; contradiction.
    + exists []. rewrite app_nil_r. cbn [snd].
      repeat split; auto.
  - exists []. rewrite app_nil_r. cbn [snd]. repeat split; auto.
Qed.

Lemma find_map_eq {A B : Type} (q : A -> bool) (q0 : B -> bool)
  (g : A -> B) (l l' : list A) (c : A) :
  (forall x, q x = q0 (g x)) ->
  map g l' = map g l -> List.find q l = Some c ->
  exists c', List.find q l' = Some c' /\ g c' = g c.
Proof.
  intros Hq. revert l'. induction l as [|y t IH]; intros l' Hmap Hc;
    [discriminate Hc|].
  destruct l' as [|y' t']; [discriminate Hmap|].
  cbn [map] in Hmap. injection Hmap as Hy Ht.
  cbn [List.find] in *. rewrite (Hq y'), Hy, <- (Hq y).
  destruct (q y).
  - injection Hc as <-. exists y'. auto.
  - apply IH; assumption.
Qed.

Lemma find_app_found {A : Type} (q : A -> bool) (l l' : list A) (c : A) :
  List.find q l = Some c -> List.find q (l ++ l') = Some c.
Proof.
  induction l as [|y t IH]; cbn [app List.find]; [discriminate|].
  destruct (q y); auto.
Qed.

Lemma find_update_first_apart {A : Type} (q q' : A -> bool) (g : A -> A)
  (l : list A) :
  (forall x, q' x = true -> q x = false /\ q (g x) = false) ->
  List.find q (update_first q' g l) = List.find q l.
Proof.
  intros H. induction l as [|y t IH]; [reflexivity|].
  cbn [update_first List.find]. destruct (q' y) eqn:Hy.
  - destruct (H y Hy) as [H1 H2]. cbn [List.find]. rewrite H1, H2.
    reflexivity.
  - cbn [List.find]. rewrite IH. reflexivity.
Qed.

Lemma stored_ended_stays (E : Env) (r : Request) (w : World)
  (cid : string) (c : ConversationDoc) :
  stored_conversation w cid = Some c ->
  Conversation.status c = "ended" ->
  exists c',
    stored_conversation (handle r w) cid = Some c' /\
    Conversation.status c' = "ended".
Proof.
  intros Hfind Hst.
  assert (Hbody :
    map conversation_body (conversations (handle r w))
      = map conversation_body (conversations w) ->
    exists c', stored_conversation (handle r w) cid = Some c' /\
               Conversation.status c' = "ended").
  { intros Hmap.
    destruct (find_map_eq (conv_id_is cid)
                (fun b => String.eqb (fst (fst (fst (fst (fst b))))) cid)
                conversation_body _ _ c (fun x => eq_refl) Hmap Hfind)
      as (c' & Hc' & Hb).
    exists c'. split; [exact Hc'|].
    unfold conversation_body in Hb. injection Hb as _ _ Hs _ _ _.
    congruence. }
  destruct r;
    try (apply Hbody;
         apply (preserves_handlers (map conversation_body));
         [ intros; discriminate | intros; discriminate
         | intros tok q l; apply update_first_map; reflexivity ]).
  - (* create *)
    exists c. split; [|exact Hst]. cbn [handle].
    unfold create_conversation, new_conversation, stored_conversation.
    unfold_run. apply find_app_found, Hfind.
  - (* end *)
    cbn [handle].
    destruct (end_conversation_store E conversation_id w)
      as [Hsame|(doc & s & e & Hdoc & Hne & Hupd)].
    + exists c. unfold stored_conversation in *. rewrite Hsame. auto.
    + exists c. split; [|exact Hst].
      unfold stored_conversation in *. rewrite Hupd.
      rewrite find_update_first_apart; [exact Hfind|].
      intros x Hx. apply conv_id_is_eq in Hx.
      assert (Hdiff : conversation_id <> cid).
      { intros ->. rewrite Hfind in Hdoc. injection Hdoc as <-.
        contradiction. }
      unfold conv_id_is. cbn [Conversation.id Conversation.set_ended].
      rewrite Hx. split; apply String.eqb_neq; exact Hdiff.
Qed.

Lemma messages_of_core (w w' : World) (cid : string) :
  map message_core (messages w') = map message_core (messages w) ->
  map message_core (messages_of w' cid)
    = map message_core (messages_of w cid).
Proof.
  unfold messages_of. generalize (messages w) (messages w').
  intros l. induction l as [|y t IH]; intros [|y' t'] H;
    try discriminate H; [reflexivity|].
  cbn [map] in H. injection H as Hid Hc Hrole Hcontent Hts Ht.
  cbn [filter].
  assert (Hy : message_core y' = message_core y)
    by (unfold message_core; congruence).
  assert (Hq : in_conversation cid y' = in_conversation cid y)
    by (unfold in_conversation; rewrite Hc; reflexivity).
  rewrite Hq. destruct (in_conversation cid y); cbn [map];
    rewrite (IH t' Ht); [rewrite Hy|]; reflexivity.
Qed.

(** X17.  Once the conversation stored under an id is ended, no sequence
    of requests adds a message to it or rewrites one: the messages stored
    for that id keep their number, order, ids, roles, contents and
    timestamps. *)
Theorem ended_takes_no_messages
  (E : Env) (rs : list Request) (w : World) (cid : string)
  (c : ConversationDoc) :
  stored_conversation w cid = Some c ->
  Conversation.status c = "ended" ->
  map message_core (messages_of (serve rs w) cid)
    = map message_core (messages_of w cid).
Proof.
  revert w c. induction rs as [|r rs IH]; intros w c Hfind Hst;
    [reflexivity|].
  cbn [serve fold_left]. fold (serve rs (handle r w)).
  destruct (stored_ended_stays E r w cid c Hfind Hst) as (c' & Hc' & Hst').
  rewrite (IH (handle r w) c' Hc' Hst').
  assert (Hother : (forall c0 x, r <> SendMessage c0 x) ->
    map message_core (messages_of (handle r w) cid)
      = map message_core (messages_of w cid)).
  { intros Hns. apply messages_of_core, handle_keeps_messages, Hns. }
  destruct r; try (apply Hother; intros; discriminate).
  cbn [handle].
  destruct (send_message_store E conversation_id content w)
    as (new & Hnew & Hall & Hclosed).
  unfold messages_of. rewrite Hnew, filter_app.
  assert (Hnone : filter (in_conversation cid) new = []).
  { destruct (String.eqb_spec conversation_id cid) as [->|Hdiff].
    - rewrite (Hclosed c Hfind); [reflexivity|].
      rewrite Hst. discriminate.
    - apply filter_none. intros m Hm. rewrite Forall_forall in Hall.
      unfold in_conversation. rewrite (Hall m Hm).
      apply String.eqb_neq, Hdiff. }
  rewrite Hnone, app_nil_r. reflexivity.
Qed.

Lemma ended_takes_no_messages_witness :
  map Message.content
    (messages_of
       (serve (E := sample_env)
          [SendMessage "id-0" "one more"; EndConversation "id-0";
           CreateConversation "Next"; SendMessage "id-7" "elsewhere"]
          world4) "id-0")
    = ["Hello"; "reply to: Hello"].
Proof.
  pose proof (ended_takes_no_messages sample_env
    [SendMessage "id-0" "one more"; EndConversation "id-0";
     CreateConversation "Next"; SendMessage "id-7" "elsewhere"]
    world4 "id-0"
    (Conversation.mk "id-0" "Demo" "ended"
       (Some "Error generating summary: gateway timeout")
       "2024-01-01T00:00:00.000001+00:00"
       (Some "2024-01-01T00:00:00.000006+00:00") None)
    eq_refl eq_refl) as H.
  apply (f_equal (map (fun k => snd (fst k)))) in H.
  rewrite !map_map in H. exact H.
Defined.

(** ** Store order is the order of time *)

Lemma advances_bind {A B : Type} (m : M A) (k : A -> M B) :
  advances m -> (forall a, advances (k a)) -> advances (bind m k).
Proof.
  intros Hm Hk w. unfold bind. specialize (Hm w).
  destruct (m w) as [[e|a] w']; cbn [snd] in *; [exact Hm|].
  specialize (Hk a w'). lia.
Qed.

Lemma advances_step {A : Type} (m : M A) :
  (forall w, ticks w <= ticks (snd (m w))) -> advances m.
Proof. intros H. exact H. Qed.

Ltac advances_step_tac :=
  first
    [ apply advances_bind; [|intros]
    | apply advances_step; intros;
      first [exact (Nat.le_refl _) | exact (Nat.le_succ_diag_r _)]
    | match goal with
      | |- advances (if ?b then _ else _) => destruct b
      | |- advances (match ?o with Some _ => _ | None => _ end) =>
          destruct o
      | |- advances (match ?o with inl _ => _ | inr _ => _ end) =>
          destruct o
      | |- advances (match ?o with [] => _ | _ :: _ => _ end) =>
          destruct o
      end ].

Lemma handle_advances (E : Env) (r : Request) (w : World) :
  ticks w <= ticks (handle r w).
Proof.
  destruct r; cbn [handle];
    match goal with
    | |- ticks ?w <= ticks (final ?m ?w) => revert w; change (advances m)
    end.
  - unfold get_conversations. repeat advances_step_tac.
  - unfold get_conversation, generate_suggestions.
    repeat advances_step_tac.
  - unfold create_conversation, new_conversation.
    repeat advances_step_tac.
  - unfold send_message, new_message, call_llm. repeat advances_step_tac.
  - unfold end_conversation. repeat advances_step_tac.
  - unfold query_conversations. repeat advances_step_tac.
  - unfold react_to_message. repeat advances_step_tac.
  - unfold bookmark_message. repeat advances_step_tac.
  - unfold share_conversation. repeat advances_step_tac.
  - unfold get_shared_conversation. repeat advances_step_tac.
  - unfold export_conversation. repeat advances_step_tac.
Qed.

(** The messages [send_message] inserts and the draws that stamp them. *)
Lemma send_message_stamps (E : Env) (cid content : string) (w : World) :
  messages (final (send_message cid content) w) = messages w \/
  exists u a,
    messages (final (send_message cid content) w)
      = (messages w ++ [u; a])%list /\
    Message.timestamp u = isoformat (now_at (S (ticks w))) /\
    Message.timestamp a = isoformat (now_at (S (S (S (ticks w))))) /\
    ticks (final (send_message cid content) w) = S (S (S (S (ticks w)))).
Proof.
  unfold send_message, new_message, call_llm. unfold_run.
  destruct (List.find (conv_id_is cid) (conversations w)) as [conv|];
    [|left; reflexivity].
  destruct (negb (String.eqb (Conversation.status conv) "active"));
    [left; reflexivity|].
  right. unfold_run.
  destruct (gateway _ _); cbn [snd messages ticks];
    eexists _, _; rewrite <- app_assoc; repeat split; reflexivity.
Qed.

Lemma Forall2_timestamps (E : Env) (l l' : list MessageDoc)
  (ks : list nat) :
  map message_core l' = map message_core l ->
  Forall2 (fun m k => Message.timestamp m = isoformat (now_at k)) l ks ->
  Forall2 (fun m k => Message.timestamp m = isoformat (now_at k)) l' ks.
Proof.
  intros Hmap H. revert l' Hmap.
  induction H as [|m k t ks Hm Ht IH]; intros [|m' t'] Hmap;
    try discriminate Hmap; [constructor|].
  cbn [map] in Hmap. injection Hmap as _ _ _ _ Hts Htail.
  constructor; [congruence | apply IH, Htail].
Qed.

Lemma StronglySorted_snoc2 (ks : list nat) (n a b : nat) :
  StronglySorted lt ks -> Forall (fun k => k < n) ks ->
  n <= a -> a < b ->
  StronglySorted lt (ks ++ [a; b]).
Proof.
  intros Hs Hn Ha Hb. induction Hs as [|k t Hs IH Hk]; cbn [app].
  - repeat constructor. exact Hb.
  - inversion Hn as [|? ? Hkn Htn]; subst.
    constructor; [apply IH, Htn|].
    apply Forall_app. split; [exact Hk|].
    repeat constructor; lia.
Qed.

Lemma stamped_reachable (E : Env) (w : World) :
  reachable w -> exists ks, stamped_by (ticks w) (messages w) ks.
Proof.
  induction 1 as [|r w Hr [ks (H2 & Hs & Hn)]].
  - exists []. repeat split; constructor.
  - pose proof (handle_advances E r w) as Hadv.
    assert (Hsame :
      map message_core (messages (handle r w))
        = map message_core (messages w) ->
      exists ks', stamped_by (ticks (handle r w)) (messages (handle r w))
                    ks').
    { intros Hmap. exists ks. split; [|split].
      - eapply Forall2_timestamps; eassumption.
      - exact Hs.
      - eapply Forall_impl; [|exact Hn]. cbn. intros k Hk. lia. }
    destruct r;
      try (apply Hsame, handle_keeps_messages; intros; discriminate).
    cbn [handle] in *.
    destruct (send_message_stamps E conversation_id content w)
      as [Hnone|(u & a & Hmsgs & Hu & Ha & Hticks)].
    + apply Hsame. rewrite Hnone. reflexivity.
    + exists (ks ++ [S (ticks w); S (S (S (ticks w)))])%list.
      rewrite Hmsgs, Hticks. split; [|split].
      * apply Forall2_app; [exact H2|]. repeat constructor; assumption.
      * apply (StronglySorted_snoc2 ks (ticks w)); auto; lia.
      * apply Forall_app. split.
        -- eapply Forall_impl; [|exact Hn]. cbn. intros k Hk. lia.
        -- repeat constructor; lia.
Qed.

Lemma stamped_before (E : Env) (n : nat) (l : list MessageDoc)
  (ks : list nat) (m : MessageDoc) (j : nat) :
  (forall i, valid_datetime (now_at i)) ->
  monotone_clock ->
  stamped_by n l ks -> In m l -> n <= j ->
  String.leb (Message.timestamp m) (isoformat (now_at j)) = true.
Proof.
  intros Hvalid Hmono (H2 & _ & Hn) Hin Hj.
  induction H2 as [|x k t ks' Hx Ht IH]; [contradiction|].
  inversion Hn as [|? ? Hk Hks]; subst.
  destruct Hin as [->|Hin]; [|apply IH; assumption].
  unfold String.leb. rewrite Hx, isoformat_compare by apply Hvalid.
  specialize (Hmono k j ltac:(lia)). unfold dt_leb in Hmono. exact Hmono.
Qed.

Lemma stable_sort_of_sorted {A : Type} (le : A -> A -> bool) (l : list A) :
  StronglySorted (fun a b => le a b = true) l -> stable_sort le l = l.
Proof.
  induction 1 as [|x t Hs IH Hx]; [reflexivity|].
  cbn [stable_sort]. rewrite IH. destruct t as [|y t']; [reflexivity|].
  cbn [insert_sorted]. inversion Hx as [|? ? Hxy _]; subst.
  rewrite Hxy. reflexivity.
Qed.

Lemma StronglySorted_filter {A : Type} (R : A -> A -> Prop)
  (q : A -> bool) (l : list A) :
  StronglySorted R l -> StronglySorted R (filter q l).
Proof.
  induction 1 as [|x t Hs IH Hx]; cbn [filter]; [constructor|].
  destruct (q x); [|exact IH]. constructor; [exact IH|].
  rewrite Forall_forall in *. intros y Hy. apply Hx.
  apply filter_In in Hy. apply Hy.
Qed.

Lemma StronglySorted_firstn {A : Type} (R : A -> A -> Prop) (n : nat)
  (l : list A) :
  StronglySorted R l -> StronglySorted R (firstn n l).
Proof.
  intros H. revert n. induction H as [|x t Hs IH Hx]; intros [|n];
    cbn [firstn]; try constructor; [apply IH|].
  rewrite Forall_forall in *. intros y Hy. apply Hx.
  eapply firstn_incl, Hy.
Qed.

Lemma stamped_in_order (E : Env) (n : nat) (l : list MessageDoc)
  (ks : list nat) :
  stamped_by n l ks -> StronglySorted stamped_earlier l.
Proof.
  intros (H2 & Hs & _). induction H2 as [|m k t ks' Hm Ht IH];
    [constructor|].
  inversion Hs as [|? ? Hs' Hk]; subst. constructor; [apply IH, Hs'|].
  clear IH Hs Hs'. induction Ht as [|m' k' t' ks'' Hm' Ht' IH'];
    [constructor|].
  inversion Hk as [|? ? Hkk' Hk']; subst.
  constructor; [exists k, k'; auto | apply IH', Hk'].
Qed.

(** The stored message read back, for a timestamp that is a valid
    instant's text. *)
Lemma parse_message_stamped (E : Env) (m : MessageDoc) (i : nat) :
  valid_datetime (now_at i) ->
  Message.timestamp m = isoformat (now_at i) ->
  parse_message m = inr (Message.with_timestamp (now_at i) m).
Proof.
  intros Hv Hm. unfold parse_message.
  rewrite Hm, isoformat_roundtrip by exact Hv. reflexivity.
Qed.

Lemma parsed_in_order (E : Env) (l : list MessageDoc)
  (l' : list (Message.t datetime)) :
  (forall i, valid_datetime (now_at i)) ->
  monotone_clock ->
  StronglySorted stamped_earlier l ->
  traverse parse_message l = inr l' ->
  StronglySorted (fun a b => by_parsed_timestamp a b = true) l'.
Proof.
  intros Hvalid Hmono Hs. revert l'.
  induction Hs as [|x t Hs IH Hx]; cbn [traverse]; intros l' H.
  - injection H as <-. constructor.
  - destruct (parse_message x) as [e|y] eqn:Hy; [discriminate|].
    destruct (traverse parse_message t) as [e|ys] eqn:Hys; [discriminate|].
    injection H as <-. constructor; [apply IH; reflexivity|].
    pose proof (traverse_Forall2 _ _ _ Hys) as H2.
    clear IH Hs Hys. induction H2 as [|y' x' ys' t' Hy' H2 IH'];
      [constructor|].
    inversion Hx as [|? ? Hxx' Hxt']; subst.
    constructor; [|apply IH', Hxt'].
    destruct Hxx' as (i & j & Hij & Hi & Hj).
    rewrite (parse_message_stamped E x i (Hvalid i) Hi) in Hy.
    rewrite (parse_message_stamped E x' j (Hvalid j) Hj) in Hy'.
    injection Hy as <-. injection Hy' as <-.
    unfold by_parsed_timestamp. cbn. apply Hmono. lia.
Qed.

Lemma docs_in_order (E : Env) (l : list MessageDoc) :
  (forall i, valid_datetime (now_at i)) ->
  monotone_clock ->
  StronglySorted stamped_earlier l ->
  StronglySorted (fun a b => by_timestamp a b = true) l.
Proof.
  intros Hvalid Hmono Hs.
  induction Hs as [|x t Hs IH Hx]; constructor; [exact IH|].
  eapply Forall_impl; [|exact Hx]. cbn.
  intros y (i & j & Hij & Hi & Hj).
  rewrite (by_timestamp_iso x y (now_at i) (now_at j)) by auto.
  apply Hmono. lia.
Qed.

(** X18.  Under a clock that gives valid instants and never runs
    backwards, a reachable store holds its messages in the order of their
    timestamps, so the sorting the reads do changes nothing: the JSON
    export hands out the first 1000 stored messages of the conversation
    exactly as stored and in store order, and the messages
    [get_conversation] returns are those same messages, each read back
    from its stored form, in store order. *)
Theorem store_order_is_time_order
  (E : Env) (w : World) (cid : string) (conv : ConversationDoc) :
  (forall i, valid_datetime (now_at i)) ->
  monotone_clock ->
  reachable w ->
  stored_conversation w cid = Some conv ->
  result (export_conversation cid "json") w
    = inr (JSONExport conv (firstn 1000 (messages_of w cid))) /\
  forall c msgs s,
    result (get_conversation cid) w = inr (c, msgs, s) ->
    Forall2 (fun p m => parse_message m = inr p) msgs
      (firstn 1000 (messages_of w cid)).
Proof.
  intros Hvalid Hmono Hr Hfind.
  destruct (stamped_reachable E w Hr) as [ks Hst].
  assert (Hread : StronglySorted stamped_earlier
                    (firstn 1000 (messages_of w cid))).
  { apply StronglySorted_firstn, StronglySorted_filter.
    eapply stamped_in_order, Hst. }
  unfold stored_conversation in Hfind. split.
  - unfold export_conversation. unfold_run. rewrite Hfind. unfold_run.
    fold (messages_of w cid).
    rewrite stable_sort_of_sorted by (apply (docs_in_order E); assumption).
    reflexivity.
  - intros c msgs s. unfold get_conversation. unfold_run. rewrite Hfind.
    destruct (parse_conversation conv) as [e|c0]; cbn [fst snd];
      [discriminate|].
    unfold_run. fold (messages_of w cid).
    destruct (traverse parse_message (firstn 1000 (messages_of w cid)))
      as [e|parsed] eqn:Ht; cbn [fst snd]; [discriminate|].
    rewrite (stable_sort_of_sorted by_parsed_timestamp parsed)
      by (eapply (parsed_in_order E); eassumption).
    match goal with
    | |- context [(if ?b then ?m1 else ?m2) ?w0] =>
        destruct ((if b then m1 else m2) w0) as [[e|sugg] w1]
    end; cbn [fst snd]; [discriminate|].
    intros H. injection H as _ <- _. apply traverse_Forall2, Ht.
Qed.

Lemma steady_clock_valid (n : nat) :
  valid_datetime (now_at (Env := steady_env) n).
Proof.
  unfold valid_datetime. cbn [now_at steady_env year month day hour minute
                              second microsecond].
  repeat split; lia.
Qed.

Lemma steady_clock_monotone : monotone_clock (E := steady_env).
Proof.
  intros i j Hij. unfold dt_leb, dt_compare.
  cbn [now_at steady_env fields year month day hour minute second
       microsecond list_compare].
  rewrite !N.compare_refl. cbn [lex].
  destruct (N.compare_spec (N.min (N.of_nat i) 999999)
              (N.min (N.of_nat j) 999999)) as [H|H|H];
    try reflexivity. lia.
Qed.

Lemma steady_world_reachable : reachable (E := steady_env) steady_world.
Proof. repeat apply reachable_step. apply reachable_empty. Qed.

Lemma store_order_is_time_order_witness :
  result (export_conversation (E := steady_env) "id-0" "json") steady_world
    = inr (JSONExport
             (Conversation.mk "id-0" "Demo" "active" None
                "2024-01-01T00:00:00.000001+00:00" None None)
             (firstn 1000 (messages_of steady_world "id-0"))).
Proof.
  apply (store_order_is_time_order steady_env steady_world "id-0" _
           steady_clock_valid steady_clock_monotone steady_world_reachable).
  reflexivity.
Defined.

(** X19.  In a world reached by requests, under a clock that gives valid
    instants and never runs backwards, [send_message] on an active
    conversation with fewer than 1000 stored messages sends the gateway
    exactly the content given, in the conversation's own session, and
    returns the assistant message that carries the gateway's response (or
    the error text). *)
Theorem reachable_send_message_reply
  (E : Env) (cid content : string) (w : World) (conv : ConversationDoc) :
  (forall i, valid_datetime (now_at i)) ->
  monotone_clock ->
  reachable w ->
  stored_conversation w cid = Some conv ->
  Conversation.status conv = "active" ->
  List.length (messages_of w cid) < 1000 ->
  let call := mk_call assistant_system cid content in
  exists ai,
    result (send_message cid content) w = inr ai /\
    Message.role ai = "assistant" /\
    Message.content ai
      = match gateway (llm_calls w) call with
        | inr text => text
        | inl e => "Error generating response: " ++ e
        end /\
    llm_calls (final (send_message cid content) w)
      = (llm_calls w ++ [call])%list.
Proof.
  intros Hvalid Hmono Hr Hfind Hst Hlen call.
  destruct (stamped_reachable E w Hr) as [ks Hstamp].
  assert (Hlate : forall m, In m (messages_of w cid) ->
            String.leb (Message.timestamp m)
              (isoformat (now_at (S (ticks w)))) = true).
  { intros m Hm. apply filter_In in Hm.
    eapply (stamped_before E); try eassumption; [apply Hm | lia]. }
  pose proof (send_message_run E cid content w conv Hfind Hst Hlen Hlate)
    as Hrun.
  cbv zeta in Hrun. fold call in Hrun.
  unfold result, final. rewrite Hrun. cbn [fst snd llm_calls].
  eexists. split; [reflexivity|].
  cbn [Message.role Message.content]. repeat split; reflexivity.
Qed.

Lemma reachable_send_message_reply_witness :
  exists ai,
    result (send_message (E := steady_env) "id-0" "And then?") steady_world
      = inr ai /\
    Message.role ai = "assistant" /\
    Message.content ai = "reply to: And then?" /\
    llm_calls
      (final (send_message (E := steady_env) "id-0" "And then?")
         steady_world)
      = [mk_call assistant_system "id-0" "Hello";
         mk_call assistant_system "id-0" "And then?"].
Proof.
  apply (reachable_send_message_reply steady_env "id-0" "And then?"
           steady_world
           (Conversation.mk "id-0" "Demo" "active" None
              "2024-01-01T00:00:00.000001+00:00" None None)
           steady_clock_valid steady_clock_monotone steady_world_reachable
           eq_refl eq_refl).
  vm_compute. repeat constructor.
Defined.
